(** * AliceVision pipeline drivers: LdrToHdrSampling and meshing

    A shallow embedding of the two command-line drivers
    [src/software/pipeline/main_LdrToHdrSampling.cpp] and
    [src/software/pipeline/main_meshing.cpp].

    Both drivers are orchestration code: they call library collaborators
    (dataset loading, bracket grouping, sample extraction, space
    estimation, Delaunay graph cut, mesh post-processing) and touch the
    file system.  The collaborators are taken as the fields of a [World]
    record; every observable action of a driver (a log line, a call to a
    collaborator that computes, a file written) is appended to a trace of
    events, and the run ends with an [Outcome]: an exit status, a C++
    exception that leaves [main], or undefined behaviour.

    Both models start after the command line has been parsed
    successfully (the line "Program called with the following
    parameters"), from the values the options were parsed into. *)

From Stdlib Require Import ZArith NArith Lia List Bool DecimalString DecimalNat.
From Stdlib.Strings Require Import Byte Ascii String.
From stdpp Require Import base option list gmap strings.

Open Scope Z_scope.

(** ** Machine integers *)

Module MachineInt.

(** [int] is 32 bits wide and [std::size_t] 64 bits wide. *)
Definition INT_MAX : Z := 2 ^ 31 - 1.
Definition INT_MIN : Z := - 2 ^ 31.
Definition SIZE_MAX : Z := 2 ^ 64 - 1.

Definition is_int (z : Z) : Prop := INT_MIN <= z <= INT_MAX.

(** Value of an [int] expression whose mathematical value is [z]
    (two's complement wrap-around; conversion of a [size_t] to [int]). *)
Definition wrap_int (z : Z) : Z := (z + 2 ^ 31) mod 2 ^ 32 - 2 ^ 31.

(** Conversion to [std::size_t], as done by the usual arithmetic
    conversions when an [int] meets a [size_t]. *)
Definition to_size_t (z : Z) : Z := z mod 2 ^ 64.

End MachineInt.

(** ** Outcomes and the trace monad *)

Definition EXIT_SUCCESS : Z := 0.
Definition EXIT_FAILURE : Z := 1.

(** The exceptions the drivers throw. *)
Inductive Exception :=
| invalid_argument (what : string)
| logic_error (what : string)
| runtime_error (what : string)
| out_of_range (what : string).

Inductive Outcome :=
| Exit (status : Z)        (* [return status;] from [aliceVision_main] *)
| Throw (e : Exception)    (* an exception propagates out of [aliceVision_main] *)
| Undefined.               (* the source has undefined behaviour here *)

(** A computation emits events and either stops the run with an outcome
    or goes on with a value. *)
Definition M (E A : Type) : Type := list E * (Outcome + A).

(** [m] after the events [t]. *)
Definition prepend {E A} (t : list E) (m : M E A) : M E A := (t ++ m.1, m.2).

#[global] Instance M_ret {E} : MRet (M E) := λ A a, ([], inr a).
#[global] Instance M_bind {E} : MBind (M E) := λ A B f m,
  match m.2 with
  | inl o => (m.1, inl o)
  | inr a => prepend m.1 (f a)
  end.

Definition emit {E} (e : E) : M E unit := ([e], inr tt).
Definition stop {E A} (o : Outcome) : M E A := ([], inl o).

(** [return status;] in the middle of [main]. *)
Definition return_ {E A} (status : Z) : M E A := stop (Exit status).
(** [throw e;] with no handler in the driver. *)
Definition throw {E A} (e : Exception) : M E A := stop (Throw e).

(** A whole run: the trace and how the process ended. *)
Definition run {E} (m : M E Z) : list E * Outcome :=
  (m.1, match m.2 with inl o => o | inr status => Exit status end).

Definition trace {E} (r : list E * Outcome) : list E := r.1.
Definition outcome {E} (r : list E * Outcome) : Outcome := r.2.

(** ** Strings and paths *)

(** [std::to_string] on an unsigned index. *)
Definition to_string (n : nat) : string :=
  NilZero.string_of_uint (Nat.to_uint n).

Fixpoint ends_with_slash (s : string) : bool :=
  match s with
  | EmptyString => false
  | String c EmptyString => bool_decide (c = "/"%char)
  | String _ s' => ends_with_slash s'
  end.

(** [fs::path(p) / q] for a relative [q]: a separator is added unless [p]
    is empty or already ends with one. *)
Definition path_append (p q : string) : string :=
  if bool_decide (p = EmptyString) then q
  else if ends_with_slash p then (p ++ q)%string
  else (p ++ "/" ++ q)%string.

(** ** Little-endian byte strings *)

Module Bytes.

Definition byte_of_N (n : N) : byte :=
  match Byte.of_N n with Some b => b | None => x00 end.

(** The [w] bytes of the object representation of an unsigned value
    (little endian, as on x86-64). *)
Fixpoint le_bytes (w : nat) (n : N) : list byte :=
  match w with
  | O => []
  | S w' => byte_of_N (n mod 256)%N :: le_bytes w' (n / 256)%N
  end.

Fixpoint le_value (bs : list byte) : N :=
  match bs with
  | [] => 0%N
  | b :: bs' => (Byte.to_N b + 256 * le_value bs')%N
  end.

End Bytes.

(** * main_LdrToHdrSampling.cpp *)

Module LdrToHdrSampling.
Import MachineInt Bytes.

(** ** Data *)

(** A [float] is carried as its 32-bit pattern: the driver only moves
    floats around and the samples file stores their bytes. *)
Definition float := N.

Record View := {
  getImagePath : string;
  getCameraExposureSetting : float;
}.

Record IntrinsicBase := { w : N; h : N }.

(** What the driver reads of [sfmData::SfMData]: the intrinsics (values
    of the map, in key order) and the views. *)
Record SfMData := {
  getIntrinsics : list IntrinsicBase;
  getViews : list View;
}.

(** [hdr::Sampling::Params] *)
Record Params := { blockSize : Z; radius : Z; maxCountSample : N }.

(** Modelled from the spec: the record type [hdr::ImageSample] and its
    per-camera [hdr::PixelDescription] are declared in hdr/sampling.hpp,
    which is not among the files verified here.  The spec describes a
    sample as a position and per-camera radiance/intensity statistics. *)
Record PixelDescription := {
  exposure : float;
  mean : float * float * float;
  variance : float * float * float;
}.

Record ImageSample := {
  x : N;
  y : N;
  descriptions : list PixelDescription;
}.

(** ** Samples files *)

Definition put_size_t (n : N) : list byte := le_bytes 8 n.
Definition put_float (f : float) : list byte := le_bytes 4 f.

(** Modelled from the spec: [operator<<] for [hdr::PixelDescription]
    and [hdr::ImageSample] (hdr/sampling.cpp) are missing; a record has
    a fixed format: position, number of cameras, and the statistics of
    each camera, every field as its raw bytes. *)
Definition put_description (d : PixelDescription) : list byte :=
  let '(mr, mg, mb) := mean d in
  let '(vr, vg, vb) := variance d in
  put_float (exposure d) ++ put_float mr ++ put_float mg ++ put_float mb
    ++ put_float vr ++ put_float vg ++ put_float vb.

Definition put_sample (s : ImageSample) : list byte :=
  put_size_t (x s) ++ put_size_t (y s)
    ++ put_size_t (N.of_nat (length (descriptions s)))
    ++ concat (put_description <$> descriptions s).

(** Lines 221-227: the count, in [sizeof(size)] raw bytes, then every
    sample through [operator<<]. *)
Definition samples_file (out_samples : list ImageSample) : list byte :=
  put_size_t (N.of_nat (length out_samples))
    ++ concat (put_sample <$> out_samples).

(** Modelled from the spec: the reader of a samples file (the calibration
    step and [operator>>] of hdr/sampling.cpp) is missing; it reads the
    count and then that many records, field by field. *)
Definition get_bytes (n : nat) (bs : list byte) : option (list byte * list byte) :=
  if bool_decide (n ≤ length bs)%nat then Some (take n bs, drop n bs) else None.

Definition get_size_t (bs : list byte) : option (N * list byte) :=
  '(b, rest) ← get_bytes 8 bs; Some (le_value b, rest).

Definition get_float (bs : list byte) : option (float * list byte) :=
  '(b, rest) ← get_bytes 4 bs; Some (le_value b, rest).

Definition get_description (bs : list byte) : option (PixelDescription * list byte) :=
  '(e, bs) ← get_float bs;
  '(mr, bs) ← get_float bs; '(mg, bs) ← get_float bs; '(mb, bs) ← get_float bs;
  '(vr, bs) ← get_float bs; '(vg, bs) ← get_float bs; '(vb, bs) ← get_float bs;
  Some ({| exposure := e; mean := (mr, mg, mb); variance := (vr, vg, vb) |}, bs).

(** [n] records read one after the other. *)
Fixpoint get_many {A} (get : list byte → option (A * list byte))
    (n : nat) (bs : list byte) : option (list A * list byte) :=
  match n with
  | O => Some ([], bs)
  | S n' =>
      '(a, bs) ← get bs;
      '(l, bs) ← get_many get n' bs;
      Some (a :: l, bs)
  end.

Definition get_sample (bs : list byte) : option (ImageSample * list byte) :=
  '(sx, bs) ← get_size_t bs;
  '(sy, bs) ← get_size_t bs;
  '(n, bs) ← get_size_t bs;
  '(ds, bs) ← get_many get_description (N.to_nat n) bs;
  Some ({| x := sx; y := sy; descriptions := ds |}, bs).

Definition read_samples_file (bs : list byte) : option (list ImageSample) :=
  '(size, bs) ← get_size_t bs;
  '(samples, _) ← get_many get_sample (N.to_nat size) bs;
  Some samples.

(** Values that fit their C++ types. *)
Definition is_float (f : float) : Prop := (f < 2 ^ 32)%N.
Definition is_size_t (n : N) : Prop := (n < 2 ^ 64)%N.

Definition description_ok (d : PixelDescription) : Prop :=
  is_float (exposure d)
  ∧ is_float (mean d).1.1 ∧ is_float (mean d).1.2 ∧ is_float (mean d).2
  ∧ is_float (variance d).1.1 ∧ is_float (variance d).1.2 ∧ is_float (variance d).2.

Definition sample_ok (s : ImageSample) : Prop :=
  is_size_t (x s) ∧ is_size_t (y s)
  ∧ is_size_t (N.of_nat (length (descriptions s)))
  ∧ Forall description_ok (descriptions s).

Definition samples_ok (l : list ImageSample) : Prop :=
  is_size_t (N.of_nat (length l)) ∧ Forall sample_ok l.

(** ** The driver *)

(** The parsed command line. *)
Record Args := {
  sfmInputDataFilename : string;
  outputFolder : string;
  nbBrackets : Z;
  channelQuantizationPower : Z;
  byPass : bool;
  params : Params;
  rangeStart : Z;
  rangeSize : Z;
}.

(** The collaborators and the file system. *)
Record World := {
  (* sfmDataIO::Load: [None] when it returns false *)
  sfmDataIO_Load : string → option SfMData;
  (* hdr::estimateBracketsFromSfmData: [None] when it returns false *)
  estimateBracketsFromSfmData : SfMData → Z → option (list (list View));
  (* hdr::Sampling::extractSamplesFromImages: the returned flag and what
     it left in [out_samples] *)
  extractSamplesFromImages :
    list string → list float → N → N → Z → Params → bool * list ImageSample;
  (* whether a [std::ofstream] on this path opens *)
  ofstream_is_open : string → bool;
}.

Inductive Event :=
| LOG_ERROR (msg : string)
| LOG_INFO (msg : string)
| LOG_DEBUG (msg : string)
| ExtractSamples (groupIdx : nat)
| FileWritten (path : string) (content : list byte).

Definition samplesFilepath (outputFolder : string) (groupIdx : nat) : string :=
  path_append outputFolder (to_string groupIdx ++ "_samples.dat").

Section Driver.
Variable W : World.
Variable a : Args.

(** Lines 144-167. *)
Definition check_groups (groupedViews : list (list View)) : M Event unit :=
  let sizeOfGroups : gset nat := list_to_set (length <$> groupedViews) in
  if bool_decide (size sizeOfGroups = 1%nat) then
    let usedNbBrackets := default 0%nat (head (elements sizeOfGroups)) in
    if bool_decide (usedNbBrackets = 1%nat) then
      emit (LOG_INFO "No multi-bracketing.");;
      return_ EXIT_SUCCESS
    else
      emit (LOG_INFO ("Number of brackets automatically detected: "
                        ++ to_string usedNbBrackets ++ ". It will generate "
                        ++ to_string (length groupedViews) ++ " hdr images."))
  else
    emit (LOG_ERROR "Exposure groups do not have a consistent number of brackets.");;
    return_ EXIT_FAILURE.

(** Lines 169-188: the new values of [rangeStart] and [rangeSize].  The
    sum [rangeStart + rangeSize] is an [int]; where it overflows (which
    C++ leaves undefined) it is taken to wrap around, as the compiled
    code does. *)
Definition define_range (groupedViews : list (list View)) : M Event (Z * Z) :=
  let size := Z.of_nat (length groupedViews) in
  let rangeStart := rangeStart a in
  let rangeSize := rangeSize a in
  if bool_decide (rangeStart ≠ -1) then
    if bool_decide (rangeStart < 0) || bool_decide (rangeSize < 0)
       || bool_decide (to_size_t rangeStart > size) then
      emit (LOG_ERROR "Range is incorrect");;
      return_ EXIT_FAILURE
    else if bool_decide (to_size_t (wrap_int (rangeStart + rangeSize)) > size) then
      mret (rangeStart, wrap_int (to_size_t (size - to_size_t rangeStart)))
    else
      mret (rangeStart, rangeSize)
  else
    mret (0, wrap_int size).

(** Lines 193-227: the body of the loop over the groups. *)
Definition process_group (groupedViews : list (list View))
    (width height : N) (channelQuantization : Z) (groupIdx : nat) : M Event unit :=
  group ← match groupedViews !! groupIdx with
          | Some g => mret g
          | None => stop Undefined
          end;
  let paths := getImagePath <$> group in
  let exposures := getCameraExposureSetting <$> group in
  emit (LOG_INFO ("Extracting samples from group " ++ to_string groupIdx));;
  emit (ExtractSamples groupIdx);;
  let '(res, out_samples) :=
    extractSamplesFromImages W paths exposures width height
      channelQuantization (params a) in
  (if negb res then
     emit (LOG_ERROR ("Error while extracting samples from group "
                        ++ to_string groupIdx))
   else mret tt);;
  let path := samplesFilepath (outputFolder a) groupIdx in
  if negb (ofstream_is_open W path) then
    emit (LOG_ERROR "Impossible to write samples");;
    return_ EXIT_FAILURE
  else
    emit (FileWritten path (samples_file out_samples)).

(** [for(groupIdx = first; groupIdx < last; ++groupIdx)], with [n]
    the number of indices from [first] up to [last]. *)
Fixpoint process_groups (groupedViews : list (list View))
    (width height : N) (channelQuantization : Z)
    (n : nat) (groupIdx : nat) : M Event unit :=
  match n with
  | O => mret tt
  | S n' =>
      process_group groupedViews width height channelQuantization groupIdx;;
      process_groups groupedViews width height channelQuantization n' (S groupIdx)
  end.

(** Lines 169-230: the range and the loop over its groups. *)
Definition process_range (groupedViews : list (list View))
    (width height : N) (channelQuantization : Z) : M Event Z :=
  '(rangeStart, rangeSize) ← define_range groupedViews;
  emit (LOG_DEBUG "Range to compute");;
  let first := to_size_t rangeStart in
  let last := to_size_t (wrap_int (rangeStart + rangeSize)) in
  process_groups groupedViews width height channelQuantization
    (Z.to_nat (last - first)) (Z.to_nat first);;
  mret EXIT_SUCCESS.

Definition aliceVision_main : M Event Z :=
  let channelQuantization := 2 ^ channelQuantizationPower a in
  sfmData ← match sfmDataIO_Load W (sfmInputDataFilename a) with
            | Some d => mret d
            | None =>
                emit (LOG_ERROR ("The input SfMData file '" ++ sfmInputDataFilename a
                                   ++ "' cannot be read."));;
                return_ EXIT_FAILURE
            end;
  (if bool_decide (1 < length (getIntrinsics sfmData))%nat then
     emit (LOG_ERROR ("Only one intrinsic allowed ("
                        ++ to_string (length (getIntrinsics sfmData)) ++ " found)"));;
     return_ EXIT_FAILURE
   else mret tt);;
  (* getIntrinsics().begin()->second: undefined on an empty map *)
  intrinsic ← match getIntrinsics sfmData with
              | i :: _ => mret i
              | [] => stop Undefined
              end;
  let width := w intrinsic in
  let height := h intrinsic in
  groupedViews ← match estimateBracketsFromSfmData W sfmData (nbBrackets a) with
                 | Some g => mret g
                 | None => return_ EXIT_FAILURE
                 end;
  check_groups groupedViews;;
  process_range groupedViews width height channelQuantization.

(** What the extraction gives for the group at [groupIdx]. *)
Definition extracted (groupedViews : list (list View))
    (width height : N) (groupIdx : nat) : bool * list ImageSample :=
  let group := default [] (groupedViews !! groupIdx) in
  extractSamplesFromImages W (getImagePath <$> group)
    (getCameraExposureSetting <$> group) width height
    (2 ^ channelQuantizationPower a) (params a).

End Driver.

(** The files a run wrote, in order. *)
Definition files_written (t : list Event) : list string :=
  omap (λ e, match e with FileWritten p _ => Some p | _ => None end) t.

(** The groups a run called the sample extraction on, in order. *)
Definition groups_processed (t : list Event) : list nat :=
  omap (λ e, match e with ExtractSamples i => Some i | _ => None end) t.

(** ** Vocabulary of the properties *)

(** The run ended with a non-zero status, and did so before it extracted
    samples from any group or wrote any file. *)
Definition fails_before_processing (r : list Event * Outcome) : Prop :=
  ∃ status, outcome r = Exit status ∧ status ≠ 0
            ∧ groups_processed (trace r) = [] ∧ files_written (trace r) = [].

(** The run got as far as the grouping: the dataset was read, it has one
    intrinsic, and the grouping gave [groupedViews]. *)
Definition grouped (W : World) (a : Args) (intrinsic : IntrinsicBase)
    (groupedViews : list (list View)) : Prop :=
  ∃ sfmData,
    sfmDataIO_Load W (sfmInputDataFilename a) = Some sfmData
    ∧ getIntrinsics sfmData = [intrinsic]
    ∧ estimateBracketsFromSfmData W sfmData (nbBrackets a) = Some groupedViews.

(** All groups have [n] brackets, and there is a group. *)
Definition brackets (groupedViews : list (list View)) (n : nat) : Prop :=
  groupedViews ≠ [] ∧ Forall (λ g, length g = n) groupedViews.

(** The indices the options [rangeStart] and [rangeSize] select among
    [n] groups, when the driver accepts them. *)
Definition selected_groups (a : Args) (n : nat) : option (list nat) :=
  if bool_decide (rangeStart a = -1) then Some (seq 0 n)
  else if bool_decide (0 <= rangeStart a <= Z.of_nat n) && bool_decide (0 <= rangeSize a) then
    Some (seq (Z.to_nat (rangeStart a))
              (Z.to_nat (Z.min (rangeSize a) (Z.of_nat n - rangeStart a))))
  else None.

(** The run [r] works through the groups [l], in order: when the samples
    file of each of them opens, it processes them all, writes their files
    and returns [EXIT_SUCCESS]; when the files of the groups [before]
    open and the file of the next group [k] does not, it processes the
    groups up to [k], has written the files of the groups [before] only,
    leaves the groups after [k] alone and returns [EXIT_FAILURE]. *)
Definition works_through (W : World) (a : Args) (r : list Event * Outcome)
    (l : list nat) : Prop :=
  let opens groupIdx :=
    ofstream_is_open W (samplesFilepath (outputFolder a) groupIdx) in
  (Forall (λ groupIdx, opens groupIdx = true) l →
     outcome r = Exit EXIT_SUCCESS
     ∧ groups_processed (trace r) = l
     ∧ files_written (trace r) = samplesFilepath (outputFolder a) <$> l)
  ∧ (∀ before k after,
       l = before ++ k :: after →
       Forall (λ groupIdx, opens groupIdx = true) before →
       opens k = false →
       outcome r = Exit EXIT_FAILURE
       ∧ groups_processed (trace r) = before ++ [k]
       ∧ files_written (trace r) = samplesFilepath (outputFolder a) <$> before).

(** The events of one turn of the loop in which the file opens. *)
Definition group_events (W : World) (a : Args) (groupedViews : list (list View))
    (width height : N) (groupIdx : nat) : list Event :=
  [LOG_INFO ("Extracting samples from group " ++ to_string groupIdx);
   ExtractSamples groupIdx]
  ++ (if (extracted W a groupedViews width height groupIdx).1 then []
      else [LOG_ERROR ("Error while extracting samples from group "
                         ++ to_string groupIdx)])
  ++ [FileWritten (samplesFilepath (outputFolder a) groupIdx)
        (samples_file (extracted W a groupedViews width height groupIdx).2)].

(** The file holds a count and then one record for every sample that a
    call of the extraction left in [out_samples], and reading it gives
    these samples back. *)
Definition file_format (W : World) (a : Args) (content : list byte) : Prop :=
  ∃ paths exposures width height,
    let out_samples :=
      (extractSamplesFromImages W paths exposures width height
         (2 ^ channelQuantizationPower a) (params a)).2 in
    content = put_size_t (N.of_nat (length out_samples))
                ++ concat (put_sample <$> out_samples)
    ∧ (samples_ok out_samples → read_samples_file content = Some out_samples).

Definition event_format (W : World) (a : Args) (e : Event) : Prop :=
  match e with
  | FileWritten _ content => file_format W a content
  | _ => True
  end.

(** What a run can look like at all: files for [k] consecutive groups,
    all of which opened; the groups processed are these, and possibly
    one more, whose file did not open and which ended the run. *)
Definition run_shape (W : World) (a : Args) (T : list Event) (o : Outcome) : Prop :=
  ∃ first k,
    files_written T = samplesFilepath (outputFolder a) <$> seq first k
    ∧ (groups_processed T = seq first k
       ∨ (groups_processed T = seq first k ++ [(first + k)%nat]
          ∧ o = Exit EXIT_FAILURE
          ∧ ofstream_is_open W (samplesFilepath (outputFolder a) (first + k)) = false)).

End LdrToHdrSampling.

(** ** A small dataset: two exposures of two scenes *)

Module SamplingExample.
Import LdrToHdrSampling.

Definition view (path : string) (exposure : float) : View :=
  {| getImagePath := path; getCameraExposureSetting := exposure |}.

Definition a0 := view "a0.jpg" 1%N.
Definition a1 := view "a1.jpg" 2%N.
Definition b0 := view "b0.jpg" 1%N.
Definition b1 := view "b1.jpg" 2%N.

Definition dataset : SfMData :=
  {| getIntrinsics := [ {| w := 4%N; h := 3%N |} ]; getViews := [a0; a1; b0; b1] |}.

Definition pairs : list (list View) := [[a0; a1]; [b0; b1]].
Definition singles : list (list View) := [[a0]; [a1]; [b0]; [b1]].
Definition uneven : list (list View) := [[a0; a1; b0]; [b1]].

Definition sample : ImageSample :=
  {| x := 1%N; y := 2%N;
     descriptions :=
       [ {| exposure := 1%N; mean := (10, 11, 12)%N; variance := (1, 1, 1)%N |};
         {| exposure := 2%N; mean := (20, 22, 24)%N; variance := (2, 2, 2)%N |} ] |}.

(** The grouping gives [groups]; the extraction fails on the first scene
    and finds one sample in any other group; every file opens. *)
Definition world (groups : list (list View)) : World :=
  {| sfmDataIO_Load := λ _, Some dataset;
     estimateBracketsFromSfmData := λ _ _, Some groups;
     extractSamplesFromImages := λ paths _ _ _ _ _,
       if bool_decide (paths = ["a0.jpg"; "a1.jpg"]) then (false, [])
       else (true, [sample]);
     ofstream_is_open := λ _, true |}.

Definition args (rangeStart rangeSize : Z) : Args :=
  {| sfmInputDataFilename := "cameras.sfm";
     outputFolder := "out";
     nbBrackets := 0;
     channelQuantizationPower := 10;
     byPass := false;
     params := {| blockSize := 256; radius := 5; maxCountSample := 200%N |};
     rangeStart := rangeStart;
     rangeSize := rangeSize |}.

(** The same, but the dataset cannot be read. *)
Definition world_unreadable : World :=
  {| sfmDataIO_Load := λ _, None;
     estimateBracketsFromSfmData := λ _ _, Some pairs;
     extractSamplesFromImages := λ _ _ _ _ _ _, (true, [sample]);
     ofstream_is_open := λ _, true |}.

(** The same as [world], but for a dataset without intrinsics. *)
Definition world_without_intrinsic : World :=
  {| sfmDataIO_Load := λ _, Some {| getIntrinsics := []; getViews := [a0; a1; b0; b1] |};
     estimateBracketsFromSfmData := λ _ _, Some pairs;
     extractSamplesFromImages := λ _ _ _ _ _ _, (true, [sample]);
     ofstream_is_open := λ _, true |}.

(** Three groups; the samples file of the second one cannot be opened. *)
Definition triples : list (list View) := [[a0; a1]; [b0; b1]; [a0; b1]].

Definition world_unwritable : World :=
  {| sfmDataIO_Load := λ _, Some dataset;
     estimateBracketsFromSfmData := λ _ _, Some triples;
     extractSamplesFromImages := λ _ _ _ _ _ _, (true, [sample]);
     ofstream_is_open := λ path, negb (bool_decide (path = "out/1_samples.dat")) |}.

End SamplingExample.

(** * main_meshing.cpp *)

Module Meshing.
Import MachineInt.

(** ** Modes *)

Inductive EPartitioningMode :=
| ePartitioningUndefined
| ePartitioningSingleBlock
| ePartitioningAuto.

Definition EPartitioning_stringToEnum (s : string) : EPartitioningMode :=
  if bool_decide (s = "singleBlock") then ePartitioningSingleBlock
  else if bool_decide (s = "auto") then ePartitioningAuto
  else ePartitioningUndefined.

Inductive ERepartitionMode :=
| eRepartitionUndefined
| eRepartitionMultiResolution.

Definition ERepartitionMode_stringToEnum (s : string) : ERepartitionMode :=
  if bool_decide (s = "multiResolution") then eRepartitionMultiResolution
  else eRepartitionUndefined.

#[global] Instance EPartitioningMode_eq_dec : EqDecision EPartitioningMode.
Proof. solve_decision. Defined.
#[global] Instance ERepartitionMode_eq_dec : EqDecision ERepartitionMode.
Proof. solve_decision. Defined.

(** ** Data *)

(** Floating-point numbers are carried as bit patterns; the driver never
    computes with them. *)
Definition float := N.
Definition double := N.

(** [IndexT] is [uint32_t]. *)
Definition IndexT := N.
Definition UndefinedIndexT : IndexT := (2 ^ 32 - 1)%N.
(** A [std::size_t] used as a key of type [IndexT]. *)
Definition to_IndexT (i : nat) : IndexT := (N.of_nat i mod 2 ^ 32)%N.

Record Point3d := { x : double; y : double; z : double }.
Definition Vec3 : Type := double * double * double.
Definition Vec2 : Type := double * double.
Record rgb := { r : N; g : N; b : N }.

Record Observation := {
  obs_x : Vec2;
  id_feat : IndexT;
  scale : double;
}.

Inductive EImageDescriberType := UNKNOWN | SIFT.

Record Landmark := {
  X : Vec3;
  descType : EImageDescriberType;
  observations : gmap IndexT Observation;
  landmark_rgb : rgb;
}.

Record View := {
  getViewId : IndexT;
  getIntrinsicId : IndexT;
  getPoseId : IndexT;
}.

(** Camera models and poses are opaque to the driver. *)
Record IntrinsicBase := { intrinsic_params : list double }.
Record Pose := { transform : list double }.

Record SfMData := {
  views : gmap IndexT View;
  intrinsics : gmap IndexT IntrinsicBase;
  poses : gmap IndexT Pose;
  landmarks : gmap IndexT Landmark;
}.

Definition set_landmarks (d : SfMData) (l : gmap IndexT Landmark) : SfMData :=
  {| views := views d; intrinsics := intrinsics d; poses := poses d; landmarks := l |}.

Definition set_observations (l : Landmark) (o : gmap IndexT Observation) : Landmark :=
  {| X := X l; descType := descType l; observations := o; landmark_rgb := landmark_rgb l |}.

Definition set_rgb (l : Landmark) (c : rgb) : Landmark :=
  {| X := X l; descType := descType l; observations := observations l; landmark_rgb := c |}.

Record Mesh := {
  pts : list Point3d;
  tris : list (nat * nat * nat);
  colors : list rgb;
}.

Definition set_colors (m : Mesh) (c : list rgb) : Mesh :=
  {| pts := pts m; tris := tris m; colors := c |}.

(** The eight corners of the bounding volume. *)
Definition Hexah : Type := list Point3d.

(** [fuseCut::FuseParams], passed through to the point fuser. *)
Record FuseParams := {
  maxInputPoints : Z;
  maxPoints : Z;
  minStep : Z;
  refineFuse : bool;
}.

(** What the driver puts in [mp.userParams]. *)
Record UserParams := {
  LargeScale_universePercentile : double;
  delaunaycut_forceTEdgeDelta : float;
  delaunaycut_seed : N;
}.

(** [mvsUtils::MultiViewParams]: the view id of each camera index and the
    user parameters. *)
Record MultiViewParams := {
  viewIds : list IndexT;
  userParams : UserParams;
}.

Definition getNbCameras (mp : MultiViewParams) : nat := length (viewIds mp).

(** The parsed command line. *)
Record Args := {
  sfmDataFilename : string;
  outputMesh : string;
  outputDensePointCloud : string;
  depthMapsFolder : string;
  partitioningMode : EPartitioningMode;
  repartitionMode : ERepartitionMode;
  estimateSpaceMinObservations : N;
  estimateSpaceMinObservationAngle : float;
  universePercentile : double;
  maxPtsPerVoxel : Z;
  estimateSpaceFromSfM : bool;
  addLandmarksToTheDensePointCloud : bool;
  saveRawDensePointCloud : bool;
  colorizeOutput : bool;
  forceTEdgeDelta : float;
  seed : N;
  fuseParams : FuseParams;
}.

(** The collaborators and the file system.  Every collaborator is taken
    to return normally; files a collaborator writes on its own are not
    part of the trace. *)
Record World := {
  (* sfmDataIO::Load: [None] when it returns false *)
  sfmDataIO_Load : string → option SfMData;
  (* the camera list the MultiViewParams constructor builds *)
  mvs_viewIds : SfMData → string → bool → list IndexT;
  is_directory : string → bool;
  (* fuseCut::Fuser *)
  divideSpaceFromDepthMaps : MultiViewParams → Hexah;
  divideSpaceFromSfM : MultiViewParams → SfMData → N → float → Hexah;
  findCamsWhichIntersectsHexahedron : MultiViewParams → Hexah → list nat;
  (* DelaunayGraphCut::createDensePointCloud: the vertices it leaves in
     [_verticesCoords] and what [createPtsCams] gives right after *)
  createDensePointCloud :
    MultiViewParams → Hexah → list nat → option SfMData → option FuseParams
    → list Point3d * list (list nat);
  (* createGraphCut, graphCutPostProcessing, createMesh, createPtsCams and
     mesh::meshPostProcessing: the mesh pointer ([None] for nullptr) and
     the visibilities after post-processing *)
  reconstructMesh :
    MultiViewParams → Hexah → list nat → list Point3d
    → option Mesh * list (list nat);
  (* IntrinsicBase::project(pose, pt3D, applyDistortion) *)
  project : IntrinsicBase → Pose → Vec3 → bool → Vec2;
  (* the colour sfmData::colorizeTracks gives a landmark *)
  track_color : SfMData → IndexT → rgb;
}.

Inductive Event :=
| LOG_ERROR (msg : string)
| LOG_WARNING (msg : string)
| LOG_INFO (msg : string)
| LoadSfMData (path : string)
| CreateDirectory (path : string)
| DivideSpaceFromDepthMaps
| DivideSpaceFromSfM
| FindCamsWhichIntersectsHexahedron
| CreateDensePointCloud (cams : list nat)
| ReconstructMesh
| SaveSfMData (path : string) (data : SfMData)
| SaveToObj (path : string) (mesh : Mesh).

(** [fs::path(p).parent_path()]: what precedes the last separator (for a
    path without a root directory or doubled separators). *)
Fixpoint parent_path (p : string) : string :=
  match p with
  | EmptyString => EmptyString
  | String c p' =>
      if bool_decide ("/"%char ∈ list_ascii_of_string p') then String c (parent_path p')
      else EmptyString
  end.

Section Driver.
Variable W : World.

(** ** createDenseSfMData (lines 85-114) *)

Definition unknownScale : double := 0%N.

(** The observation of [pt3D] in camera [cam], with the key it is stored
    under.  [getView] and [getPose] are [std::map::at]; [getViewId]
    indexes a vector and [getIntrinsicPtr] gives a pointer that is
    dereferenced. *)
Definition make_observation {E} (sfmData : SfMData) (mp : MultiViewParams)
    (pt3D : Vec3) (cam : nat) : M E (IndexT * Observation) :=
  viewId ← match viewIds mp !! cam with
           | Some v => mret v
           | None => stop Undefined
           end;
  view ← match views sfmData !! viewId with
          | Some v => mret v
          | None => throw (out_of_range "map::at")
          end;
  intrinsicPtr ← match intrinsics sfmData !! getIntrinsicId view with
                  | Some i => mret i
                  | None => stop Undefined
                  end;
  pose ← match poses sfmData !! getPoseId view with
          | Some p => mret p
          | None => throw (out_of_range "map::at")
          end;
  mret (getViewId view,
        {| obs_x := project W intrinsicPtr pose pt3D true; (* apply distortion *)
           id_feat := UndefinedIndexT;
           scale := unknownScale |}).

(** [for(int cam : ptsCams[i]) landmark.observations[viewId] = observation;] *)
Fixpoint add_observations {E} (sfmData : SfMData) (mp : MultiViewParams)
    (pt3D : Vec3) (cams : list nat) (landmark : Landmark) : M E Landmark :=
  match cams with
  | [] => mret landmark
  | cam :: cams' =>
      '(viewId, observation) ← make_observation sfmData mp pt3D cam;
      add_observations sfmData mp pt3D cams'
        (set_observations landmark (<[viewId := observation]> (observations landmark)))
  end.

(** The loop over the vertices, from index [i] on.  [ptsCams[i]] is an
    unchecked access. *)
Fixpoint add_landmarks {E} (sfmData : SfMData) (mp : MultiViewParams)
    (ptsCams : list (list nat)) (i : nat) (vertices : list Point3d)
    (outSfmData : SfMData) : M E SfMData :=
  match vertices with
  | [] => mret outSfmData
  | point :: vertices' =>
      let pt3D : Vec3 := (x point, y point, z point) in
      let landmark :=
        {| X := pt3D; descType := UNKNOWN; observations := ∅;
           landmark_rgb := {| r := 255%N; g := 255%N; b := 255%N |} |} in
      cams ← match ptsCams !! i with
              | Some c => mret c
              | None => stop Undefined
              end;
      landmark ← add_observations sfmData mp pt3D cams landmark;
      add_landmarks sfmData mp ptsCams (S i) vertices'
        (set_landmarks outSfmData (<[to_IndexT i := landmark]> (landmarks outSfmData)))
  end.

Definition createDenseSfMData {E} (sfmData : SfMData) (mp : MultiViewParams)
    (vertices : list Point3d) (ptsCams : list (list nat)) : M E SfMData :=
  let outSfmData := set_landmarks sfmData ∅ in
  add_landmarks sfmData mp ptsCams 0 vertices outSfmData.

(** ** removeLandmarksWithoutObservations (lines 117-127) *)

Definition removeLandmarksWithoutObservations (sfmData : SfMData) : SfMData :=
  set_landmarks sfmData
    (filter (λ kv, observations kv.2 ≠ ∅) (landmarks sfmData)).

(** Modelled from the spec: [sfmData::colorizeTracks] (colorize.hpp) is
    missing; it gives every landmark a colour and changes nothing else. *)
Definition colorizeTracks (sfmData : SfMData) : SfMData :=
  set_landmarks sfmData
    (map_imap (λ k l, Some (set_rgb l (track_color W sfmData k))) (landmarks sfmData)).

(** ** aliceVision_main (lines 130-424) *)

Variable a : Args.

(** [v.empty()] *)
Definition empty {A} (v : list A) : bool :=
  match v with [] => true | _ => false end.

(** Lines 265-281: the values of [meshingFromDepthMaps] and
    [addLandmarksToTheDensePointCloud] after the check of the options. *)
Definition check_input_options : M Event (bool * bool) :=
  if bool_decide (depthMapsFolder a = EmptyString) then
    if bool_decide (depthMapsFolder a = EmptyString)
       && bool_decide (repartitionMode a = eRepartitionMultiResolution)
       && bool_decide (partitioningMode a = ePartitioningSingleBlock) then
      mret (false, true)
    else
      emit (LOG_ERROR "Invalid input options");;
      return_ EXIT_FAILURE
  else
    mret (true, addLandmarksToTheDensePointCloud a).

(** Lines 353-364. *)
Definition save_raw_dense_point_cloud (sfmData : SfMData) (mp : MultiViewParams)
    (outDirectory : string) (verticesCoords : list Point3d)
    (ptsCams : list (list nat)) : M Event unit :=
  emit (LOG_INFO "Save dense point cloud before cut and filtering.");;
  densePointCloud ← createDenseSfMData sfmData mp verticesCoords ptsCams;
  let densePointCloud := removeLandmarksWithoutObservations densePointCloud in
  let densePointCloud :=
    if colorizeOutput a then colorizeTracks densePointCloud else densePointCloud in
  emit (SaveSfMData (path_append outDirectory "densePointCloud_raw.abc") densePointCloud).

(** Lines 323-373: the single-block case, giving [mesh] and [ptsCams]. *)
Definition single_block (sfmData : SfMData) (mp : MultiViewParams)
    (outDirectory : string) (meshingFromDepthMaps addLandmarks : bool)
    : M Event (option Mesh * list (list nat)) :=
  emit (LOG_INFO "Meshing mode: multi-resolution, partitioning: single block.");;
  hexah ← (if meshingFromDepthMaps && negb (estimateSpaceFromSfM a) then
             emit DivideSpaceFromDepthMaps;;
             mret (divideSpaceFromDepthMaps W mp)
           else
             emit DivideSpaceFromSfM;;
             mret (divideSpaceFromSfM W mp sfmData (estimateSpaceMinObservations a)
                     (estimateSpaceMinObservationAngle a)));
  cams ← (if meshingFromDepthMaps then
            emit FindCamsWhichIntersectsHexahedron;;
            mret (findCamsWhichIntersectsHexahedron W mp hexah)
          else
            mret (seq 0 (getNbCameras mp)));
  (if empty cams then throw (logic_error "No camera to make the reconstruction")
   else mret tt);;
  emit (CreateDensePointCloud cams);;
  let '(verticesCoords, rawPtsCams) :=
    createDensePointCloud W mp hexah cams
      (if addLandmarks then Some sfmData else None)
      (if meshingFromDepthMaps then Some (fuseParams a) else None) in
  (if saveRawDensePointCloud a then
     save_raw_dense_point_cloud sfmData mp outDirectory verticesCoords rawPtsCams
   else mret tt);;
  emit ReconstructMesh;;
  mret (reconstructMesh W mp hexah cams verticesCoords).

(** Lines 313-383: the two switches. *)
Definition make_mesh (sfmData : SfMData) (mp : MultiViewParams)
    (outDirectory : string) (meshingFromDepthMaps addLandmarks : bool)
    : M Event (option Mesh * list (list nat)) :=
  match repartitionMode a with
  | eRepartitionMultiResolution =>
      match partitioningMode a with
      | ePartitioningAuto =>
          throw (invalid_argument
            "Meshing mode: 'multiResolution', partitioning: 'auto' is not yet implemented.")
      | ePartitioningSingleBlock =>
          single_block sfmData mp outDirectory meshingFromDepthMaps addLandmarks
      | ePartitioningUndefined =>
          throw (invalid_argument "Partitioning mode is not defined")
      end
  | eRepartitionUndefined =>
      throw (invalid_argument "Repartition mode is not defined")
  end.

(** Lines 403-410: the colour of every vertex, read with [landmarks.at(i)]. *)
Fixpoint vertex_colors (landmarks : gmap IndexT Landmark) (i n : nat)
    : M Event (list rgb) :=
  match n with
  | O => mret []
  | S n' =>
      c ← match landmarks !! to_IndexT i with
          | Some l => mret (landmark_rgb l)
          | None => throw (out_of_range "map::at")
          end;
      cs ← vertex_colors landmarks (S i) n';
      mret (c :: cs)
  end.

(** Lines 292-296: the multi-view parameters with the user parameters put in. *)
Definition make_mp (sfmData : SfMData) (meshingFromDepthMaps : bool) : MultiViewParams :=
  {| viewIds := mvs_viewIds W sfmData (depthMapsFolder a) meshingFromDepthMaps;
     userParams :=
       {| LargeScale_universePercentile := universePercentile a;
          delaunaycut_forceTEdgeDelta := forceTEdgeDelta a;
          delaunaycut_seed := seed a |} |}.

(** Lines 385-423: the output files. *)
Definition generate_output (sfmData : SfMData) (mp : MultiViewParams)
    (mesh : option Mesh) (ptsCams : list (list nat)) : M Event Z :=
  mesh ← match mesh with
         | Some m =>
             if empty (pts m) || empty (tris m) then
               throw (runtime_error "No valid mesh was generated.")
             else mret m
         | None => throw (runtime_error "No valid mesh was generated.")
         end;
  (if empty ptsCams then
     throw (runtime_error "Points visibilities data has not been initialized.")
   else mret tt);;
  densePointCloud ← createDenseSfMData sfmData mp (pts mesh) ptsCams;
  '(densePointCloud, mesh) ←
    (if colorizeOutput a then
       let densePointCloud := colorizeTracks densePointCloud in
       colors ← vertex_colors (landmarks densePointCloud) 0 (length (pts mesh));
       mret (densePointCloud, set_colors mesh colors)
     else mret (densePointCloud, mesh));
  let densePointCloud := removeLandmarksWithoutObservations densePointCloud in
  emit (LOG_INFO "Save dense point cloud.");;
  emit (SaveSfMData (outputDensePointCloud a) densePointCloud);;
  emit (LOG_INFO "Save obj mesh file.");;
  emit (SaveToObj (outputMesh a) mesh);;
  emit (LOG_INFO "Task done");;
  mret EXIT_SUCCESS.

Definition aliceVision_main : M Event Z :=
  '(meshingFromDepthMaps, addLandmarks) ← check_input_options;
  (* read the input SfM scene *)
  emit (LoadSfMData (sfmDataFilename a));;
  sfmData ← match sfmDataIO_Load W (sfmDataFilename a) with
            | Some d => mret d
            | None =>
                emit (LOG_ERROR ("The input SfMData file '" ++ sfmDataFilename a
                                   ++ "' cannot be read."));;
                return_ EXIT_FAILURE
            end;
  (* initialization *)
  let mp := make_mp sfmData meshingFromDepthMaps in
  let outDirectory := parent_path (outputMesh a) in
  (if negb (is_directory W outDirectory) then emit (CreateDirectory outDirectory)
   else mret tt);;
  emit (LOG_WARNING "repartitionMode");;
  emit (LOG_WARNING "partitioningMode");;
  '(mesh, ptsCams) ← make_mesh sfmData mp outDirectory meshingFromDepthMaps addLandmarks;
  generate_output sfmData mp mesh ptsCams.

(** ** The values a run computes on the single-block path *)

(** [meshingFromDepthMaps] *)
Definition from_depth_maps : bool := negb (bool_decide (depthMapsFolder a = EmptyString)).

(** [hexah] *)
Definition estimated_hexah (sfmData : SfMData) : Hexah :=
  let mp := make_mp sfmData from_depth_maps in
  if from_depth_maps && negb (estimateSpaceFromSfM a) then divideSpaceFromDepthMaps W mp
  else divideSpaceFromSfM W mp sfmData (estimateSpaceMinObservations a)
         (estimateSpaceMinObservationAngle a).

(** The cameras that intersect the estimated volume. *)
Definition intersecting_cams (sfmData : SfMData) : list nat :=
  findCamsWhichIntersectsHexahedron W (make_mp sfmData from_depth_maps)
    (estimated_hexah sfmData).

(** [cams] *)
Definition used_cams (sfmData : SfMData) : list nat :=
  if from_depth_maps then intersecting_cams sfmData
  else seq 0 (getNbCameras (make_mp sfmData from_depth_maps)).

(** [delaunayGC._verticesCoords] and the raw visibilities. *)
Definition raw_cloud (sfmData : SfMData) : list Point3d * list (list nat) :=
  createDensePointCloud W (make_mp sfmData from_depth_maps) (estimated_hexah sfmData)
    (used_cams sfmData)
    (if (if from_depth_maps then addLandmarksToTheDensePointCloud a else true)
     then Some sfmData else None)
    (if from_depth_maps then Some (fuseParams a) else None).

(** [mesh] and [ptsCams] after the post-processing. *)
Definition final_mesh (sfmData : SfMData) : option Mesh * list (list nat) :=
  reconstructMesh W (make_mp sfmData from_depth_maps) (estimated_hexah sfmData)
    (used_cams sfmData) (raw_cloud sfmData).1.

(** The view, intrinsic and pose that [createDenseSfMData] finds for a
    camera index. *)
Definition camera_view (sfmData : SfMData) (mp : MultiViewParams) (cam : nat)
    : option (View * IntrinsicBase * Pose) :=
  viewId ← viewIds mp !! cam;
  view ← views sfmData !! viewId;
  intrinsic ← intrinsics sfmData !! getIntrinsicId view;
  pose ← poses sfmData !! getPoseId view;
  Some (view, intrinsic, pose).

(** The observation of a point in a view: the projection with the
    distortion applied, no feature, unknown scale. *)
Definition reprojection (vip : View * IntrinsicBase * Pose) (pt3D : Vec3) : Observation :=
  {| obs_x := project W vip.1.2 vip.2 pt3D true;
     id_feat := UndefinedIndexT;
     scale := unknownScale |}.

(** Every camera of the visibilities of the first [n] points is a camera
    of the dataset, and there are visibilities for [n] points. *)
Definition visibilities_ok (sfmData : SfMData) (mp : MultiViewParams)
    (n : nat) (ptsCams : list (list nat)) : Prop :=
  (n ≤ length ptsCams)%nat
  ∧ (N.of_nat n <= 2 ^ 32)%N
  ∧ Forall (Forall (λ cam, is_Some (camera_view sfmData mp cam))) (take n ptsCams).

End Driver.

(** The dataset and mesh files a run wrote, in order. *)
Definition files_written (t : list Event) : list string :=
  omap (λ e, match e with
             | SaveSfMData p _ => Some p
             | SaveToObj p _ => Some p
             | _ => None
             end) t.

(** The run estimated the bounding volume. *)
Definition estimates_space (t : list Event) : Prop :=
  In DivideSpaceFromDepthMaps t ∨ In DivideSpaceFromSfM t.

(** [mesh == nullptr || mesh->pts.empty() || mesh->tris.empty()] *)
Definition no_valid_mesh (mesh : option Mesh) : Prop :=
  match mesh with
  | None => True
  | Some m => pts m = [] ∨ tris m = []
  end.

(** The keys of the views are their view ids. *)
Definition views_consistent (sfmData : SfMData) : Prop :=
  map_Forall (λ k view, getViewId view = k) (views sfmData).

(** The id of the view of a camera index. *)
Definition camera_view_id (sfmData : SfMData) (mp : MultiViewParams) (cam : nat) : IndexT :=
  match camera_view sfmData mp cam with
  | Some vip => getViewId vip.1.1
  | None => UndefinedIndexT
  end.

(** The list names every camera once, and its cameras have different
    views. *)
Definition distinct_cameras (sfmData : SfMData) (mp : MultiViewParams)
    (cams : list nat) : Prop :=
  NoDup (camera_view_id sfmData mp <$> cams).

(** [obs] holds the observations of the point [pt3D] in the cameras
    [cams] and nothing else: one observation for every camera of [cams],
    under the id of its view, and every observation is that of a camera
    of [cams]. *)
Definition observed_by (W : World) (sfmData : SfMData) (mp : MultiViewParams)
    (pt3D : Vec3) (cams : list nat) (obs : gmap IndexT Observation) : Prop :=
  (∀ cam, cam ∈ cams →
     ∃ vip, camera_view sfmData mp cam = Some vip
            ∧ obs !! getViewId vip.1.1 = Some (reprojection W vip pt3D))
  ∧ (∀ viewId o, obs !! viewId = Some o →
       ∃ cam vip, cam ∈ cams ∧ camera_view sfmData mp cam = Some vip
                  ∧ getViewId vip.1.1 = viewId ∧ o = reprojection W vip pt3D).

(** What [createDenseSfMData] stores for the vertex [point] at index [i]:
    a landmark at the position of the vertex, with the observations of
    the cameras of [ptsCams[i]]. *)
Definition stored (W : World) (sfmData : SfMData) (mp : MultiViewParams)
    (ptsCams : list (list nat)) (landmarks : gmap IndexT Landmark)
    (i : nat) (point : Point3d) : Prop :=
  ∀ cams, ptsCams !! i = Some cams →
    ∃ landmark,
      landmarks !! to_IndexT i = Some landmark
      ∧ X landmark = (x point, y point, z point)
      ∧ (cams = [] → observations landmark = ∅)
      ∧ (cams ≠ [] → observations landmark ≠ ∅)
      ∧ observed_by W sfmData mp (X landmark) cams (observations landmark).

(** The run gets to the reconstruction of the mesh from the dataset
    [sfmData]: the options and the modes are accepted, the dataset is
    read, there is a camera to use, and the raw dense point cloud, when
    asked for, can be made. *)
Definition reconstructs (W : World) (a : Args) (sfmData : SfMData) : Prop :=
  repartitionMode a = eRepartitionMultiResolution
  ∧ partitioningMode a = ePartitioningSingleBlock
  ∧ sfmDataIO_Load W (sfmDataFilename a) = Some sfmData
  ∧ used_cams W a sfmData ≠ []
  ∧ (saveRawDensePointCloud a = true →
     visibilities_ok sfmData (make_mp W a sfmData (from_depth_maps a))
       (length (raw_cloud W a sfmData).1) (raw_cloud W a sfmData).2).

(** The options the driver accepts for a single-block reconstruction. *)
Definition modes_accepted (a : Args) : Prop :=
  repartitionMode a = eRepartitionMultiResolution
  ∧ partitioningMode a = ePartitioningSingleBlock.

#[global] Instance views_consistent_dec sfmData : Decision (views_consistent sfmData).
Proof. unfold views_consistent. apply _. Defined.

#[global] Instance visibilities_ok_dec sfmData mp n ptsCams :
  Decision (visibilities_ok sfmData mp n ptsCams).
Proof. unfold visibilities_ok. apply _. Defined.

(** The computation never throws [std::logic_error]. *)
Definition no_logic_error {E A} (m : M E A) : Prop :=
  ∀ what, m.2 ≠ inl (Throw (logic_error what)).

(** ** Vocabulary of the further properties *)

(** The computation emits no event and, if it stops the run, it does not
    do so by returning a status. *)
Definition quiet {E A} (m : M E A) : Prop :=
  m.1 = [] ∧ ∀ status, m.2 ≠ inl (Exit status).

(** Where the raw dense point cloud goes. *)
Definition raw_path (a : Args) : string :=
  path_append (parent_path (outputMesh a)) "densePointCloud_raw.abc".


(** What the options of a run allow an event to be. *)
Definition event_allowed (W : World) (a : Args) (e : Event) : Prop :=
  match e with
  | LoadSfMData p => p = sfmDataFilename a
  | CreateDirectory p => p = parent_path (outputMesh a) ∧ is_directory W p = false
  | DivideSpaceFromDepthMaps =>
      modes_accepted a ∧ depthMapsFolder a ≠ EmptyString ∧ estimateSpaceFromSfM a = false
  | DivideSpaceFromSfM =>
      modes_accepted a ∧ (depthMapsFolder a = EmptyString ∨ estimateSpaceFromSfM a = true)
  | FindCamsWhichIntersectsHexahedron =>
      modes_accepted a ∧ depthMapsFolder a ≠ EmptyString
  | CreateDensePointCloud cams => modes_accepted a ∧ cams ≠ []
  | ReconstructMesh => modes_accepted a
  | SaveSfMData p _ =>
      (p = raw_path a ∧ saveRawDensePointCloud a = true) ∨ p = outputDensePointCloud a
  | SaveToObj p _ => p = outputMesh a
  | _ => True
  end.

(** Every camera named in the visibilities is a camera of the dataset. *)
Definition cameras_resolve (sfmData : SfMData) (mp : MultiViewParams)
    (ptsCams : list (list nat)) : Prop :=
  Forall (Forall (λ cam, is_Some (camera_view sfmData mp cam))) ptsCams.

#[global] Instance cameras_resolve_dec sfmData mp ptsCams :
  Decision (cameras_resolve sfmData mp ptsCams).
Proof. unfold cameras_resolve. apply _. Defined.

End Meshing.

(** ** A small scene: two cameras, three points *)

Module MeshingExample.
Import Meshing.

Definition view (id : IndexT) : View :=
  {| getViewId := id; getIntrinsicId := 0%N; getPoseId := id |}.

Definition scene : SfMData :=
  {| views := {[ 10%N := view 10%N; 11%N := view 11%N ]};
     intrinsics := {[ 0%N := {| intrinsic_params := [800%N] |} ]};
     poses := {[ 10%N := {| transform := [7%N] |}; 11%N := {| transform := [8%N] |} ]};
     landmarks := ∅ |}.

Definition p0 : Point3d := {| x := 1%N; y := 2%N; z := 3%N |}.
Definition p1 : Point3d := {| x := 4%N; y := 5%N; z := 6%N |}.
Definition p2 : Point3d := {| x := 7%N; y := 8%N; z := 9%N |}.

(** One triangle; the third vertex is seen by no camera. *)
Definition triangle : Mesh :=
  {| pts := [p0; p1; p2]; tris := [(0, 1, 2)%nat]; colors := [] |}.
Definition visibilities : list (list nat) := [[0; 1]; [1]; []]%nat.

(** The cameras [cams] intersect the estimated volume and the
    reconstruction gives [mesh]. *)
Definition world (cams : list nat) (mesh : option Mesh) : World :=
  {| sfmDataIO_Load := λ _, Some scene;
     mvs_viewIds := λ _ _ _, [10%N; 11%N];
     is_directory := λ _, false;
     divideSpaceFromDepthMaps := λ _, [];
     divideSpaceFromSfM := λ _ _ _ _, [];
     findCamsWhichIntersectsHexahedron := λ _ _, cams;
     createDensePointCloud := λ _ _ _ _ _, ([p0; p1; p2], visibilities);
     reconstructMesh := λ _ _ _ _, (mesh, visibilities);
     project := λ _ pose _ distort,
       (hd 0%N (transform pose), if distort then 1%N else 0%N);
     track_color := λ _ _, {| r := 9%N; g := 9%N; b := 9%N |} |}.

Definition args (depthMapsFolder : string) (partitioning : EPartitioningMode)
    (saveRaw colorize : bool) : Args :=
  {| sfmDataFilename := "cameras.sfm";
     outputMesh := "out/mesh.obj";
     outputDensePointCloud := "out/densePointCloud.abc";
     depthMapsFolder := depthMapsFolder;
     partitioningMode := partitioning;
     repartitionMode := eRepartitionMultiResolution;
     estimateSpaceMinObservations := 3%N;
     estimateSpaceMinObservationAngle := 0%N;
     universePercentile := 0%N;
     maxPtsPerVoxel := 6000000;
     estimateSpaceFromSfM := true;
     addLandmarksToTheDensePointCloud := false;
     saveRawDensePointCloud := saveRaw;
     colorizeOutput := colorize;
     forceTEdgeDelta := 0%N;
     seed := 0%N;
     fuseParams := {| maxInputPoints := 50000000; maxPoints := 5000000;
                      minStep := 2; refineFuse := true |} |}.

(** The reconstruction gives [mesh] with the visibilities [ptsCams]. *)
Definition world_with (mesh : option Mesh) (ptsCams : list (list nat)) : World :=
  {| sfmDataIO_Load := λ _, Some scene;
     mvs_viewIds := λ _ _ _, [10%N; 11%N];
     is_directory := λ _, false;
     divideSpaceFromDepthMaps := λ _, [];
     divideSpaceFromSfM := λ _ _ _ _, [];
     findCamsWhichIntersectsHexahedron := λ _ _, [0; 1]%nat;
     createDensePointCloud := λ _ _ _ _ _, ([p0; p1; p2], visibilities);
     reconstructMesh := λ _ _ _ _, (mesh, ptsCams);
     project := λ _ pose _ distort,
       (hd 0%N (transform pose), if distort then 1%N else 0%N);
     track_color := λ _ _, {| r := 9%N; g := 9%N; b := 9%N |} |}.

(** The dataset cannot be read. *)
Definition world_unreadable : World :=
  {| sfmDataIO_Load := λ _, None;
     mvs_viewIds := λ _ _ _, [10%N; 11%N];
     is_directory := λ _, false;
     divideSpaceFromDepthMaps := λ _, [];
     divideSpaceFromSfM := λ _ _ _ _, [];
     findCamsWhichIntersectsHexahedron := λ _ _, [0; 1]%nat;
     createDensePointCloud := λ _ _ _ _ _, ([p0; p1; p2], visibilities);
     reconstructMesh := λ _ _ _ _, (Some triangle, visibilities);
     project := λ _ pose _ distort,
       (hd 0%N (transform pose), if distort then 1%N else 0%N);
     track_color := λ _ _, {| r := 9%N; g := 9%N; b := 9%N |} |}.

(** The multi-view parameters of the scene. *)
Definition cameras : MultiViewParams :=
  {| viewIds := [10%N; 11%N];
     userParams := {| LargeScale_universePercentile := 0%N;
                      delaunaycut_forceTEdgeDelta := 0%N;
                      delaunaycut_seed := 0%N |} |}.

(** A dataset that has landmarks already, one of them without observation. *)
Definition sparse_scene : SfMData :=
  {| views := views scene; intrinsics := intrinsics scene; poses := poses scene;
     landmarks :=
       {[ 70%N := {| X := (1%N, 1%N, 1%N); descType := SIFT;
                     observations := {[ 10%N := {| obs_x := (3%N, 4%N); id_feat := 0%N;
                                                   scale := 0%N |} ]};
                     landmark_rgb := {| r := 0%N; g := 0%N; b := 0%N |} |};
          71%N := {| X := (2%N, 2%N, 2%N); descType := SIFT; observations := ∅;
                     landmark_rgb := {| r := 0%N; g := 0%N; b := 0%N |} |} ]} |}.

End MeshingExample.

(** * Facts about the integers, the monad and the byte strings *)

Section MachineIntFacts.
Import MachineInt.

Lemma wrap_int_id z : is_int z -> wrap_int z = z.
Proof.
  unfold is_int, wrap_int, INT_MIN, INT_MAX. intros Hz.
  rewrite Z.mod_small; lia.
Qed.

Lemma to_size_t_id z : 0 <= z <= SIZE_MAX -> to_size_t z = z.
Proof.
  unfold to_size_t, SIZE_MAX. intros Hz. rewrite Z.mod_small; lia.
Qed.

End MachineIntFacts.

(** Linear arithmetic over the conversions between [int] and [size_t]. *)
Ltac int_arith :=
  unfold MachineInt.wrap_int, MachineInt.to_size_t, MachineInt.is_int,
    MachineInt.INT_MAX, MachineInt.INT_MIN, MachineInt.SIZE_MAX in *;
  change (2 ^ 31) with 2147483648 in *;
  change (2 ^ 32) with 4294967296 in *;
  change (2 ^ 64) with 18446744073709551616 in *;
  intros; Z.div_mod_to_equations; lia.

Section MonadFacts.

Lemma bind_stop {E A B} (t : list E) (o : Outcome) (f : A → M E B) :
((t, inl o) : M E A) ≫= f = (t, inl o).
Proof. reflexivity. Qed.

Lemma bind_go {E A B} (t : list E) (a : A) (f : A → M E B) :
((t, inr a) : M E A) ≫= f = (t ++ (f a).1, (f a).2).
Proof. reflexivity. Qed.

Lemma bind_ret {E A B} (a : A) (f : A → M E B) : mret a ≫= f = f a.
Proof. unfold mret, M_ret, mbind, M_bind. simpl. by destruct (f a). Qed.

Lemma bind_pure {E A B} (a : A) (f : A → M E B) :
  (([], inr a) : M E A) ≫= f = f a.
Proof. apply bind_ret. Qed.

Lemma bind_emit {E B} (e : E) (f : unit → M E B) :
emit e ≫= f = (e :: (f tt).1, (f tt).2).
Proof. reflexivity. Qed.

Lemma bind_emit_prepend {E B} (e : E) (f : unit → M E B) :
  emit e ≫= f = prepend [e] (f tt).
Proof. reflexivity. Qed.

Lemma bind_value_prepend {E A B} (t : list E) (a : A) (f : A → M E B) :
  ((t, inr a) : M E A) ≫= f = prepend t (f a).
Proof. reflexivity. Qed.

Lemma prepend_bind {E A B} (t : list E) (m : M E A) (f : A → M E B) :
  prepend t m ≫= f = prepend t (m ≫= f).
Proof.
  destruct m as [t' [o|x]]; unfold mbind, M_bind, prepend; cbn [fst snd]; [done|].
  by rewrite app_assoc.
Qed.

Lemma prepend_pair {E A} (t t' : list E) (r : Outcome + A) :
  prepend t ((t', r) : M E A) = (t ++ t', r).
Proof. reflexivity. Qed.

Lemma prepend_ret {E A} (t : list E) (x : A) :
  prepend t (mret x : M E A) = (t, inr x).
Proof. unfold prepend, mret, M_ret. cbn [fst snd]. by rewrite app_nil_r. Qed.

Lemma prepend_stop {E A} (t : list E) (o : Outcome) :
  prepend t (stop o : M E A) = (t, inl o).
Proof. unfold prepend, stop. cbn [fst snd]. by rewrite app_nil_r. Qed.

Lemma prepend_prepend {E A} (t t' : list E) (m : M E A) :
  prepend t (prepend t' m) = prepend (t ++ t') m.
Proof. unfold prepend. cbn [fst snd]. by rewrite app_assoc. Qed.

Lemma bind_trace_Forall {E A B} (P : E → Prop) (m : M E A) (f : A → M E B) :
  Forall P m.1 → (∀ x, Forall P (f x).1) → Forall P (m ≫= f).1.
Proof.
  intros Hm Hf. destruct m as [t [o|x]]; simpl; [done|].
  apply Forall_app; split; [done | apply Hf].
Qed.

Lemma emit_trace_Forall {E} (P : E → Prop) (e : E) : P e → Forall P (emit e).1.
Proof. intros He. by repeat constructor. Qed.

End MonadFacts.

(** Runs the binds whose left side is known. *)
Ltac mnorm :=
  repeat first
    [ rewrite bind_ret | rewrite bind_pure | rewrite bind_emit_prepend
    | rewrite bind_value_prepend | rewrite prepend_bind | rewrite bind_stop
    | progress cbv beta iota ].

(** Gathers the events emitted so far. *)
Ltac mgather :=
  repeat first
    [ rewrite prepend_prepend | rewrite prepend_ret | rewrite prepend_stop
    | rewrite prepend_pair ];
  cbn [app].

Section BytesFacts.
Import Bytes.

Lemma to_N_byte_of_N n : (n < 256)%N -> Byte.to_N (byte_of_N n) = n.
Proof.
  intros Hn. unfold byte_of_N.
  destruct (Byte.of_N n) as [b|] eqn:Hb.
  - by apply Byte.to_of_N.
  - apply Byte.of_N_None_iff in Hb. lia.
Qed.

Lemma length_le_bytes w n : length (le_bytes w n) = w.
Proof. revert n. induction w as [|w IH]; intros n; simpl; [done|]. by rewrite IH. Qed.

Lemma le_value_le_bytes w n :
  (n < 256 ^ N.of_nat w)%N -> le_value (le_bytes w n) = n.
Proof.
  revert n. induction w as [|w IH]; intros n Hn.
  - simpl in *. lia.
  - cbn [le_bytes le_value].
    rewrite to_N_byte_of_N by (apply N.mod_lt; lia).
    rewrite IH.
    + pose proof (N.div_mod n 256). lia.
    + rewrite Nat2N.inj_succ, N.pow_succ_r' in Hn.
      apply N.Div0.div_lt_upper_bound. lia.
Qed.

End BytesFacts.

(** * The samples file: writing then reading *)

Section SamplesFile.
Import Bytes LdrToHdrSampling.

Lemma get_bytes_app (n : nat) (bs rest : list byte) :
  length bs = n → get_bytes n (bs ++ rest) = Some (bs, rest).
Proof.
  intros <-. unfold get_bytes.
  rewrite bool_decide_true by (rewrite length_app; lia).
  by rewrite take_app_length, drop_app_length.
Qed.

Lemma get_size_t_put (n : N) (rest : list byte) :
  is_size_t n → get_size_t (put_size_t n ++ rest) = Some (n, rest).
Proof.
  intros Hn. unfold get_size_t, put_size_t.
  rewrite get_bytes_app by apply length_le_bytes.
  change (Some (le_value (le_bytes 8 n), rest) = Some (n, rest)).
  by rewrite le_value_le_bytes.
Qed.

Lemma get_float_put (f : float) (rest : list byte) :
  is_float f → get_float (put_float f ++ rest) = Some (f, rest).
Proof.
  intros Hf. unfold get_float, put_float.
  rewrite get_bytes_app by apply length_le_bytes.
  change (Some (le_value (le_bytes 4 f), rest) = Some (f, rest)).
  by rewrite le_value_le_bytes.
Qed.

Lemma get_description_put (d : PixelDescription) (rest : list byte) :
  description_ok d → get_description (put_description d ++ rest) = Some (d, rest).
Proof.
  destruct d as [e [[mr mg] mb] [[vr vg] vb]].
  intros (He & Hmr & Hmg & Hmb & Hvr & Hvg & Hvb).
  unfold get_description, put_description. cbn [exposure mean variance].
  rewrite <- !app_assoc.
  do 7 (rewrite get_float_put by done; cbn [mbind option_bind]).
  done.
Qed.

(** Reading back what a list of records was written as. *)
Lemma get_many_put {A} (ok : A → Prop) (put : A → list byte)
    (get : list byte → option (A * list byte)) :
  (∀ a rest, ok a → get (put a ++ rest) = Some (a, rest)) →
  ∀ (l : list A) (rest : list byte),
    Forall ok l →
    get_many get (length l) (concat (put <$> l) ++ rest) = Some (l, rest).
Proof.
  intros Hget l. induction l as [|a l IH]; intros rest Hl; [done|].
  inversion_clear Hl as [|? ? Ha Hl'].
  cbn [length fmap list_fmap concat get_many].
  rewrite <- app_assoc, (Hget _ _ Ha). simpl.
  rewrite (IH _ Hl'). done.
Qed.

Lemma get_sample_put (s : ImageSample) (rest : list byte) :
  sample_ok s → get_sample (put_sample s ++ rest) = Some (s, rest).
Proof.
  destruct s as [sx sy ds]. intros (Hx & Hy & Hn & Hds).
  unfold get_sample, put_sample. cbn [x y descriptions].
  rewrite <- !app_assoc.
  do 3 (rewrite get_size_t_put by done; cbn [mbind option_bind]).
  rewrite Nat2N.id.
  rewrite (get_many_put description_ok) by (done || apply get_description_put).
  done.
Qed.

Lemma read_samples_file_put (out_samples : list ImageSample) :
  samples_ok out_samples →
  read_samples_file (samples_file out_samples) = Some out_samples.
Proof.
  intros [Hn Hl]. unfold read_samples_file, samples_file.
  rewrite get_size_t_put by done. cbn [mbind option_bind]. rewrite Nat2N.id.
  rewrite <- (app_nil_r (concat _)).
  rewrite (get_many_put sample_ok) by (done || apply get_sample_put).
  done.
Qed.

End SamplesFile.

(** * The sampling driver *)

Section SamplingDriver.
Import MachineInt LdrToHdrSampling.

Variable W : World.
Variable a : Args.

(** ** The check of the group sizes *)

Lemma sizeOfGroups_brackets (groupedViews : list (list View)) (n : nat) :
  brackets groupedViews n →
  list_to_set (length <$> groupedViews) =@{gset nat} {[ n ]}.
Proof.
  intros [Hne Hall]. apply set_eq. intros k.
  rewrite elem_of_list_to_set, list_elem_of_fmap, elem_of_singleton.
  rewrite Forall_forall in Hall. split.
  - intros (g & -> & Hg). by apply Hall.
  - intros ->. destruct groupedViews as [|g gs]; [done|].
    exists g. split; [symmetry; apply Hall|]; by left.
Qed.

Lemma check_groups_single (groupedViews : list (list View)) :
  brackets groupedViews 1 →
  check_groups groupedViews
  = ([LOG_INFO "No multi-bracketing."], inl (Exit EXIT_SUCCESS)).
Proof.
  intros Hb. unfold check_groups.
  rewrite (sizeOfGroups_brackets _ _ Hb), size_singleton, elements_singleton.
  done.
Qed.

Lemma check_groups_multi (groupedViews : list (list View)) (n : nat) :
  brackets groupedViews n → n ≠ 1%nat →
  ∃ msg, check_groups groupedViews = ([LOG_INFO msg], inr tt).
Proof.
  intros Hb Hn. unfold check_groups.
  rewrite (sizeOfGroups_brackets _ _ Hb), size_singleton, elements_singleton.
  rewrite bool_decide_true by done. simpl.
  rewrite bool_decide_false by done. eauto.
Qed.

Lemma check_groups_inconsistent (groupedViews : list (list View)) (g1 g2 : list View) :
  g1 ∈ groupedViews → g2 ∈ groupedViews → length g1 ≠ length g2 →
  check_groups groupedViews
  = ([LOG_ERROR "Exposure groups do not have a consistent number of brackets."],
     inl (Exit EXIT_FAILURE)).
Proof.
  intros H1 H2 Hne. unfold check_groups.
  rewrite bool_decide_false; [done|].
  intros Hsize. apply Hne.
  apply (size_singleton_inv _ _ _ Hsize);
    apply elem_of_list_to_set, list_elem_of_fmap; eauto.
Qed.

(** ** Up to the grouping *)

Lemma main_grouped (intrinsic : IntrinsicBase) (groupedViews : list (list View)) :
  grouped W a intrinsic groupedViews →
  aliceVision_main W a
  = (check_groups groupedViews;;
     process_range W a groupedViews (w intrinsic) (h intrinsic)
       (2 ^ channelQuantizationPower a)).
Proof.
  intros (sfmData & Hload & Hintr & Hgroups). unfold aliceVision_main.
  rewrite Hload, bind_ret, Hintr. simpl length.
  rewrite bool_decide_false by lia.
  rewrite !bind_ret, Hgroups, bind_ret. done.
Qed.

(** ** The range *)

Lemma define_range_selected (groupedViews : list (list View)) (l : list nat) :
  is_int (rangeStart a) → is_int (rangeSize a) →
  Z.of_nat (length groupedViews) <= INT_MAX →
  selected_groups a (length groupedViews) = Some l →
  ∃ rangeStart' rangeSize',
    define_range a groupedViews = ([], inr (rangeStart', rangeSize'))
    ∧ l = seq (Z.to_nat (to_size_t rangeStart'))
              (Z.to_nat (to_size_t (wrap_int (rangeStart' + rangeSize'))
                         - to_size_t rangeStart'))
    ∧ (Z.to_nat (to_size_t rangeStart')
       + Z.to_nat (to_size_t (wrap_int (rangeStart' + rangeSize'))
                   - to_size_t rangeStart')
       ≤ length groupedViews)%nat.
Proof.
  intros Hs Hz Hn. unfold selected_groups, define_range.
  set (n := Z.of_nat (length groupedViews)) in *.
  assert (Hn' : Z.to_nat n = length groupedViews) by (subst n; lia).
  case_bool_decide as Hdef.
  - (* the default: every group *)
    intros [= <-]. rewrite bool_decide_false by lia.
    exists 0, (wrap_int n). split; [done|].
    rewrite (wrap_int_id n) by int_arith.
    rewrite Z.add_0_l, (wrap_int_id n), (to_size_t_id 0), (to_size_t_id n) by int_arith.
    rewrite Z.sub_0_r, Hn'. split; [done | simpl; lia].
  - rewrite (bool_decide_true (_ ≠ _)) by done.
    case_bool_decide as Hstart; [|done]. case_bool_decide as Hsize; [|done].
    simpl. intros [= <-].
    rewrite (to_size_t_id (rangeStart a)) by int_arith.
    rewrite !bool_decide_false by lia. simpl.
    case_bool_decide as Hclamp.
    + (* the range overshoots and is clamped *)
      eexists _, _. split; [done|].
      assert (Hmin : Z.min (rangeSize a) (n - rangeStart a) = n - rangeStart a).
      { apply Z.min_r. revert Hclamp. int_arith. }
      rewrite Hmin.
      rewrite (to_size_t_id (n - rangeStart a)), (wrap_int_id (n - rangeStart a)) by int_arith.
      replace (rangeStart a + (n - rangeStart a)) with n by lia.
      rewrite (wrap_int_id n), (to_size_t_id n) by int_arith.
      rewrite !(to_size_t_id (rangeStart a)) by int_arith.
      split; [done | lia].
    + eexists _, _. split; [done|].
      assert (Hsum : to_size_t (wrap_int (rangeStart a + rangeSize a))
                     = rangeStart a + rangeSize a).
      { revert Hclamp. int_arith. }
      rewrite Hsum in *. rewrite !(to_size_t_id (rangeStart a)) by int_arith.
      replace (rangeStart a + rangeSize a - rangeStart a) with (rangeSize a) by lia.
      rewrite Z.min_l by lia. split; [done | lia].
Qed.

Lemma define_range_rejected (groupedViews : list (list View)) :
  is_int (rangeStart a) → is_int (rangeSize a) →
  Z.of_nat (length groupedViews) <= INT_MAX →
  selected_groups a (length groupedViews) = None →
  define_range a groupedViews
  = ([LOG_ERROR "Range is incorrect"], inl (Exit EXIT_FAILURE)).
Proof.
  intros Hs Hz Hn. unfold selected_groups, define_range.
  case_bool_decide as Hdef; [done|].
  rewrite (bool_decide_true (_ ≠ _)) by done.
  destruct (bool_decide (rangeStart a < 0)) eqn:Hneg; [done|].
  destruct (bool_decide (rangeSize a < 0)) eqn:Hnegs; [done|].
  apply bool_decide_eq_false in Hneg, Hnegs.
  rewrite (to_size_t_id (rangeStart a)) by int_arith.
  destruct (bool_decide (rangeStart a > _)) eqn:Hgt; [done|].
  apply bool_decide_eq_false in Hgt.
  rewrite !bool_decide_true by lia. done.
Qed.

(** ** The loop *)

Lemma process_group_opens (groupedViews : list (list View)) (width height : N)
    (groupIdx : nat) :
  (∀ p, ofstream_is_open W p = true) →
  (groupIdx < length groupedViews)%nat →
  process_group W a groupedViews width height (2 ^ channelQuantizationPower a) groupIdx
  = (group_events W a groupedViews width height groupIdx, inr tt).
Proof.
  intros Hopen Hidx.
  destruct (lookup_lt_is_Some_2 groupedViews groupIdx Hidx) as [g Hg].
  unfold process_group, group_events, extracted.
  rewrite Hg, bind_ret. simpl default.
  destruct (extractSamplesFromImages _ _ _ _ _ _ _) as [res out_samples].
  rewrite Hopen. by destruct res.
Qed.

Lemma process_groups_opens (groupedViews : list (list View)) (width height : N)
    (n groupIdx : nat) :
  (∀ p, ofstream_is_open W p = true) →
  (groupIdx + n ≤ length groupedViews)%nat →
  process_groups W a groupedViews width height (2 ^ channelQuantizationPower a) n groupIdx
  = (concat (group_events W a groupedViews width height <$> seq groupIdx n), inr tt).
Proof.
  intros Hopen. revert groupIdx.
  induction n as [|n IH]; intros groupIdx Hle; [done|].
  cbn [process_groups seq fmap list_fmap concat].
  rewrite process_group_opens by (done || lia).
  rewrite bind_go, IH by lia. done.
Qed.

Lemma groups_processed_events (groupedViews : list (list View)) (width height : N)
    (l : list nat) :
  groups_processed (concat (group_events W a groupedViews width height <$> l)) = l.
Proof.
  induction l as [|i l IH]; [done|].
  cbn [fmap list_fmap concat]. unfold groups_processed in *.
  rewrite omap_app, IH. unfold group_events. by destruct (extracted _ _ _ _ _ _).1.
Qed.

Lemma files_written_events (groupedViews : list (list View)) (width height : N)
    (l : list nat) :
  files_written (concat (group_events W a groupedViews width height <$> l))
  = samplesFilepath (outputFolder a) <$> l.
Proof.
  induction l as [|i l IH]; [done|].
  cbn [fmap list_fmap concat]. unfold files_written in *.
  rewrite omap_app, IH. unfold group_events. by destruct (extracted _ _ _ _ _ _).1.
Qed.

(** ** A run that reaches the range *)

Lemma run_selected (intrinsic : IntrinsicBase) (groupedViews : list (list View))
    (nb : nat) (l : list nat) :
  grouped W a intrinsic groupedViews →
  brackets groupedViews nb → nb ≠ 1%nat →
  is_int (rangeStart a) → is_int (rangeSize a) →
  Z.of_nat (length groupedViews) <= INT_MAX →
  (∀ p, ofstream_is_open W p = true) →
  selected_groups a (length groupedViews) = Some l →
  ∃ msg,
    run (aliceVision_main W a)
    = (LOG_INFO msg :: LOG_DEBUG "Range to compute"
         :: concat (group_events W a groupedViews (w intrinsic) (h intrinsic) <$> l),
       Exit EXIT_SUCCESS).
Proof.
  intros Hg Hb Hnb Hs Hz Hn Hopen Hsel.
  destruct (check_groups_multi _ _ Hb Hnb) as [msg Hcheck].
  destruct (define_range_selected _ _ Hs Hz Hn Hsel) as (rs & rz & Hrange & -> & Hle).
  exists msg. rewrite (main_grouped _ _ Hg), Hcheck, bind_go.
  unfold process_range. rewrite Hrange, bind_go. cbn [fst snd app].
  rewrite bind_emit, process_groups_opens by done.
  rewrite bind_go. unfold run. cbn [fst snd mret M_ret]. by rewrite app_nil_r.
Qed.

Lemma run_rejected (intrinsic : IntrinsicBase) (groupedViews : list (list View))
    (nb : nat) :
  grouped W a intrinsic groupedViews →
  brackets groupedViews nb → nb ≠ 1%nat →
  is_int (rangeStart a) → is_int (rangeSize a) →
  Z.of_nat (length groupedViews) <= INT_MAX →
  selected_groups a (length groupedViews) = None →
  ∃ msg,
    run (aliceVision_main W a)
    = ([LOG_INFO msg; LOG_ERROR "Range is incorrect"], Exit EXIT_FAILURE).
Proof.
  intros Hg Hb Hnb Hs Hz Hn Hsel.
  destruct (check_groups_multi _ _ Hb Hnb) as [msg Hcheck].
  exists msg. rewrite (main_grouped _ _ Hg), Hcheck, bind_go.
  unfold process_range. rewrite (define_range_rejected _ Hs Hz Hn Hsel). done.
Qed.

End SamplingDriver.
(** * The loop over the groups, file by file *)

Section SamplingLoop.
Import MachineInt LdrToHdrSampling.

Variable W : World.
Variable a : Args.

(** One turn of the loop: an index out of the groups, a file that opens,
    or a file that does not. *)
Lemma process_group_cases (groupedViews : list (list View)) (width height : N)
    (channelQuantization : Z) (groupIdx : nat) :
  ((length groupedViews ≤ groupIdx)%nat
   ∧ process_group W a groupedViews width height channelQuantization groupIdx
     = ([], inl Undefined))
  ∨ ((groupIdx < length groupedViews)%nat
     ∧ ofstream_is_open W (samplesFilepath (outputFolder a) groupIdx) = true
     ∧ ∃ T, process_group W a groupedViews width height channelQuantization groupIdx
            = (T, inr tt)
            ∧ groups_processed T = [groupIdx]
            ∧ files_written T = [samplesFilepath (outputFolder a) groupIdx])
  ∨ ((groupIdx < length groupedViews)%nat
     ∧ ofstream_is_open W (samplesFilepath (outputFolder a) groupIdx) = false
     ∧ ∃ T, process_group W a groupedViews width height channelQuantization groupIdx
            = (T, inl (Exit EXIT_FAILURE))
            ∧ groups_processed T = [groupIdx]
            ∧ files_written T = []).
Proof.
  unfold process_group.
  destruct (groupedViews !! groupIdx) as [group|] eqn:Hgroup.
  - apply lookup_lt_Some in Hgroup. right. rewrite bind_ret.
    destruct (extractSamplesFromImages _ _ _ _ _ _ _) as [res out_samples].
    destruct (ofstream_is_open W _) eqn:Hopen; [left | right];
      (split; [done|]); (split; [done|]);
      destruct res; cbn; eexists; (split; [reflexivity|]); done.
  - apply lookup_ge_None in Hgroup. left. done.
Qed.

(** The loop: [k] files are written, for the first [k] indices; then the
    loop is over, or the next file does not open, or the next index is
    out of the groups. *)
Lemma process_groups_shape (groupedViews : list (list View)) (width height : N)
    (channelQuantization : Z) (n groupIdx : nat) :
  ∃ k T res,
    process_groups W a groupedViews width height channelQuantization n groupIdx = (T, res)
    ∧ (k ≤ n)%nat
    ∧ files_written T = samplesFilepath (outputFolder a) <$> seq groupIdx k
    ∧ (∀ j, (j < k)%nat →
         ofstream_is_open W (samplesFilepath (outputFolder a) (groupIdx + j)) = true
         ∧ (groupIdx + j < length groupedViews)%nat)
    ∧ ((res = inr tt ∧ k = n ∧ groups_processed T = seq groupIdx n)
       ∨ (res = inl (Exit EXIT_FAILURE) ∧ (k < n)%nat
          ∧ groups_processed T = seq groupIdx (S k)
          ∧ ofstream_is_open W (samplesFilepath (outputFolder a) (groupIdx + k)) = false
          ∧ (groupIdx + k < length groupedViews)%nat)
       ∨ (res = inl Undefined ∧ (k < n)%nat
          ∧ groups_processed T = seq groupIdx k
          ∧ (length groupedViews ≤ groupIdx + k)%nat)).
Proof.
  revert groupIdx. induction n as [|n IH]; intros groupIdx.
  - exists 0%nat, [], (inr tt). split; [done|]. split; [done|]. split; [done|].
    split; [intros j Hj; lia|]. by left.
  - cbn [process_groups].
    destruct (process_group_cases groupedViews width height channelQuantization groupIdx)
      as [(Hout & ->)|[(Hin & Hopen & T & -> & Hproc & Hfiles)
                      |(Hin & Hopen & T & -> & Hproc & Hfiles)]].
    + exists 0%nat, [], (inl Undefined). split; [done|]. split; [lia|]. split; [done|].
      split; [intros j Hj; lia|]. right. right.
      rewrite Nat.add_0_r. split; [done|]. split; [lia|]. done.
    + destruct (IH (S groupIdx)) as (k & T' & res & Hrun & Hk & Hfiles' & Hopens & Hres).
      exists (S k), (T ++ T'), res. rewrite bind_value_prepend, Hrun, prepend_pair.
      split; [done|]. split; [lia|]. split.
      { unfold files_written in *. by rewrite omap_app, Hfiles, Hfiles'. }
      split.
      { intros [|j] Hj.
        - by rewrite Nat.add_0_r.
        - rewrite <- Nat.add_succ_comm. apply Hopens. lia. }
      assert (Happ : ∀ l, groups_processed T' = l →
                groups_processed (T ++ T') = groupIdx :: l).
      { intros l <-. unfold groups_processed in *. by rewrite omap_app, Hproc. }
      rewrite <- !Nat.add_succ_comm.
      destruct Hres as [(-> & -> & Hp)|[(-> & Hlt & Hp & Hclosed & Hidx)
                                      |(-> & Hlt & Hp & Hidx)]].
      * left. split; [done|]. split; [done|]. by apply Happ.
      * right. left. split; [done|]. split; [lia|]. split; [by apply Happ|]. done.
      * right. right. split; [done|]. split; [lia|]. split; [by apply Happ|]. done.
    + exists 0%nat, T, (inl (Exit EXIT_FAILURE)). split; [done|]. split; [lia|].
      split; [done|]. split; [intros j Hj; lia|]. right. left.
      rewrite Nat.add_0_r. split; [done|]. split; [lia|]. done.
Qed.

(** Before the loop nothing is extracted or written. *)
Lemma check_groups_quiet (groupedViews : list (list View)) :
  ∃ T res, check_groups groupedViews = (T, res)
    ∧ groups_processed T = [] ∧ files_written T = []
    ∧ (res = inr tt ∨ res = inl (Exit EXIT_SUCCESS) ∨ res = inl (Exit EXIT_FAILURE)).
Proof.
  unfold check_groups. repeat case_bool_decide; eexists _, _;
    (split; [reflexivity|]); cbn; auto.
Qed.

Lemma define_range_quiet (groupedViews : list (list View)) :
  (∃ rangeStart' rangeSize',
     define_range a groupedViews = ([], inr (rangeStart', rangeSize')))
  ∨ define_range a groupedViews
    = ([LOG_ERROR "Range is incorrect"], inl (Exit EXIT_FAILURE)).
Proof.
  unfold define_range. case_bool_decide; [|eauto].
  destruct (_ || _); [by right|]. case_bool_decide; eauto.
Qed.

End SamplingLoop.

Section SamplingRange.
Import MachineInt LdrToHdrSampling.

Variable W : World.
Variable a : Args.

(** A run that reaches the range and whose options select the groups [l]
    works through [l]: to the end when the files open, up to the first
    file that does not open otherwise. *)
Lemma run_works_through (intrinsic : IntrinsicBase) (groupedViews : list (list View))
    (nb : nat) (l : list nat) :
  grouped W a intrinsic groupedViews →
  brackets groupedViews nb → nb ≠ 1%nat →
  is_int (rangeStart a) → is_int (rangeSize a) →
  Z.of_nat (length groupedViews) <= INT_MAX →
  selected_groups a (length groupedViews) = Some l →
  works_through W a (run (aliceVision_main W a)) l.
Proof.
  intros Hg Hb Hnb Hs Hz Hn Hsel.
  destruct (check_groups_multi _ _ Hb Hnb) as [msg Hcheck].
  destruct (define_range_selected a _ _ Hs Hz Hn Hsel) as (rs & rz & Hrange & Hl & Hle).
  set (first := Z.to_nat (to_size_t rs)) in *.
  set (n := Z.to_nat (to_size_t (wrap_int (rs + rz)) - to_size_t rs)) in *.
  destruct (process_groups_shape W a groupedViews (w intrinsic) (h intrinsic)
              (2 ^ channelQuantizationPower a) n first)
    as (k' & T & res & Hloop & Hk' & Hfiles & Hopens & Hres).
  assert (Hrun : run (aliceVision_main W a)
                 = (LOG_INFO msg :: LOG_DEBUG "Range to compute" :: T,
                    match res with inl o => o | inr _ => Exit EXIT_SUCCESS end)).
  { rewrite (main_grouped _ _ _ _ Hg), Hcheck, bind_value_prepend.
    unfold process_range. rewrite Hrange, bind_pure. cbv beta iota.
    rewrite bind_emit_prepend. fold first n. rewrite Hloop.
    destruct res as [o|[]]; [by rewrite bind_stop|].
    rewrite bind_value_prepend, prepend_ret, !prepend_pair.
    unfold run. cbn [fst snd app]. done. }
  rewrite Hrun. unfold works_through, trace, outcome. cbn [fst snd].
  change (groups_processed (LOG_INFO msg :: LOG_DEBUG "Range to compute" :: T))
    with (groups_processed T).
  change (files_written (LOG_INFO msg :: LOG_DEBUG "Range to compute" :: T))
    with (files_written T).
  split.
  - (* every file opens *)
    intros Hopen. rewrite Forall_forall in Hopen.
    destruct Hres as [(-> & -> & Hp)|[(-> & Hlt & Hp & Hclosed & Hidx)
                                     |(-> & Hlt & Hp & Hidx)]]; [| |lia].
    + by rewrite Hp, Hfiles, Hl.
    + rewrite Hopen in Hclosed; [discriminate|].
      rewrite Hl. apply elem_of_seq. lia.
  - (* the file of [k] is the first that does not open *)
    intros before k after Hsplit Hbefore Hclosed. rewrite Hsplit in Hl.
    assert (Hk : k = (first + length before)%nat ∧ (length before < n)%nat).
    { apply (lookup_seq first n (length before) k). rewrite <- Hl.
      by rewrite list_lookup_middle. }
    destruct Hk as [-> Hlt].
    assert (Hprefix : before = seq first (length before)).
    { pose proof (take_app_length before ((first + length before)%nat :: after)) as Htake.
      rewrite Hl, take_seq in Htake. rewrite <- Htake at 1. f_equal. lia. }
    assert (Hopen_before : ∀ j, (j < length before)%nat →
              ofstream_is_open W (samplesFilepath (outputFolder a) (first + j)) = true).
    { intros j Hj. rewrite Forall_forall in Hbefore. apply Hbefore.
      rewrite Hprefix. apply list_elem_of_lookup. exists j. by apply lookup_seq_lt. }
    destruct Hres as [(-> & -> & Hp)|[(-> & Hlt' & Hp & Hclosed' & Hidx)
                                     |(-> & Hlt' & Hp & Hidx)]]; [| |lia].
    + destruct (Hopens (length before) Hlt) as [Hopen _]. congruence.
    + assert (Hk : k' = length before).
      { destruct (Nat.lt_trichotomy k' (length before)) as [Hlt''|[Heq|Hgt]]; [|done|].
        - rewrite Hopen_before in Hclosed' by done. discriminate.
        - destruct (Hopens (length before) Hgt) as [Hopen _]. congruence. }
      subst k'. split; [done|].
      rewrite Hp, Hfiles, seq_S, <- Hprefix. done.
Qed.

End SamplingRange.


(** * Properties of the sampling driver *)

Section SamplingProperties.
Import MachineInt LdrToHdrSampling.

Lemma group_events_written (W : World) (a : Args) (groupedViews : list (list View))
    (width height : N) (l : list nat) (groupIdx : nat) :
  groupIdx ∈ l →
  FileWritten (samplesFilepath (outputFolder a) groupIdx)
    (samples_file (extracted W a groupedViews width height groupIdx).2)
  ∈ concat (group_events W a groupedViews width height <$> l).
Proof.
  intros Hin. apply list_elem_of_In, in_concat.
  exists (group_events W a groupedViews width height groupIdx). split.
  - apply list_elem_of_In, list_elem_of_fmap. eauto.
  - unfold group_events. rewrite !in_app_iff. right. right. by left.
Qed.

Lemma group_events_logged (W : World) (a : Args) (groupedViews : list (list View))
    (width height : N) (l : list nat) (groupIdx : nat) :
  groupIdx ∈ l →
  (extracted W a groupedViews width height groupIdx).1 = false →
  LOG_ERROR ("Error while extracting samples from group " ++ to_string groupIdx)
  ∈ concat (group_events W a groupedViews width height <$> l).
Proof.
  intros Hin Hres. apply list_elem_of_In, in_concat.
  exists (group_events W a groupedViews width height groupIdx). split.
  - apply list_elem_of_In, list_elem_of_fmap. eauto.
  - unfold group_events. rewrite Hres, !in_app_iff. right. left. by left.
Qed.

Lemma process_group_format (W : World) (a : Args) (groupedViews : list (list View))
    (width height : N) (groupIdx : nat) :
  Forall (event_format W a)
    (process_group W a groupedViews width height (2 ^ channelQuantizationPower a) groupIdx).1.
Proof.
  unfold process_group.
  apply bind_trace_Forall; [destruct (_ !! _); constructor|]. intros group.
  apply bind_trace_Forall; [by apply emit_trace_Forall|]. intros _.
  apply bind_trace_Forall; [by apply emit_trace_Forall|]. intros _.
  destruct (extractSamplesFromImages _ _ _ _ _ _ _) as [res out_samples] eqn:Hex.
  apply bind_trace_Forall.
  { destruct res; [constructor | by apply emit_trace_Forall]. }
  intros _. destruct (ofstream_is_open _ _); simpl.
  - repeat constructor.
    exists (getImagePath <$> group), (getCameraExposureSetting <$> group), width, height.
    rewrite Hex. simpl. split; [done|]. apply read_samples_file_put.
  - by repeat constructor.
Qed.

Lemma process_groups_format (W : World) (a : Args) (groupedViews : list (list View))
    (width height : N) (n groupIdx : nat) :
  Forall (event_format W a)
    (process_groups W a groupedViews width height (2 ^ channelQuantizationPower a)
       n groupIdx).1.
Proof.
  revert groupIdx. induction n as [|n IH]; intros groupIdx; [constructor|].
  cbn [process_groups].
  apply bind_trace_Forall; [apply process_group_format | intros _; apply IH].
Qed.

Lemma main_format (W : World) (a : Args) :
  Forall (event_format W a) (aliceVision_main W a).1.
Proof.
  unfold aliceVision_main.
  apply bind_trace_Forall; [destruct (sfmDataIO_Load _ _); by repeat constructor|].
  intros sfmData.
  apply bind_trace_Forall; [case_bool_decide; by repeat constructor|]. intros _.
  apply bind_trace_Forall; [destruct (getIntrinsics _); constructor|]. intros intrinsic.
  apply bind_trace_Forall;
    [destruct (estimateBracketsFromSfmData _ _ _); constructor|].
  intros groupedViews.
  apply bind_trace_Forall.
  { unfold check_groups. repeat case_bool_decide; by repeat constructor. }
  intros _. unfold process_range.
  apply bind_trace_Forall.
  { unfold define_range. case_bool_decide; [|constructor].
    destruct (_ || _); [by repeat constructor|]. case_bool_decide; constructor. }
  intros [rangeStart' rangeSize'].
  apply bind_trace_Forall; [by apply emit_trace_Forall|]. intros _.
  apply bind_trace_Forall; [apply process_groups_format | intros _; constructor].
Qed.

(** C5: when two exposure groups differ in their number of brackets, the
    run ends with the status [EXIT_FAILURE], which is not zero, and it
    has neither extracted samples from a group nor written a samples
    file. *)
Theorem inconsistent_groups_fail (W : World) (a : Args) (intrinsic : IntrinsicBase)
    (groupedViews : list (list View)) (g1 g2 : list View) :
  grouped W a intrinsic groupedViews →
  g1 ∈ groupedViews → g2 ∈ groupedViews → length g1 ≠ length g2 →
  outcome (run (aliceVision_main W a)) = Exit EXIT_FAILURE
  ∧ fails_before_processing (run (aliceVision_main W a)).
Proof.
  intros Hg H1 H2 Hne.
  rewrite (main_grouped _ _ _ _ Hg), (check_groups_inconsistent _ _ _ H1 H2 Hne).
  split; [done|]. by exists EXIT_FAILURE.
Qed.

Lemma inconsistent_groups_fail_witness :
  outcome (run (aliceVision_main (SamplingExample.world SamplingExample.uneven)
                  (SamplingExample.args (-1) 1))) = Exit EXIT_FAILURE
  ∧ fails_before_processing
      (run (aliceVision_main (SamplingExample.world SamplingExample.uneven)
              (SamplingExample.args (-1) 1))).
Proof.
  apply (inconsistent_groups_fail _ _ {| w := 4%N; h := 3%N |} SamplingExample.uneven
           [SamplingExample.a0; SamplingExample.a1; SamplingExample.b0]
           [SamplingExample.b1]).
  - exists SamplingExample.dataset. vm_compute. auto.
  - left.
  - right. left.
  - vm_compute. lia.
Defined.

(** C10: when there is a group and every group has exactly one bracket,
    the run logs "No multi-bracketing." and returns [EXIT_SUCCESS] right
    after the grouping: no group is processed and no file is written. *)
Theorem single_bracket_exits_success (W : World) (a : Args) (intrinsic : IntrinsicBase)
    (groupedViews : list (list View)) :
  grouped W a intrinsic groupedViews →
  brackets groupedViews 1 →
  run (aliceVision_main W a) = ([LOG_INFO "No multi-bracketing."], Exit EXIT_SUCCESS)
  ∧ groups_processed (trace (run (aliceVision_main W a))) = []
  ∧ files_written (trace (run (aliceVision_main W a))) = [].
Proof.
  intros Hg Hb.
  rewrite (main_grouped _ _ _ _ Hg), (check_groups_single _ Hb). done.
Qed.

Lemma single_bracket_exits_success_witness :
  run (aliceVision_main (SamplingExample.world SamplingExample.singles)
         (SamplingExample.args (-1) 1))
  = ([LOG_INFO "No multi-bracketing."], Exit EXIT_SUCCESS)
  ∧ groups_processed (trace (run (aliceVision_main
        (SamplingExample.world SamplingExample.singles) (SamplingExample.args (-1) 1)))) = []
  ∧ files_written (trace (run (aliceVision_main
        (SamplingExample.world SamplingExample.singles) (SamplingExample.args (-1) 1)))) = [].
Proof.
  apply (single_bracket_exits_success _ _ {| w := 4%N; h := 3%N |} SamplingExample.singles).
  - exists SamplingExample.dataset. vm_compute. auto.
  - split; [done|]. repeat constructor.
Defined.

(** C9, against the claim as stated: with the default [rangeStart] of -1
    a negative [rangeSize] is not looked at; the run processes both
    groups and succeeds. *)
Lemma negative_size_with_default_start_runs :
  rangeSize (SamplingExample.args (-1) (-1)) < 0
  ∧ groups_processed (trace (run (aliceVision_main
        (SamplingExample.world SamplingExample.pairs) (SamplingExample.args (-1) (-1)))))
    = [0; 1]%nat
  ∧ ¬ fails_before_processing
        (run (aliceVision_main (SamplingExample.world SamplingExample.pairs)
                (SamplingExample.args (-1) (-1)))).
Proof.
  split; [done|]. split; [by vm_compute|].
  intros (status & Hout & Hstatus & _). vm_compute in Hout. congruence.
Qed.

(** C9, amended: in a run that reaches the range (the dataset is read
    and has one intrinsic, the [n] exposure groups all have the same
    number of brackets, which is not one, the options are [int]s and [n]
    is at most [INT_MAX]):
    - [rangeStart = -1] selects all groups, whatever [rangeSize] is;
    - [0 <= rangeStart <= n] with [0 <= rangeSize] selects exactly the
      [min rangeSize (n - rangeStart)] groups from [rangeStart] on;
    - a [rangeStart] other than -1 that is negative or above [n], or then
      a negative [rangeSize], fails with a non-zero status before any
      group is processed.
    The run works through the groups selected, in order.  When the
    samples file of each of them opens, exactly these groups are
    processed, their files are written and the run returns
    [EXIT_SUCCESS].  A file that cannot be opened ends the run: the
    groups up to the first one whose file does not open are processed,
    only the files of the groups before it are written, and the run
    returns [EXIT_FAILURE]. *)
Theorem range_selection (W : World) (a : Args) (intrinsic : IntrinsicBase)
    (groupedViews : list (list View)) (nb : nat) :
  grouped W a intrinsic groupedViews →
  brackets groupedViews nb → nb ≠ 1%nat →
  is_int (rangeStart a) → is_int (rangeSize a) →
  Z.of_nat (length groupedViews) <= INT_MAX →
  let r := run (aliceVision_main W a) in
  let n := Z.of_nat (length groupedViews) in
  (rangeStart a = -1 → works_through W a r (seq 0 (length groupedViews)))
  ∧ (0 <= rangeStart a <= n → 0 <= rangeSize a →
     works_through W a r
       (seq (Z.to_nat (rangeStart a)) (Z.to_nat (Z.min (rangeSize a) (n - rangeStart a)))))
  ∧ (rangeStart a ≠ -1 → rangeStart a < 0 ∨ rangeStart a > n ∨ rangeSize a < 0 →
     fails_before_processing r).
Proof.
  intros Hg Hb Hnb Hs Hz Hn r n.
  split; [|split].
  - intros Hdef. apply (run_works_through W a _ _ _ _ Hg Hb Hnb Hs Hz Hn).
    unfold selected_groups. by rewrite bool_decide_true.
  - intros Hstart Hsize. apply (run_works_through W a _ _ _ _ Hg Hb Hnb Hs Hz Hn).
    unfold selected_groups.
    destruct (decide (rangeStart a = -1)) as [Hdef|Hdef]; [lia|].
    rewrite bool_decide_false by done.
    by rewrite !bool_decide_true.
  - intros Hdef Hbad.
    assert (Hsel : selected_groups a (length groupedViews) = None).
    { unfold selected_groups. rewrite bool_decide_false by done.
      destruct (decide (0 <= rangeStart a <= n)) as [Hin|Hout].
      - rewrite bool_decide_true by done.
        rewrite (bool_decide_false (0 <= rangeSize a)) by (subst n; lia). done.
      - by rewrite bool_decide_false. }
    destruct (run_rejected W a _ _ _ Hg Hb Hnb Hs Hz Hn Hsel) as [msg Hrun].
    subst r. rewrite Hrun. by exists EXIT_FAILURE.
Qed.

Lemma range_selection_witness :
  let W := SamplingExample.world_unwritable in
  let a := SamplingExample.args 0 5 in
  let r := run (aliceVision_main W a) in
  (0 = -1 → works_through W a r (seq 0 3))
  ∧ (0 <= 0 <= 3 → 0 <= 5 →
     works_through W a r (seq (Z.to_nat 0) (Z.to_nat (Z.min 5 (3 - 0)))))
  ∧ (0 ≠ -1 → 0 < 0 ∨ 0 > 3 ∨ 5 < 0 → fails_before_processing r).
Proof.
  apply (range_selection SamplingExample.world_unwritable
           (SamplingExample.args 0 5) {| w := 4%N; h := 3%N |}
           SamplingExample.triples 2).
  - exists SamplingExample.dataset. vm_compute. auto.
  - split; [done|]. repeat constructor.
  - lia.
  - vm_compute. split; discriminate.
  - vm_compute. split; discriminate.
  - vm_compute. discriminate.
Defined.

(** C3, against the claim as stated: the extraction fails on group 0 and
    the file of group 0 is written all the same. *)
Lemma failed_group_file_is_written :
  let W := SamplingExample.world SamplingExample.pairs in
  let a := SamplingExample.args (-1) 1 in
  (extracted W a SamplingExample.pairs 4 3 0).1 = false
  ∧ In (FileWritten "out/0_samples.dat" (samples_file []))
       (trace (run (aliceVision_main W a)))
  ∧ In "out/0_samples.dat" (files_written (trace (run (aliceVision_main W a)))).
Proof. vm_compute. intuition. Qed.

(** C3, amended: in a run that reaches the loop and whose samples files
    open, every selected group is processed and the run succeeds, also
    when the extraction fails on some group; for such a group the error
    is logged, and the file of every processed group is written, with the
    samples the extraction left behind. *)
Theorem failed_extraction_logged_and_written (W : World) (a : Args)
    (intrinsic : IntrinsicBase) (groupedViews : list (list View)) (nb : nat)
    (l : list nat) :
  grouped W a intrinsic groupedViews →
  brackets groupedViews nb → nb ≠ 1%nat →
  is_int (rangeStart a) → is_int (rangeSize a) →
  Z.of_nat (length groupedViews) <= INT_MAX →
  (∀ p, ofstream_is_open W p = true) →
  selected_groups a (length groupedViews) = Some l →
  let r := run (aliceVision_main W a) in
  let out := extracted W a groupedViews (w intrinsic) (h intrinsic) in
  outcome r = Exit EXIT_SUCCESS
  ∧ groups_processed (trace r) = l
  ∧ files_written (trace r) = samplesFilepath (outputFolder a) <$> l
  ∧ ∀ groupIdx, groupIdx ∈ l →
      FileWritten (samplesFilepath (outputFolder a) groupIdx)
        (samples_file (out groupIdx).2) ∈ trace r
      ∧ ((out groupIdx).1 = false →
         LOG_ERROR ("Error while extracting samples from group " ++ to_string groupIdx)
         ∈ trace r).
Proof.
  intros Hg Hb Hnb Hs Hz Hn Hopen Hsel r out.
  destruct (run_selected W a _ _ _ _ Hg Hb Hnb Hs Hz Hn Hopen Hsel) as [msg Hrun].
  subst r out. rewrite Hrun. unfold trace, outcome. cbn [fst snd].
  split; [done|]. split; [apply groups_processed_events|].
  split; [apply files_written_events|].
  intros groupIdx Hin. split.
  - do 2 right. by apply group_events_written.
  - intros Hres. do 2 right. by apply group_events_logged.
Qed.

Lemma failed_extraction_logged_and_written_witness :
  let W := SamplingExample.world SamplingExample.pairs in
  let a := SamplingExample.args (-1) 1 in
  let r := run (aliceVision_main W a) in
  let out := extracted W a SamplingExample.pairs 4 3 in
  outcome r = Exit EXIT_SUCCESS
  ∧ groups_processed (trace r) = [0; 1]%nat
  ∧ files_written (trace r) = samplesFilepath "out" <$> [0; 1]%nat
  ∧ ∀ groupIdx, groupIdx ∈ [0; 1]%nat →
      FileWritten (samplesFilepath "out" groupIdx) (samples_file (out groupIdx).2)
      ∈ trace r
      ∧ ((out groupIdx).1 = false →
         LOG_ERROR ("Error while extracting samples from group " ++ to_string groupIdx)
         ∈ trace r).
Proof.
  apply (failed_extraction_logged_and_written
           (SamplingExample.world SamplingExample.pairs) (SamplingExample.args (-1) 1)
           {| w := 4%N; h := 3%N |} SamplingExample.pairs 2 [0; 1]%nat).
  - exists SamplingExample.dataset. vm_compute. auto.
  - split; [done|]. repeat constructor.
  - lia.
  - vm_compute. split; discriminate.
  - vm_compute. split; discriminate.
  - vm_compute. discriminate.
  - reflexivity.
  - reflexivity.
Defined.

(** C6: every samples file a run writes holds the record count and then
    one record for each sample the extraction gave, and reading that file
    gives back the same list of samples, field for field, whenever the
    fields fit their C++ types. *)
Theorem samples_file_round_trip (W : World) (a : Args) (path : string)
    (content : list byte) :
  FileWritten path content ∈ trace (run (aliceVision_main W a)) →
  ∃ paths exposures width height,
    let out_samples :=
      (extractSamplesFromImages W paths exposures width height
         (2 ^ channelQuantizationPower a) (params a)).2 in
    content = put_size_t (N.of_nat (length out_samples))
                ++ concat (put_sample <$> out_samples)
    ∧ (samples_ok out_samples → read_samples_file content = Some out_samples).
Proof.
  intros Hin. pose proof (main_format W a) as Hall.
  rewrite Forall_forall in Hall. apply (Hall _ Hin).
Qed.

Lemma samples_file_round_trip_witness :
  let W := SamplingExample.world SamplingExample.pairs in
  let a := SamplingExample.args (-1) 1 in
  ∃ paths exposures width height,
    let out_samples :=
      (extractSamplesFromImages W paths exposures width height
         (2 ^ channelQuantizationPower a) (params a)).2 in
    samples_file [SamplingExample.sample]
    = put_size_t (N.of_nat (length out_samples)) ++ concat (put_sample <$> out_samples)
    ∧ (samples_ok out_samples →
       read_samples_file (samples_file [SamplingExample.sample]) = Some out_samples).
Proof.
  apply (samples_file_round_trip (SamplingExample.world SamplingExample.pairs)
           (SamplingExample.args (-1) 1) "out/1_samples.dat").
  apply list_elem_of_In. vm_compute. intuition.
Defined.

End SamplingProperties.

(** * The dense point cloud *)

Section DensePointCloud.
Import Meshing.

Variable W : World.
Variable sfmData : SfMData.
Variable mp : MultiViewParams.
Context {E : Type}.

Lemma to_IndexT_inj (i j : nat) :
  (N.of_nat i < 2 ^ 32)%N → (N.of_nat j < 2 ^ 32)%N →
  to_IndexT i = to_IndexT j → i = j.
Proof.
  unfold to_IndexT. intros Hi Hj.
  rewrite !N.mod_small by lia. lia.
Qed.

Lemma make_observation_found (pt3D : Vec3) (cam : nat) (vip : View * IntrinsicBase * Pose) :
  camera_view sfmData mp cam = Some vip →
  make_observation (E:=E) W sfmData mp pt3D cam
  = ([], inr (getViewId vip.1.1, reprojection W vip pt3D)).
Proof.
  unfold camera_view, make_observation. intros Hvip.
  destruct (viewIds mp !! cam) as [viewId|]; [|done]. cbn in Hvip.
  destruct (views sfmData !! viewId) as [view|] eqn:Hv; [|done]. cbn in Hvip.
  destruct (intrinsics sfmData !! getIntrinsicId view) as [intrinsic|] eqn:Hi; [|done].
  cbn in Hvip.
  destruct (poses sfmData !! getPoseId view) as [pose|] eqn:Hp; [|done].
  injection Hvip as <-.
  rewrite bind_ret, Hv, bind_ret, Hi, bind_ret, Hp, bind_ret. done.
Qed.

(** Cameras of the same view give the same observation. *)
Lemma camera_view_same_id (cam cam' : nat) (vip vip' : View * IntrinsicBase * Pose) :
  views_consistent sfmData →
  camera_view sfmData mp cam = Some vip →
  camera_view sfmData mp cam' = Some vip' →
  getViewId vip.1.1 = getViewId vip'.1.1 → vip = vip'.
Proof.
  unfold camera_view. intros Hcons H1 H2 Hid.
  destruct (viewIds mp !! cam) as [k|]; [|done].
  destruct (viewIds mp !! cam') as [k'|]; [|done]. cbn in H1, H2.
  destruct (views sfmData !! k) as [view|] eqn:Hv; [|done].
  destruct (views sfmData !! k') as [view'|] eqn:Hv'; [|done]. cbn in H1, H2.
  destruct (intrinsics sfmData !! getIntrinsicId view) as [i1|] eqn:Hi1; [|done].
  destruct (intrinsics sfmData !! getIntrinsicId view') as [i2|] eqn:Hi2; [|done].
  cbn in H1, H2.
  destruct (poses sfmData !! getPoseId view) as [p1|] eqn:Hp1; [|done].
  destruct (poses sfmData !! getPoseId view') as [p2|] eqn:Hp2; [|done].
  injection H1 as <-. injection H2 as <-. cbn in Hid.
  assert (k = k') as <-.
  { rewrite <- (Hcons _ _ Hv), <- (Hcons _ _ Hv'). done. }
  congruence.
Qed.

Lemma add_observations_found (pt3D : Vec3) (cams : list nat) (landmark : Landmark) :
  (∀ cam, cam ∈ cams → is_Some (camera_view sfmData mp cam)) →
  ∃ obs,
    add_observations (E:=E) W sfmData mp pt3D cams landmark
    = ([], inr (set_observations landmark obs))
    ∧ (cams = [] → obs = observations landmark)
    ∧ (cams ≠ [] → obs ≠ ∅)
    ∧ (views_consistent sfmData → ∀ cam, cam ∈ cams →
         ∃ vip, camera_view sfmData mp cam = Some vip
                ∧ obs !! getViewId vip.1.1 = Some (reprojection W vip pt3D))
    ∧ (∀ viewId o, obs !! viewId = Some o →
         observations landmark !! viewId = Some o
         ∨ ∃ cam vip, cam ∈ cams ∧ camera_view sfmData mp cam = Some vip
                      ∧ getViewId vip.1.1 = viewId ∧ o = reprojection W vip pt3D).
Proof.
  revert landmark.
  induction cams as [|cam cams IH]; intros landmark Hcams.
  - exists (observations landmark). split; [by destruct landmark|].
    split; [done|]. split; [done|]. split; [by intros ? ? ?%elem_of_nil | auto].
  - destruct (Hcams cam) as [vip Hvip]; [by left|].
    cbn [add_observations]. rewrite (make_observation_found _ _ _ Hvip), bind_pure.
    destruct (IH (set_observations landmark
                    (<[getViewId vip.1.1 := reprojection W vip pt3D]> (observations landmark))))
      as (obs & Hrun & Hnil & Hsome & Hall & Honly).
    { intros c Hc. apply Hcams. by right. }
    exists obs. split; [by rewrite Hrun|]. split; [done|]. split.
    { (* something is stored under the view of [cam] *)
      intros _. destruct (decide (cams = [])) as [->|Hne]; [|by apply Hsome].
      rewrite Hnil by done. apply insert_non_empty. }
    split.
    + intros Hcons c [->|Hc]%elem_of_cons; [|by apply Hall].
      exists vip. split; [done|].
      (* a later camera may store under the same id, with the same value *)
      clear Hall.
      assert (Hin : ∀ v o, obs !! v = Some o →
                 v = getViewId vip.1.1 → o = reprojection W vip pt3D).
      { intros v o Ho ->. destruct (Honly _ _ Ho) as [Hold|(c & vip' & Hc & Hvip' & Hid & ->)].
        - cbn in Hold. rewrite lookup_insert_eq in Hold. congruence.
        - by rewrite (camera_view_same_id _ _ _ _ Hcons Hvip' Hvip Hid). }
      destruct (obs !! getViewId vip.1.1) as [o|] eqn:Ho.
      * f_equal. by eapply Hin.
      * exfalso. revert Ho. clear -Hrun Hcams.
        revert landmark obs Hrun Hcams.
        generalize (reprojection W vip pt3D) as o0.
        induction cams as [|c cs IHcs]; intros o0 landmark obs Hrun Hcams Ho.
        -- cbn [add_observations] in Hrun. injection Hrun as <-.
           by rewrite lookup_insert_eq in Ho.
        -- destruct (Hcams c) as [vc Hvc]; [by right; left|].
           cbn [add_observations] in Hrun.
           rewrite (make_observation_found _ _ _ Hvc), bind_pure in Hrun.
           cbn [observations set_observations] in Hrun.
           destruct (decide (getViewId vc.1.1 = getViewId vip.1.1)) as [Heq|Hneq].
           ++ rewrite Heq, insert_insert_eq in Hrun.
              eapply (IHcs _ landmark obs); [exact Hrun| |exact Ho].
              intros c' [->|Hc']%elem_of_cons; apply Hcams; [by left|by do 2 right].
           ++ rewrite insert_insert_ne in Hrun by done.
              eapply (IHcs o0 (set_observations landmark
                         (<[getViewId vc.1.1 := reprojection W vc pt3D]> (observations landmark)))
                        obs); [exact Hrun| |exact Ho].
              intros c' [->|Hc']%elem_of_cons; apply Hcams; [by left|by do 2 right].
    + intros v o Ho. destruct (Honly _ _ Ho) as [Hold|(c & vip' & Hc & Hvip' & Hid & ->)].
      * cbn in Hold. destruct (decide (getViewId vip.1.1 = v)) as [<-|Hne].
        -- rewrite lookup_insert_eq in Hold. injection Hold as <-.
           right. exists cam, vip. split; [by left|done].
        -- rewrite lookup_insert_ne in Hold by done. by left.
      * right. exists c, vip'. split; [by right|done].
Qed.

(** One observation for each camera, when the cameras are distinct. *)
Lemma observed_by_size (pt3D : Vec3) (cams : list nat) (obs : gmap IndexT Observation) :
  observed_by W sfmData mp pt3D cams obs →
  distinct_cameras sfmData mp cams →
  size obs = length cams.
Proof.
  intros [Hall Honly] Hdistinct.
  assert (Hdom : dom obs = list_to_set (camera_view_id sfmData mp <$> cams)).
  { apply set_eq. intros v.
    rewrite elem_of_dom, elem_of_list_to_set, list_elem_of_fmap. split.
    - intros [o Ho]. destruct (Honly v o Ho) as (cam & vip & Hin & Hvip & Hid & _).
      exists cam. split; [|done]. unfold camera_view_id. by rewrite Hvip.
    - intros (cam & -> & Hin). destruct (Hall cam Hin) as (vip & Hvip & Hl).
      unfold camera_view_id. rewrite Hvip. eauto. }
  rewrite <- size_dom, Hdom, size_list_to_set by done.
  apply length_fmap.
Qed.

Lemma add_landmarks_found (ptsCams : list (list nat)) (vertices : list Point3d)
    (i : nat) (out0 : SfMData) :
  (N.of_nat (i + length vertices) <= 2 ^ 32)%N →
  (∀ j, (j < length vertices)%nat →
     ∃ cams, ptsCams !! (i + j)%nat = Some cams
             ∧ ∀ cam, cam ∈ cams → is_Some (camera_view sfmData mp cam)) →
  ∃ out,
    add_landmarks (E:=E) W sfmData mp ptsCams i vertices out0 = ([], inr out)
    ∧ (views_consistent sfmData → ∀ j point, vertices !! j = Some point →
         stored W sfmData mp ptsCams (landmarks out) (i + j) point)
    ∧ (∀ k, (∀ j, (j < length vertices)%nat → k ≠ to_IndexT (i + j)) →
         landmarks out !! k = landmarks out0 !! k).
Proof.
  revert i out0.
  induction vertices as [|point vertices IH]; intros i out0 Hbound Hvis.
  - exists out0. split; [done|]. split; [by intros ? j p ?|done].
  - destruct (Hvis 0%nat) as (cams & Hcams & Hfound); [simpl; lia|].
    rewrite Nat.add_0_r in Hcams.
    cbn [add_landmarks]. rewrite Hcams, bind_ret.
    set (pt3D := (x point, y point, z point)).
    destruct (add_observations_found pt3D cams
                {| X := pt3D; descType := UNKNOWN; observations := ∅;
                   landmark_rgb := {| r := 255%N; g := 255%N; b := 255%N |} |}
                Hfound) as (obs & Hrun & Hnil & Hsome & Hall & Honly).
    rewrite Hrun, bind_pure.
    destruct (IH (S i) (set_landmarks out0
                          (<[to_IndexT i := set_observations
                               {| X := pt3D; descType := UNKNOWN; observations := ∅;
                                  landmark_rgb := {| r := 255%N; g := 255%N; b := 255%N |} |}
                               obs]> (landmarks out0))))
      as (out & Hout & Hstored & Hother).
    { simpl in Hbound. lia. }
    { intros j Hj. destruct (Hvis (S j)) as (cs & Hcs & Hf); [simpl; lia|].
      exists cs. split; [|done]. by rewrite Nat.add_succ_comm. }
    exists out. split; [done|]. split.
    + intros Hcons [|j] p Hp.
      * injection Hp as <-. rewrite Nat.add_0_r. intros cams' Hcams'.
        assert (cams' = cams) as -> by congruence.
        eexists. split.
        { rewrite Hother; [apply lookup_insert_eq|].
          intros j Hj Heq. apply to_IndexT_inj in Heq; simpl in Hbound; lia. }
        cbn [X observations set_observations].
        split; [done|]. split; [intros ->; by rewrite Hnil|]. split; [done|].
        split; [by apply Hall|].
        intros v o Ho. destruct (Honly _ _ Ho) as [Hold|?]; [|done].
        cbn in Hold. by rewrite lookup_empty in Hold.
      * rewrite <- Nat.add_succ_comm. by apply Hstored.
    + intros k Hk. rewrite Hother.
      * cbn. apply lookup_insert_ne. intros Heq. apply (Hk 0%nat); [simpl; lia|].
        by rewrite Nat.add_0_r.
      * intros j Hj. rewrite Nat.add_succ_comm. apply Hk. simpl. lia.
Qed.

(** [createDenseSfMData] returns when the visibilities are well formed,
    and then holds, at the index of every vertex, a landmark at the
    position of the vertex with the observations of its cameras. *)
Lemma createDenseSfMData_found (vertices : list Point3d) (ptsCams : list (list nat)) :
  visibilities_ok sfmData mp (length vertices) ptsCams →
  ∃ out,
    createDenseSfMData (E:=E) W sfmData mp vertices ptsCams = ([], inr out)
    ∧ (views_consistent sfmData → ∀ i point, vertices !! i = Some point → stored W sfmData mp ptsCams (landmarks out) i point)
    ∧ (∀ k, (∀ i, (i < length vertices)%nat → k ≠ to_IndexT i) →
         landmarks out !! k = None).
Proof.
  intros (Hlen & Hbound & Hall). unfold createDenseSfMData.
  assert (Hfound : ∀ i cams cam, (i < length vertices)%nat →
            ptsCams !! i = Some cams → cam ∈ cams →
            is_Some (camera_view sfmData mp cam)).
  { intros i cams cam Hi Hcams Hcam.
    rewrite <- (lookup_take_lt _ (length vertices)) in Hcams by done.
    pose proof (Forall_lookup_1 _ _ _ _ Hall Hcams) as Hcs.
    rewrite Forall_forall in Hcs. by apply Hcs. }
  destruct (add_landmarks_found ptsCams vertices 0 (set_landmarks sfmData ∅))
    as (out & Hrun & Hstored & Hother); [done| |].
  { intros j Hj. destruct (lookup_lt_is_Some_2 ptsCams j) as [cams Hcams]; [lia|].
    exists cams. split; [done|]. intros cam. by apply (Hfound j cams). }
  exists out. split; [done|]. split; [done|].
  intros k Hk. rewrite Hother by done. apply lookup_empty.
Qed.

End DensePointCloud.

Section Filtering.
Import Meshing.

Lemma removeLandmarksWithoutObservations_lookup (sfmData : SfMData) (k : IndexT)
    (landmark : Landmark) :
  landmarks (removeLandmarksWithoutObservations sfmData) !! k = Some landmark
  ↔ landmarks sfmData !! k = Some landmark ∧ observations landmark ≠ ∅.
Proof. unfold removeLandmarksWithoutObservations. cbn. apply map_lookup_filter_Some. Qed.

Lemma removeLandmarksWithoutObservations_dropped (sfmData : SfMData) (k : IndexT)
    (landmark : Landmark) :
  landmarks sfmData !! k = Some landmark → observations landmark = ∅ →
  landmarks (removeLandmarksWithoutObservations sfmData) !! k = None.
Proof.
  intros Hk Hempty. unfold removeLandmarksWithoutObservations. cbn.
  apply map_lookup_filter_None. right. intros l Hl. cbn. congruence.
Qed.

Lemma colorizeTracks_lookup (W : World) (sfmData : SfMData) (k : IndexT) :
  landmarks (colorizeTracks W sfmData) !! k
  = (λ l, set_rgb l (track_color W sfmData k)) <$> landmarks sfmData !! k.
Proof.
  unfold colorizeTracks. cbn. rewrite map_lookup_imap.
  by destruct (landmarks sfmData !! k).
Qed.

End Filtering.

(** * The meshing driver *)

Section MeshingDriver.
Import Meshing.

Variable W : World.
Variable a : Args.

(** The parsing of the modes: 'auto' is a mode of its own, anything but
    the names the driver knows is undefined, and so is 'regularGrid',
    which the help text of [--repartition] offers. *)
Lemma EPartitioning_stringToEnum_cases (s : string) :
  EPartitioning_stringToEnum "auto" = ePartitioningAuto
  ∧ EPartitioning_stringToEnum "singleBlock" = ePartitioningSingleBlock
  ∧ (s ≠ "singleBlock" → s ≠ "auto" →
     EPartitioning_stringToEnum s = ePartitioningUndefined).
Proof.
  split; [done|]. split; [done|]. intros H1 H2. unfold EPartitioning_stringToEnum.
  by rewrite !bool_decide_false.
Qed.

Lemma ERepartitionMode_stringToEnum_cases (s : string) :
  ERepartitionMode_stringToEnum "multiResolution" = eRepartitionMultiResolution
  ∧ ERepartitionMode_stringToEnum "regularGrid" = eRepartitionUndefined
  ∧ (s ≠ "multiResolution" → ERepartitionMode_stringToEnum s = eRepartitionUndefined).
Proof.
  split; [done|]. split; [done|]. intros H1. unfold ERepartitionMode_stringToEnum.
  by rewrite bool_decide_false.
Qed.

(** The seed of the command line is what the collaborators find in the
    user parameters. *)
Lemma make_mp_seed (sfmData : SfMData) (meshingFromDepthMaps : bool) :
  delaunaycut_seed (userParams (make_mp W a sfmData meshingFromDepthMaps)) = seed a.
Proof. reflexivity. Qed.

Lemma check_input_options_accepted :
  modes_accepted a →
  check_input_options a
  = ([], inr (from_depth_maps a,
              if from_depth_maps a then addLandmarksToTheDensePointCloud a else true)).
Proof.
  intros [Hr Hp]. unfold check_input_options, from_depth_maps.
  case_bool_decide; [|done]. by rewrite !bool_decide_true.
Qed.

Lemma check_input_options_rejected :
  ¬ modes_accepted a →
  check_input_options a
  = if bool_decide (depthMapsFolder a = EmptyString)
    then ([LOG_ERROR "Invalid input options"], inl (Exit EXIT_FAILURE))
    else ([], inr (true, addLandmarksToTheDensePointCloud a)).
Proof.
  intros Hmodes. unfold check_input_options.
  case_bool_decide; [|done].
  destruct (decide (repartitionMode a = eRepartitionMultiResolution)) as [Hr|Hr];
    destruct (decide (partitioningMode a = ePartitioningSingleBlock)) as [Hp|Hp];
    try (by destruct Hmodes);
    rewrite ?(bool_decide_true _ Hr), ?(bool_decide_false _ Hr),
      ?(bool_decide_true _ Hp), ?(bool_decide_false _ Hp); done.
Qed.

Lemma make_mesh_rejected (sfmData : SfMData) (mp : MultiViewParams)
    (outDirectory : string) (meshingFromDepthMaps addLandmarks : bool) :
  ¬ modes_accepted a →
  ∃ what,
    make_mesh W a sfmData mp outDirectory meshingFromDepthMaps addLandmarks
    = ([], inl (Throw (invalid_argument what))).
Proof.
  intros Hmodes. unfold make_mesh.
  destruct (repartitionMode a) eqn:Hr; [eauto|].
  destruct (partitioningMode a) eqn:Hp; [eauto| |eauto].
  by destruct Hmodes.
Qed.

(** The raw dense point cloud is saved when its visibilities are well
    formed. *)
Lemma save_raw_dense_point_cloud_saves (sfmData : SfMData) (mp : MultiViewParams)
    (outDirectory : string) (verticesCoords : list Point3d) (ptsCams : list (list nat)) :
  visibilities_ok sfmData mp (length verticesCoords) ptsCams →
  ∃ densePointCloud,
    save_raw_dense_point_cloud W a sfmData mp outDirectory verticesCoords ptsCams
    = ([LOG_INFO "Save dense point cloud before cut and filtering.";
        SaveSfMData (path_append outDirectory "densePointCloud_raw.abc") densePointCloud],
       inr tt).
Proof.
  intros Hvis. unfold save_raw_dense_point_cloud.
  destruct (createDenseSfMData_found W sfmData mp (E:=Event) _ _ Hvis)
    as (out & Hrun & _).
  rewrite bind_emit, Hrun, bind_pure. eauto.
Qed.

(** ** The single-block case *)

Lemma single_block_no_camera (sfmData : SfMData) (outDirectory : string) :
  used_cams W a sfmData = [] →
  ∃ T,
    single_block W a sfmData (make_mp W a sfmData (from_depth_maps a)) outDirectory
      (from_depth_maps a)
      (if from_depth_maps a then addLandmarksToTheDensePointCloud a else true)
    = (T, inl (Throw (logic_error "No camera to make the reconstruction")))
    ∧ files_written T = []
    ∧ ∀ cams, ¬ In (CreateDensePointCloud cams) T.
Proof.
  unfold used_cams, intersecting_cams, estimated_hexah, single_block.
  intros Hcams.
  destruct (from_depth_maps a); destruct (estimateSpaceFromSfM a);
    cbn [andb negb] in *; mnorm; rewrite Hcams; cbn [empty]; unfold throw; mnorm;
    mgather; (eexists; split; [reflexivity|]; split; [reflexivity|]);
    intros cams Hin; cbn in Hin; intuition discriminate.
Qed.

Lemma single_block_reconstructs (sfmData : SfMData) :
  reconstructs W a sfmData →
  ∃ T,
    single_block W a sfmData (make_mp W a sfmData (from_depth_maps a))
      (parent_path (outputMesh a)) (from_depth_maps a)
      (if from_depth_maps a then addLandmarksToTheDensePointCloud a else true)
    = (T, inr (final_mesh W a sfmData))
    ∧ files_written T
      = (if saveRawDensePointCloud a
         then [path_append (parent_path (outputMesh a)) "densePointCloud_raw.abc"]
         else [])
    ∧ In (CreateDensePointCloud (used_cams W a sfmData)) T
    ∧ In ReconstructMesh T
    ∧ ∀ p m, ¬ In (SaveToObj p m) T.
Proof.
  intros (_ & _ & _ & Hcams & Hraw).
  unfold final_mesh. revert Hraw. unfold raw_cloud. revert Hcams.
  unfold used_cams, intersecting_cams, estimated_hexah, single_block.
  set (mp := make_mp W a sfmData (from_depth_maps a)).
  set (addLandmarks := if from_depth_maps a then _ else true).
  intros Hcams Hraw.
  assert (Hempty : ∀ l : list nat, l ≠ [] → empty l = false) by (by intros []).
  destruct (from_depth_maps a); destruct (estimateSpaceFromSfM a);
    cbn [andb negb] in *; mnorm; rewrite (Hempty _ Hcams); mnorm;
    match goal with
    | |- context [createDensePointCloud W ?m ?h ?c ?s ?f] =>
        destruct (createDensePointCloud W m h c s f) as [verticesCoords rawPtsCams]
    end;
    (destruct (saveRawDensePointCloud a);
     [ destruct (save_raw_dense_point_cloud_saves sfmData mp
                   (parent_path (outputMesh a)) verticesCoords rawPtsCams
                   (Hraw eq_refl)) as [dense ->]
     | ]);
    mnorm; mgather;
    (eexists; split; [reflexivity|]; split; [reflexivity|]);
    cbn; intuition discriminate.
Qed.

(** ** The output files *)

Lemma generate_output_no_mesh (sfmData : SfMData) (mp : MultiViewParams)
    (mesh : option Mesh) (ptsCams : list (list nat)) :
  no_valid_mesh mesh →
  generate_output W a sfmData mp mesh ptsCams
  = ([], inl (Throw (runtime_error "No valid mesh was generated."))).
Proof.
  unfold generate_output, no_valid_mesh.
  destruct mesh as [m|]; [|done]. intros [-> | ->]; [done|].
  by destruct (pts m).
Qed.

Lemma vertex_colors_found (landmarks : gmap IndexT Landmark) (i n : nat) :
  (∀ j, (j < n)%nat → is_Some (landmarks !! to_IndexT (i + j))) →
  ∃ colors, vertex_colors landmarks i n = ([], inr colors).
Proof.
  revert i. induction n as [|n IH]; intros i Hall; [by eexists|].
  cbn [vertex_colors].
  destruct (Hall 0%nat) as [l Hl]; [lia|]. rewrite Nat.add_0_r in Hl.
  rewrite Hl, bind_ret.
  destruct (IH (S i)) as [colors ->].
  { intros j Hj. rewrite Nat.add_succ_comm. apply Hall. lia. }
  rewrite bind_pure. by eexists.
Qed.

Lemma stored_colorizeTracks (sfmData out : SfMData) (mp : MultiViewParams)
    (ptsCams : list (list nat)) (i : nat) (point : Point3d) :
  stored W sfmData mp ptsCams (landmarks out) i point →
  stored W sfmData mp ptsCams (landmarks (colorizeTracks W out)) i point.
Proof.
  intros Hstored cams Hcams.
  destruct (Hstored cams Hcams) as (landmark & Hl & HX & Hnil & Hsome & Hobs).
  exists (set_rgb landmark (track_color W out (to_IndexT i))).
  rewrite colorizeTracks_lookup, Hl. done.
Qed.

(** What is left of a stored landmark once the landmarks without
    observations are removed. *)
Lemma stored_removed (sfmData out : SfMData) (mp : MultiViewParams)
    (ptsCams : list (list nat)) (i : nat) (point : Point3d) (cams : list nat) :
  stored W sfmData mp ptsCams (landmarks out) i point →
  ptsCams !! i = Some cams →
  (cams ≠ [] →
     ∃ landmark,
       landmarks (removeLandmarksWithoutObservations out) !! to_IndexT i = Some landmark
       ∧ X landmark = (x point, y point, z point)
       ∧ observed_by W sfmData mp (X landmark) cams (observations landmark))
  ∧ (cams = [] →
     landmarks (removeLandmarksWithoutObservations out) !! to_IndexT i = None).
Proof.
  intros Hstored Hcams.
  destruct (Hstored cams Hcams) as (landmark & Hl & HX & Hnil & Hsome & Hobs).
  split.
  - intros Hne. exists landmark. split; [|done].
    apply removeLandmarksWithoutObservations_lookup. auto.
  - intros Hempty. eapply removeLandmarksWithoutObservations_dropped; eauto.
Qed.

Lemma generate_output_saves (sfmData : SfMData) (mp : MultiViewParams)
    (mesh : Mesh) (ptsCams : list (list nat)) :
  pts mesh ≠ [] → tris mesh ≠ [] →
  views_consistent sfmData →
  visibilities_ok sfmData mp (length (pts mesh)) ptsCams →
  ∃ out mesh',
    generate_output W a sfmData mp (Some mesh) ptsCams
    = ([LOG_INFO "Save dense point cloud.";
        SaveSfMData (outputDensePointCloud a) (removeLandmarksWithoutObservations out);
        LOG_INFO "Save obj mesh file.";
        SaveToObj (outputMesh a) mesh';
        LOG_INFO "Task done"], inr EXIT_SUCCESS)
    ∧ pts mesh' = pts mesh ∧ tris mesh' = tris mesh
    ∧ (∀ i point, pts mesh !! i = Some point →
         stored W sfmData mp ptsCams (landmarks out) i point)
    ∧ (∀ k, (∀ i, (i < length (pts mesh))%nat → k ≠ to_IndexT i) →
         landmarks out !! k = None).
Proof.
  intros Hpts Htris Hcons Hvis. unfold generate_output.
  assert (Hempty : ∀ A (l : list A), l ≠ [] → empty l = false) by (by intros A []).
  rewrite (Hempty _ _ Hpts), (Hempty _ _ Htris). cbn [orb]. rewrite bind_ret.
  assert (HptsCams : ptsCams ≠ []).
  { destruct Hvis as [Hlen _]. destruct (pts mesh); [done|].
    destruct ptsCams; [cbn in Hlen; lia | done]. }
  rewrite (Hempty _ _ HptsCams), bind_ret.
  destruct (createDenseSfMData_found W sfmData mp (E:=Event) _ _ Hvis)
    as (out & -> & Hstored & Hother).
  specialize (Hstored Hcons). rewrite bind_pure.
  destruct (colorizeOutput a).
  - destruct (vertex_colors_found (landmarks (colorizeTracks W out)) 0 (length (pts mesh)))
      as [colors ->].
    { intros j Hj. destruct (lookup_lt_is_Some_2 (pts mesh) j Hj) as [point Hpoint].
      destruct Hvis as [Hlen _].
      destruct (lookup_lt_is_Some_2 ptsCams j) as [cams Hcams]; [lia|].
      destruct (stored_colorizeTracks sfmData out mp ptsCams j point
                  (Hstored j point Hpoint) cams Hcams) as (l & Hl & _).
      by exists l. }
    mnorm. mgather.
    exists (colorizeTracks W out), (set_colors mesh colors).
    split; [done|]. split; [done|]. split; [done|]. split.
    + intros i point Hpoint. by apply stored_colorizeTracks, Hstored.
    + intros k Hk. by rewrite colorizeTracks_lookup, Hother.
  - mnorm. mgather. exists out, mesh. by repeat split.
Qed.

(** ** Up to the choice of the mode *)

Lemma main_loaded (sfmData : SfMData) (meshingFromDepthMaps addLandmarks : bool) :
  check_input_options a = ([], inr (meshingFromDepthMaps, addLandmarks)) →
  sfmDataIO_Load W (sfmDataFilename a) = Some sfmData →
  aliceVision_main W a
  = prepend
      (LoadSfMData (sfmDataFilename a)
         :: (if is_directory W (parent_path (outputMesh a)) then []
             else [CreateDirectory (parent_path (outputMesh a))])
         ++ [LOG_WARNING "repartitionMode"; LOG_WARNING "partitioningMode"])
      (make_mesh W a sfmData (make_mp W a sfmData meshingFromDepthMaps)
         (parent_path (outputMesh a)) meshingFromDepthMaps addLandmarks
       ≫= λ '(mesh, ptsCams),
         generate_output W a sfmData (make_mp W a sfmData meshingFromDepthMaps)
           mesh ptsCams).
Proof.
  intros Hopt Hload. unfold aliceVision_main.
  rewrite Hopt, bind_pure. cbv beta iota.
  rewrite bind_emit_prepend, Hload, bind_ret.
  destruct (is_directory W _); cbn [negb]; mnorm; mgather; done.
Qed.

Lemma main_accepted (sfmData : SfMData) :
  modes_accepted a →
  sfmDataIO_Load W (sfmDataFilename a) = Some sfmData →
  aliceVision_main W a
  = prepend
      (LoadSfMData (sfmDataFilename a)
         :: (if is_directory W (parent_path (outputMesh a)) then []
             else [CreateDirectory (parent_path (outputMesh a))])
         ++ [LOG_WARNING "repartitionMode"; LOG_WARNING "partitioningMode"])
      (single_block W a sfmData (make_mp W a sfmData (from_depth_maps a))
         (parent_path (outputMesh a)) (from_depth_maps a)
         (if from_depth_maps a then addLandmarksToTheDensePointCloud a else true)
       ≫= λ '(mesh, ptsCams),
         generate_output W a sfmData (make_mp W a sfmData (from_depth_maps a))
           mesh ptsCams).
Proof.
  intros Hmodes Hload.
  rewrite (main_loaded sfmData _ _ (check_input_options_accepted Hmodes) Hload).
  destruct Hmodes as [Hr Hp]. unfold make_mesh. by rewrite Hr, Hp.
Qed.

(** The events before the choice of the mode write no file and make no
    dense point cloud. *)
Lemma files_written_prefix (t : list Event) :
  files_written
    ((LoadSfMData (sfmDataFilename a)
        :: (if is_directory W (parent_path (outputMesh a)) then []
            else [CreateDirectory (parent_path (outputMesh a))])
        ++ [LOG_WARNING "repartitionMode"; LOG_WARNING "partitioningMode"]) ++ t)
  = files_written t.
Proof. by destruct (is_directory W _). Qed.

Lemma In_prefix (e : Event) (t : list Event) :
  (∀ p, e ≠ LoadSfMData p) → (∀ p, e ≠ CreateDirectory p) → (∀ m, e ≠ LOG_WARNING m) →
  In e ((LoadSfMData (sfmDataFilename a)
           :: (if is_directory W (parent_path (outputMesh a)) then []
               else [CreateDirectory (parent_path (outputMesh a))])
           ++ [LOG_WARNING "repartitionMode"; LOG_WARNING "partitioningMode"]) ++ t)
  ↔ In e t.
Proof.
  intros H1 H2 H3. rewrite in_app_iff. split; [|by right].
  intros [Hin|Hin]; [|done]. exfalso.
  destruct (is_directory W _); cbn in Hin;
    repeat (destruct Hin as [Hin|Hin]; [symmetry in Hin; by first
      [apply H1 in Hin | apply H2 in Hin | apply H3 in Hin]|]); done.
Qed.

End MeshingDriver.

(** * No [std::logic_error] past the check of the cameras *)

Section NoLogicError.
Import Meshing.

Lemma no_logic_error_ret {E A} (x : A) : no_logic_error (mret x : M E A).
Proof. by intros what. Qed.

Lemma no_logic_error_emit {E} (e : E) : no_logic_error (emit e).
Proof. by intros what. Qed.

Lemma no_logic_error_bind {E A B} (m : M E A) (f : A → M E B) :
  no_logic_error m → (∀ x, no_logic_error (f x)) → no_logic_error (m ≫= f).
Proof.
  intros Hm Hf what. destruct m as [t [o|x]]; cbn.
  - intros [= ->]. by apply (Hm what).
  - apply (Hf x what).
Qed.

Lemma no_logic_error_outcome {E} (m : M E Z) (what : string) :
  no_logic_error m → outcome (run m) ≠ Throw (logic_error what).
Proof.
  intros Hm. destruct m as [t [o|status]]; cbn; [|done].
  intros ->. by apply (Hm what).
Qed.

Lemma no_logic_error_prepend {E A} (t : list E) (m : M E A) :
  no_logic_error m → no_logic_error (prepend t m).
Proof. intros Hm what. apply (Hm what). Qed.

(** Proves [no_logic_error] of a chain of binds whose ends are returns,
    events, and stops that are not a [std::logic_error]. *)
Ltac no_logic :=
  repeat first
    [ apply no_logic_error_ret
    | apply no_logic_error_emit
    | apply no_logic_error_bind; [|intros ?]
    | apply no_logic_error_prepend
    | match goal with
      | |- ∀ _, _ => intros ?
      | |- no_logic_error (match ?x with _ => _ end) => destruct x
      | |- no_logic_error (let '(_, _) := ?x in _) => destruct x
      end
    | by intros ? ].

Variable W : World.
Variable a : Args.

Lemma no_logic_error_createDenseSfMData {E} (sfmData : SfMData) (mp : MultiViewParams)
    (vertices : list Point3d) (ptsCams : list (list nat)) :
  no_logic_error (createDenseSfMData (E:=E) W sfmData mp vertices ptsCams).
Proof.
  unfold createDenseSfMData. generalize (set_landmarks sfmData ∅) as out. generalize 0%nat.
  induction vertices as [|point vertices IH]; intros i out; cbn [add_landmarks]; [no_logic|].
  apply no_logic_error_bind; [no_logic|]. intros cams.
  apply no_logic_error_bind; [|intros ?; apply IH].
  generalize {| X := (x point, y point, z point); descType := UNKNOWN;
                observations := ∅;
                landmark_rgb := {| r := 255%N; g := 255%N; b := 255%N |} |} as landmark.
  induction cams as [|cam cams IHc]; intros landmark; cbn [add_observations]; [no_logic|].
  apply no_logic_error_bind; [unfold make_observation; no_logic|].
  intros [viewId observation]. apply IHc.
Qed.

Lemma no_logic_error_vertex_colors (landmarks : gmap IndexT Landmark) (i n : nat) :
  no_logic_error (vertex_colors landmarks i n).
Proof.
  revert i. induction n as [|n IH]; intros i; cbn [vertex_colors]; [no_logic|].
  apply no_logic_error_bind; [no_logic|]. intros c.
  apply no_logic_error_bind; [apply IH | no_logic].
Qed.

Lemma no_logic_error_generate_output (sfmData : SfMData) (mp : MultiViewParams)
    (mesh : option Mesh) (ptsCams : list (list nat)) :
  no_logic_error (generate_output W a sfmData mp mesh ptsCams).
Proof.
  unfold generate_output.
  apply no_logic_error_bind; [no_logic|]. intros m.
  apply no_logic_error_bind; [no_logic|]. intros _.
  apply no_logic_error_bind; [apply no_logic_error_createDenseSfMData|]. intros dense.
  apply no_logic_error_bind; [|no_logic].
  destruct (colorizeOutput a); [|no_logic].
  apply no_logic_error_bind; [apply no_logic_error_vertex_colors | no_logic].
Qed.

Lemma no_logic_error_single_block (sfmData : SfMData) (outDirectory : string) :
  used_cams W a sfmData ≠ [] →
  no_logic_error
    (single_block W a sfmData (make_mp W a sfmData (from_depth_maps a)) outDirectory
       (from_depth_maps a)
       (if from_depth_maps a then addLandmarksToTheDensePointCloud a else true)).
Proof.
  unfold used_cams, intersecting_cams, estimated_hexah, single_block.
  intros Hcams.
  assert (Hempty : ∀ l : list nat, l ≠ [] → empty l = false) by (by intros []).
  destruct (from_depth_maps a); destruct (estimateSpaceFromSfM a);
    cbn [andb negb] in *; mnorm; rewrite (Hempty _ Hcams); mnorm;
    repeat apply no_logic_error_prepend;
    match goal with
    | |- context [createDensePointCloud W ?m ?h ?c ?s ?f] =>
        destruct (createDensePointCloud W m h c s f) as [verticesCoords rawPtsCams]
    end;
    (apply no_logic_error_bind; [|no_logic]);
    (destruct (saveRawDensePointCloud a); [|no_logic]);
    unfold save_raw_dense_point_cloud;
    (apply no_logic_error_bind; [no_logic|]); intros _;
    (apply no_logic_error_bind; [apply no_logic_error_createDenseSfMData | no_logic]).
Qed.

End NoLogicError.

(** * Properties of the meshing driver *)

Section MeshingProperties.
Import Meshing.

(** C2, against the claim as stated: with a folder of depth maps and the
    partitioning 'auto', the dataset is read and the output directory is
    created before the mode is rejected. *)
Lemma auto_partitioning_rejected_after_reading :
  let r := run (aliceVision_main (MeshingExample.world [0%nat] None)
                  (MeshingExample.args "depthMaps" (EPartitioning_stringToEnum "auto")
                     false false)) in
  In (LoadSfMData "cameras.sfm") (trace r)
  ∧ In (CreateDirectory "out") (trace r)
  ∧ outcome r
    = Throw (invalid_argument
        "Meshing mode: 'multiResolution', partitioning: 'auto' is not yet implemented.").
Proof. vm_compute. intuition. Qed.

(** C2, amended: with the partitioning 'auto', or an undefined
    partitioning or repartition mode, the run never estimates the
    bounding volume and writes no file.  Without a folder of depth maps
    it returns [EXIT_FAILURE] before it reads the dataset.  With one, it
    first reads the dataset (and returns [EXIT_FAILURE] if that fails),
    creates the output directory if it is missing, and only then throws
    [std::invalid_argument]. *)
Theorem rejected_modes_fail (W : World) (a : Args) :
  partitioningMode a = ePartitioningAuto
  ∨ partitioningMode a = ePartitioningUndefined
  ∨ repartitionMode a = eRepartitionUndefined →
  let r := run (aliceVision_main W a) in
  let outDirectory := parent_path (outputMesh a) in
  ¬ estimates_space (trace r)
  ∧ files_written (trace r) = []
  ∧ (depthMapsFolder a = EmptyString →
     r = ([LOG_ERROR "Invalid input options"], Exit EXIT_FAILURE))
  ∧ (depthMapsFolder a ≠ EmptyString →
     sfmDataIO_Load W (sfmDataFilename a) = None →
     ∃ msg, r = ([LoadSfMData (sfmDataFilename a); LOG_ERROR msg], Exit EXIT_FAILURE))
  ∧ (depthMapsFolder a ≠ EmptyString →
     sfmDataIO_Load W (sfmDataFilename a) ≠ None →
     ∃ what,
       r = (LoadSfMData (sfmDataFilename a)
              :: (if is_directory W outDirectory then []
                  else [CreateDirectory outDirectory])
              ++ [LOG_WARNING "repartitionMode"; LOG_WARNING "partitioningMode"],
            Throw (invalid_argument what))).
Proof.
  intros Hbad r outDirectory.
  assert (Hrej : ¬ modes_accepted a).
  { intros [Hr Hp]. destruct Hbad as [H|[H|H]]; congruence. }
  pose proof (check_input_options_rejected a Hrej) as Hopt.
  destruct (decide (depthMapsFolder a = EmptyString)) as [Hd|Hd].
  - rewrite bool_decide_true in Hopt by done.
    assert (Hr : r = ([LOG_ERROR "Invalid input options"], Exit EXIT_FAILURE)).
    { subst r. unfold aliceVision_main. by rewrite Hopt. }
    rewrite Hr. split; [unfold estimates_space; cbn; intuition discriminate|].
    by repeat split.
  - rewrite bool_decide_false in Hopt by done.
    destruct (sfmDataIO_Load W (sfmDataFilename a)) as [sfmData|] eqn:Hload.
    + destruct (make_mesh_rejected W a sfmData (make_mp W a sfmData true) outDirectory
                  true (addLandmarksToTheDensePointCloud a) Hrej) as [what Hmesh].
      assert (Hr : r = (LoadSfMData (sfmDataFilename a)
                          :: (if is_directory W outDirectory then []
                              else [CreateDirectory outDirectory])
                          ++ [LOG_WARNING "repartitionMode"; LOG_WARNING "partitioningMode"],
                        Throw (invalid_argument what))).
      { subst r. rewrite (main_loaded W a sfmData _ _ Hopt Hload).
        fold outDirectory. rewrite Hmesh, bind_stop. unfold run, prepend. cbn [fst snd].
        by rewrite app_nil_r. }
      rewrite Hr. unfold trace, estimates_space. cbn [fst].
      split; [destruct (is_directory W outDirectory); cbn; intuition discriminate|].
      split; [by destruct (is_directory W outDirectory)|].
      split; [done|]. split; [done|]. eauto.
    + assert (Hr : ∃ msg, r = ([LoadSfMData (sfmDataFilename a); LOG_ERROR msg],
                               Exit EXIT_FAILURE)).
      { subst r. unfold aliceVision_main.
        rewrite Hopt, bind_pure. cbv beta iota. rewrite bind_emit_prepend, Hload.
        eexists. reflexivity. }
      destruct Hr as [msg Hr]. rewrite Hr.
      split; [unfold estimates_space; cbn; intuition discriminate|].
      split; [done|]. split; [done|].
      split; [eauto|done].
Qed.

Lemma rejected_modes_fail_witness :
  let W := MeshingExample.world [0%nat] None in
  let a := MeshingExample.args "depthMaps" ePartitioningAuto false false in
  let r := run (aliceVision_main W a) in
  ¬ estimates_space (trace r)
  ∧ files_written (trace r) = []
  ∧ (depthMapsFolder a = EmptyString →
     r = ([LOG_ERROR "Invalid input options"], Exit EXIT_FAILURE))
  ∧ (depthMapsFolder a ≠ EmptyString →
     sfmDataIO_Load W (sfmDataFilename a) = None →
     ∃ msg, r = ([LoadSfMData (sfmDataFilename a); LOG_ERROR msg], Exit EXIT_FAILURE))
  ∧ (depthMapsFolder a ≠ EmptyString →
     sfmDataIO_Load W (sfmDataFilename a) ≠ None →
     ∃ what,
       r = (LoadSfMData (sfmDataFilename a)
              :: (if is_directory W (parent_path (outputMesh a)) then []
                  else [CreateDirectory (parent_path (outputMesh a))])
              ++ [LOG_WARNING "repartitionMode"; LOG_WARNING "partitioningMode"],
            Throw (invalid_argument what))).
Proof.
  apply (rejected_modes_fail (MeshingExample.world [0%nat] None)
           (MeshingExample.args "depthMaps" ePartitioningAuto false false)).
  left. reflexivity.
Defined.

(** C7, against the claim as stated: without a folder of depth maps the
    cameras are not tested against the volume; no camera intersects it
    and the run does not fail. *)
Lemma sfm_meshing_ignores_the_volume :
  let W := MeshingExample.world [] (Some MeshingExample.triangle) in
  let a := MeshingExample.args EmptyString ePartitioningSingleBlock false false in
  intersecting_cams W a MeshingExample.scene = []
  ∧ outcome (run (aliceVision_main W a)) = Exit EXIT_SUCCESS.
Proof. by vm_compute. Qed.

(** C7, amended: in a run that reads its dataset and accepts its modes,
    - with a folder of depth maps, the run throws
      [std::logic_error("No camera to make the reconstruction")] exactly
      when no camera intersects the estimated volume;
    - without one, the cameras are not tested against the volume: all of
      them are used, and the run throws that error exactly when the
      dataset has no camera at all;
    - when it throws it, no dense point cloud has been made and no file
      has been written. *)
Theorem no_camera_fails (W : World) (a : Args) (sfmData : SfMData) :
  modes_accepted a →
  sfmDataIO_Load W (sfmDataFilename a) = Some sfmData →
  let r := run (aliceVision_main W a) in
  let no_camera := Throw (logic_error "No camera to make the reconstruction") in
  (from_depth_maps a = true →
     (outcome r = no_camera ↔ intersecting_cams W a sfmData = []))
  ∧ (from_depth_maps a = false →
     (outcome r = no_camera ↔ getNbCameras (make_mp W a sfmData false) = 0%nat))
  ∧ (outcome r = no_camera →
     files_written (trace r) = []
     ∧ ∀ cams, ¬ In (CreateDensePointCloud cams) (trace r)).
Proof.
  intros Hmodes Hload r no_camera.
  assert (Hmain := main_accepted W a sfmData Hmodes Hload).
  assert (Hnone : used_cams W a sfmData = [] →
            outcome r = no_camera ∧ files_written (trace r) = []
            ∧ ∀ cams, ¬ In (CreateDensePointCloud cams) (trace r)).
  { intros Hcams.
    destruct (single_block_no_camera W a sfmData (parent_path (outputMesh a)) Hcams)
      as (T & Hrun & Hfiles & Hcloud).
    subst r. rewrite Hmain, Hrun, bind_stop, prepend_pair.
    unfold run, trace, outcome. cbn [fst snd].
    split; [done|]. split; [by rewrite files_written_prefix|].
    intros cams. by rewrite In_prefix. }
  assert (Hsome : used_cams W a sfmData ≠ [] → outcome r ≠ no_camera).
  { intros Hcams. subst r. rewrite Hmain. apply no_logic_error_outcome.
    apply no_logic_error_prepend, no_logic_error_bind.
    - by apply no_logic_error_single_block.
    - intros [mesh ptsCams]. apply no_logic_error_generate_output. }
  assert (Hiff : outcome r = no_camera ↔ used_cams W a sfmData = []).
  { split; [|intros Hcams; by apply Hnone].
    intros Hout. destruct (decide (used_cams W a sfmData = [])) as [|Hne]; [done|].
    by destruct (Hsome Hne). }
  split; [|split].
  - intros Hdepth. rewrite Hiff. unfold used_cams. by rewrite Hdepth.
  - intros Hdepth. rewrite Hiff. unfold used_cams. rewrite Hdepth.
    destruct (getNbCameras _); [done|]. by cbn.
  - intros Hout. by apply Hnone, Hiff.
Qed.

Lemma no_camera_fails_witness :
  let W := MeshingExample.world [] (Some MeshingExample.triangle) in
  let a := MeshingExample.args "depthMaps" ePartitioningSingleBlock false false in
  let r := run (aliceVision_main W a) in
  let no_camera := Throw (logic_error "No camera to make the reconstruction") in
  (from_depth_maps a = true →
     (outcome r = no_camera ↔ intersecting_cams W a MeshingExample.scene = []))
  ∧ (from_depth_maps a = false →
     (outcome r = no_camera
      ↔ getNbCameras (make_mp W a MeshingExample.scene false) = 0%nat))
  ∧ (outcome r = no_camera →
     files_written (trace r) = []
     ∧ ∀ cams, ¬ In (CreateDensePointCloud cams) (trace r)).
Proof.
  apply (no_camera_fails (MeshingExample.world [] (Some MeshingExample.triangle))
           (MeshingExample.args "depthMaps" ePartitioningSingleBlock false false)
           MeshingExample.scene).
  - split; reflexivity.
  - reflexivity.
Defined.

(** C1, against the claim as stated: the raw dense point cloud, when it
    is asked for, is written before the mesh is made, and stays when no
    valid mesh comes out. *)
Lemma raw_cloud_written_without_mesh :
  let W := MeshingExample.world [0; 1]%nat None in
  let a := MeshingExample.args "depthMaps" ePartitioningSingleBlock true false in
  let r := run (aliceVision_main W a) in
  outcome r = Throw (runtime_error "No valid mesh was generated.")
  ∧ files_written (trace r) = ["out/densePointCloud_raw.abc"].
Proof. by vm_compute. Qed.

(** C1, amended: when the reconstruction gives a null mesh, or a mesh
    without vertices or without triangles, the run throws
    [std::runtime_error("No valid mesh was generated.")]; neither the
    dense SfMData file nor the OBJ file is written, and the only file the
    driver has written is the raw dense point cloud, in the runs that ask
    for it with [saveRawDensePointCloud]. *)
Theorem no_valid_mesh_fails (W : World) (a : Args) (sfmData : SfMData) :
  reconstructs W a sfmData →
  no_valid_mesh (final_mesh W a sfmData).1 →
  let r := run (aliceVision_main W a) in
  outcome r = Throw (runtime_error "No valid mesh was generated.")
  ∧ files_written (trace r)
    = (if saveRawDensePointCloud a
       then [path_append (parent_path (outputMesh a)) "densePointCloud_raw.abc"]
       else [])
  ∧ (∀ path mesh, ¬ In (SaveToObj path mesh) (trace r))
  ∧ (∀ path data, In (SaveSfMData path data) (trace r) →
       saveRawDensePointCloud a = true
       ∧ path = path_append (parent_path (outputMesh a)) "densePointCloud_raw.abc").
Proof.
  intros Hrec Hmesh r.
  pose proof Hrec as (Hr & Hp & Hload & _).
  destruct (single_block_reconstructs W a sfmData Hrec)
    as (T & Hrun & Hfiles & _ & _ & Hobj).
  assert (Hrun' : r = ((LoadSfMData (sfmDataFilename a)
                          :: (if is_directory W (parent_path (outputMesh a)) then []
                              else [CreateDirectory (parent_path (outputMesh a))])
                          ++ [LOG_WARNING "repartitionMode";
                              LOG_WARNING "partitioningMode"]) ++ T,
                       Throw (runtime_error "No valid mesh was generated."))).
  { subst r. rewrite (main_accepted W a sfmData (conj Hr Hp) Hload), Hrun.
    rewrite bind_value_prepend. destruct (final_mesh W a sfmData) as [mesh ptsCams].
    cbv beta iota. rewrite (generate_output_no_mesh W a _ _ _ _ Hmesh).
    mgather. unfold run. cbn [fst snd]. by rewrite app_nil_r. }
  rewrite Hrun'. unfold trace, outcome. cbn [fst snd].
  split; [done|]. split; [by rewrite files_written_prefix|]. split.
  - intros path mesh. rewrite In_prefix by done. apply Hobj.
  - intros path data. rewrite In_prefix by done. intros Hin.
    assert (Hpath : In path (files_written T)).
    { apply list_elem_of_In, list_elem_of_omap.
      exists (SaveSfMData path data). by rewrite list_elem_of_In. }
    rewrite Hfiles in Hpath. destruct (saveRawDensePointCloud a); [|done].
    destruct Hpath as [<-|[]]. done.
Qed.

Lemma no_valid_mesh_fails_witness :
  let W := MeshingExample.world [0; 1]%nat None in
  let a := MeshingExample.args "depthMaps" ePartitioningSingleBlock true false in
  let r := run (aliceVision_main W a) in
  outcome r = Throw (runtime_error "No valid mesh was generated.")
  ∧ files_written (trace r)
    = (if saveRawDensePointCloud a
       then [path_append (parent_path (outputMesh a)) "densePointCloud_raw.abc"]
       else [])
  ∧ (∀ path mesh, ¬ In (SaveToObj path mesh) (trace r))
  ∧ (∀ path data, In (SaveSfMData path data) (trace r) →
       saveRawDensePointCloud a = true
       ∧ path = path_append (parent_path (outputMesh a)) "densePointCloud_raw.abc").
Proof.
  apply (no_valid_mesh_fails (MeshingExample.world [0; 1]%nat None)
           (MeshingExample.args "depthMaps" ePartitioningSingleBlock true false)
           MeshingExample.scene).
  - split; [reflexivity|]. split; [reflexivity|]. split; [reflexivity|].
    split; [by vm_compute|]. intros _.
    apply (bool_decide_unpack _). by vm_compute.
  - exact I.
Defined.

Lemma landmark_key_is_vertex (n : nat) (k : IndexT) :
  (N.of_nat n <= 2 ^ 32)%N →
  ¬ (∀ i, (i < n)%nat → k ≠ to_IndexT i) →
  ∃ i, (i < n)%nat ∧ k = to_IndexT i.
Proof.
  intros Hn Hk. destruct (decide (N.to_nat k < n)%nat) as [Hlt|Hge].
  - exists (N.to_nat k). split; [done|].
    unfold to_IndexT. rewrite N2Nat.id, N.mod_small; [done | lia].
  - destruct Hk. intros i Hi ->. apply Hge.
    unfold to_IndexT. rewrite N.mod_small by lia. by rewrite Nat2N.id.
Qed.

(** C4: in a run that gives a valid mesh whose visibilities name cameras
    of the dataset, the last events are the saving of the dense point
    cloud and of the mesh, and the dense point cloud is as follows.  For
    every vertex of the mesh with a camera in its visibility list there
    is a landmark, under the index of the vertex, at the position of the
    vertex; its observations are those of the cameras of the list and no
    other, each one the projection of the point into the camera with the
    distortion applied, and there is exactly one for each camera when the
    cameras of the list are distinct.  A vertex whose visibility list is
    empty has no landmark, and there is no landmark but those of the
    vertices. *)
Theorem dense_point_cloud_landmarks (W : World) (a : Args) (sfmData : SfMData)
    (mesh : Mesh) (ptsCams : list (list nat)) :
  reconstructs W a sfmData →
  final_mesh W a sfmData = (Some mesh, ptsCams) →
  pts mesh ≠ [] → tris mesh ≠ [] →
  views_consistent sfmData →
  visibilities_ok sfmData (make_mp W a sfmData (from_depth_maps a))
    (length (pts mesh)) ptsCams →
  let mp := make_mp W a sfmData (from_depth_maps a) in
  ∃ T densePointCloud mesh',
    run (aliceVision_main W a)
    = (T ++ [LOG_INFO "Save dense point cloud.";
             SaveSfMData (outputDensePointCloud a) densePointCloud;
             LOG_INFO "Save obj mesh file.";
             SaveToObj (outputMesh a) mesh';
             LOG_INFO "Task done"], Exit EXIT_SUCCESS)
    ∧ pts mesh' = pts mesh ∧ tris mesh' = tris mesh
    ∧ (∀ i point cams, pts mesh !! i = Some point → ptsCams !! i = Some cams →
         (cams ≠ [] →
            ∃ landmark,
              landmarks densePointCloud !! to_IndexT i = Some landmark
              ∧ X landmark = (x point, y point, z point)
              ∧ (∀ cam, cam ∈ cams →
                   ∃ vip, camera_view sfmData mp cam = Some vip
                          ∧ observations landmark !! getViewId vip.1.1
                            = Some {| obs_x := project W vip.1.2 vip.2 (X landmark) true;
                                      id_feat := UndefinedIndexT;
                                      scale := unknownScale |})
              ∧ (∀ viewId o, observations landmark !! viewId = Some o →
                   ∃ cam vip, cam ∈ cams ∧ camera_view sfmData mp cam = Some vip
                              ∧ getViewId vip.1.1 = viewId
                              ∧ o = reprojection W vip (X landmark))
              ∧ (distinct_cameras sfmData mp cams →
                   size (observations landmark) = length cams))
         ∧ (cams = [] → landmarks densePointCloud !! to_IndexT i = None))
    ∧ (∀ k landmark, landmarks densePointCloud !! k = Some landmark →
         ∃ i, (i < length (pts mesh))%nat ∧ k = to_IndexT i).
Proof.
  intros Hrec Hfinal Hpts Htris Hcons Hvis mp.
  pose proof Hrec as (Hr & Hp & Hload & _).
  destruct (single_block_reconstructs W a sfmData Hrec) as (T & Hrun & _).
  destruct (generate_output_saves W a sfmData mp mesh ptsCams Hpts Htris Hcons Hvis)
    as (out & mesh' & Hout & Hpts' & Htris' & Hstored & Hother).
  exists ((LoadSfMData (sfmDataFilename a)
             :: (if is_directory W (parent_path (outputMesh a)) then []
                 else [CreateDirectory (parent_path (outputMesh a))])
             ++ [LOG_WARNING "repartitionMode"; LOG_WARNING "partitioningMode"]) ++ T),
    (removeLandmarksWithoutObservations out), mesh'. split.
  { rewrite (main_accepted W a sfmData (conj Hr Hp) Hload), Hrun.
    rewrite bind_value_prepend, Hfinal. cbv beta iota. fold mp. rewrite Hout.
    mgather. unfold run. cbn [fst snd]. reflexivity. }
  split; [done|]. split; [done|]. split.
  - intros i point cams Hpoint Hcams.
    destruct (stored_removed W sfmData out mp ptsCams i point cams
                (Hstored i point Hpoint) Hcams) as [Hkept Hdropped].
    split; [|done]. intros Hne.
    destruct (Hkept Hne) as (landmark & Hl & HX & Hobs).
    exists landmark. split; [done|]. split; [done|].
    split; [apply Hobs|]. split; [apply Hobs|].
    intros Hdistinct. by eapply observed_by_size.
  - intros k landmark Hk.
    apply removeLandmarksWithoutObservations_lookup in Hk as [Hk _].
    apply landmark_key_is_vertex; [apply Hvis|].
    intros Hnone. by rewrite (Hother k Hnone) in Hk.
Qed.

Lemma dense_point_cloud_landmarks_witness :
  let W := MeshingExample.world [0; 1]%nat (Some MeshingExample.triangle) in
  let a := MeshingExample.args "depthMaps" ePartitioningSingleBlock false true in
  let sfmData := MeshingExample.scene in
  let mesh := MeshingExample.triangle in
  let ptsCams := MeshingExample.visibilities in
  let mp := make_mp W a sfmData (from_depth_maps a) in
  ∃ T densePointCloud mesh',
    run (aliceVision_main W a)
    = (T ++ [LOG_INFO "Save dense point cloud.";
             SaveSfMData (outputDensePointCloud a) densePointCloud;
             LOG_INFO "Save obj mesh file.";
             SaveToObj (outputMesh a) mesh';
             LOG_INFO "Task done"], Exit EXIT_SUCCESS)
    ∧ pts mesh' = pts mesh ∧ tris mesh' = tris mesh
    ∧ (∀ i point cams, pts mesh !! i = Some point → ptsCams !! i = Some cams →
         (cams ≠ [] →
            ∃ landmark,
              landmarks densePointCloud !! to_IndexT i = Some landmark
              ∧ X landmark = (x point, y point, z point)
              ∧ (∀ cam, cam ∈ cams →
                   ∃ vip, camera_view sfmData mp cam = Some vip
                          ∧ observations landmark !! getViewId vip.1.1
                            = Some {| obs_x := project W vip.1.2 vip.2 (X landmark) true;
                                      id_feat := UndefinedIndexT;
                                      scale := unknownScale |})
              ∧ (∀ viewId o, observations landmark !! viewId = Some o →
                   ∃ cam vip, cam ∈ cams ∧ camera_view sfmData mp cam = Some vip
                              ∧ getViewId vip.1.1 = viewId
                              ∧ o = reprojection W vip (X landmark))
              ∧ (distinct_cameras sfmData mp cams →
                   size (observations landmark) = length cams))
         ∧ (cams = [] → landmarks densePointCloud !! to_IndexT i = None))
    ∧ (∀ k landmark, landmarks densePointCloud !! k = Some landmark →
         ∃ i, (i < length (pts mesh))%nat ∧ k = to_IndexT i).
Proof.
  apply (dense_point_cloud_landmarks
           (MeshingExample.world [0; 1]%nat (Some MeshingExample.triangle))
           (MeshingExample.args "depthMaps" ePartitioningSingleBlock false true)
           MeshingExample.scene MeshingExample.triangle MeshingExample.visibilities).
  - split; [reflexivity|]. split; [reflexivity|]. split; [reflexivity|].
    split; [by vm_compute|]. intros Hraw. by vm_compute in Hraw.
  - reflexivity.
  - by vm_compute.
  - by vm_compute.
  - apply (bool_decide_unpack _). by vm_compute.
  - apply (bool_decide_unpack _). by vm_compute.
Defined.

End MeshingProperties.

(** * More on the sampling driver *)

Section SamplingPaths.
Import LdrToHdrSampling.

Lemma to_string_inj (n m : nat) : to_string n = to_string m → n = m.
Proof.
  unfold to_string. intros Heq.
  assert (Hnonnil : ∀ k, Nat.to_uint k ≠ Decimal.Nil).
  { intros k Hk. pose proof (DecimalNat.Unsigned.of_to k) as Hof.
    rewrite Hk in Hof. cbn in Hof. subst k. discriminate. }
  apply DecimalNat.Unsigned.to_uint_inj.
  pose proof (NilZero.usu _ (Hnonnil n)) as Hn.
  pose proof (NilZero.usu _ (Hnonnil m)) as Hm.
  rewrite Heq in Hn. congruence.
Qed.

Lemma string_app_inj_l (p s1 s2 : string) : (p ++ s1 = p ++ s2)%string → s1 = s2.
Proof. induction p as [|c p IH]; cbn; [done|]. intros [= H]. by apply IH. Qed.

Lemma string_length_app (s1 s2 : string) :
  String.length (s1 ++ s2) = (String.length s1 + String.length s2)%nat.
Proof.
  induction s1 as [|c s1 IH]; [done|].
  change (S (String.length (s1 ++ s2)) = S (String.length s1 + String.length s2)).
  by rewrite IH.
Qed.

Lemma string_app_inj_r (s1 s2 suffix : string) :
  (s1 ++ suffix = s2 ++ suffix)%string → s1 = s2.
Proof.
  intros Heq.
  assert (Hlen : String.length s1 = String.length s2).
  { apply (f_equal String.length) in Heq.
    rewrite !string_length_app in Heq. lia. }
  revert s2 Heq Hlen. induction s1 as [|c s1 IH]; intros [|c2 s2] Heq Hlen;
    cbn in *; try done.
  injection Heq as -> Heq. f_equal. apply IH; [done | lia].
Qed.

(** Different groups have different samples files. *)
Lemma samplesFilepath_inj (outputFolder : string) (i j : nat) :
  samplesFilepath outputFolder i = samplesFilepath outputFolder j → i = j.
Proof.
  unfold samplesFilepath, path_append. intros Heq.
  apply to_string_inj, (string_app_inj_r _ _ "_samples.dat").
  case_bool_decide; [done|].
  destruct (ends_with_slash outputFolder).
  - by apply string_app_inj_l in Heq.
  - apply string_app_inj_l in Heq. by apply (string_app_inj_l "/") in Heq.
Qed.

End SamplingPaths.

Section SamplingRuns.
Import MachineInt LdrToHdrSampling.

Variable W : World.
Variable a : Args.

Lemma run_shape_quiet (T : list Event) (o : Outcome) :
  files_written T = [] → groups_processed T = [] → run_shape W a T o.
Proof. intros Hf Hp. exists 0%nat, 0%nat. split; [done|]. by left. Qed.

Lemma process_range_shape (groupedViews : list (list View)) (width height : N)
    (channelQuantization : Z) :
  run_shape W a (run (process_range W a groupedViews width height channelQuantization)).1
    (run (process_range W a groupedViews width height channelQuantization)).2.
Proof.
  unfold process_range.
  destruct (define_range_quiet a groupedViews) as [(rs & rz & ->)| ->];
    [|by apply run_shape_quiet].
  rewrite bind_pure. cbv beta iota. rewrite bind_emit_prepend.
  set (first := Z.to_nat (to_size_t rs)).
  set (n := Z.to_nat _).
  destruct (process_groups_shape W a groupedViews width height channelQuantization n first)
    as (k & T & res & -> & Hk & Hfiles & Hopens & Hres).
  exists first, k.
  destruct Hres as [(-> & -> & Hp)|[(-> & Hlt & Hp & Hclosed & Hidx)|(-> & Hlt & Hp & Hidx)]];
    rewrite ?bind_value_prepend, ?bind_stop;
    unfold files_written, groups_processed in *; cbn; rewrite ?app_nil_r;
    (split; [done|]).
  - by left.
  - right. by rewrite <- seq_S.
  - by left.
Qed.

Lemma main_shape :
  run_shape W a (trace (run (aliceVision_main W a))) (outcome (run (aliceVision_main W a))).
Proof.
  unfold aliceVision_main.
  destruct (sfmDataIO_Load W _) as [sfmData|]; [|by apply run_shape_quiet].
  rewrite bind_ret. case_bool_decide; [by apply run_shape_quiet|]. rewrite bind_ret.
  destruct (getIntrinsics sfmData) as [|intrinsic ?]; [by apply run_shape_quiet|].
  rewrite bind_ret.
  destruct (estimateBracketsFromSfmData W _ _) as [groupedViews|];
    [|by apply run_shape_quiet].
  rewrite bind_ret.
  destruct (check_groups_quiet groupedViews) as (T & res & -> & Hp & Hf & Hres).
  destruct Hres as [->|[->| ->]]; [|by apply run_shape_quiet..].
  rewrite bind_value_prepend.
  destruct (process_range_shape groupedViews (w intrinsic) (h intrinsic)
              (2 ^ channelQuantizationPower a)) as (first & k & Hfiles & Hproc).
  exists first, k. unfold trace, outcome, run, prepend in *. cbn [fst snd] in *.
  unfold files_written, groups_processed in *. rewrite !omap_app, Hp, Hf. done.
Qed.

End SamplingRuns.

(** * More properties of the sampling driver *)

Section SamplingExtra.
Import MachineInt LdrToHdrSampling.

(** X1: a dataset that cannot be read, that has more than one intrinsic,
    that cannot be grouped, or whose grouping is empty ends the run with
    [EXIT_FAILURE] before any group is processed or any file written.
    (An empty grouping is reported as inconsistent bracket counts.) *)
Theorem unusable_dataset_fails (W : World) (a : Args) :
  sfmDataIO_Load W (sfmInputDataFilename a) = None
  ∨ (∃ sfmData, sfmDataIO_Load W (sfmInputDataFilename a) = Some sfmData
       ∧ ((1 < length (getIntrinsics sfmData))%nat
          ∨ (∃ intrinsic, getIntrinsics sfmData = [intrinsic]
               ∧ (estimateBracketsFromSfmData W sfmData (nbBrackets a) = None
                  ∨ estimateBracketsFromSfmData W sfmData (nbBrackets a) = Some [])))) →
  outcome (run (aliceVision_main W a)) = Exit EXIT_FAILURE
  ∧ fails_before_processing (run (aliceVision_main W a)).
Proof.
  assert (Hfails : ∀ T, files_written T = [] → groups_processed T = [] →
            outcome (T, Exit EXIT_FAILURE) = Exit EXIT_FAILURE
            ∧ fails_before_processing (T, Exit EXIT_FAILURE)).
  { intros T Hf Hp. split; [done|]. by exists EXIT_FAILURE. }
  unfold aliceVision_main.
  intros [Hload|(sfmData & Hload & [Hmany|(intrinsic & Hone & [Hgroup|Hgroup])])];
    rewrite Hload.
  - by apply Hfails.
  - rewrite bind_ret, bool_decide_true by done. by apply Hfails.
  - rewrite bind_ret, Hone. cbn [length]. rewrite bool_decide_false by lia.
    rewrite !bind_ret, Hgroup. by apply Hfails.
  - rewrite bind_ret, Hone. cbn [length]. rewrite bool_decide_false by lia.
    rewrite !bind_ret, Hgroup, bind_ret. by apply Hfails.
Qed.

Lemma unusable_dataset_fails_witness :
  outcome (run (aliceVision_main SamplingExample.world_unreadable
                  (SamplingExample.args (-1) 1))) = Exit EXIT_FAILURE
  ∧ fails_before_processing
      (run (aliceVision_main SamplingExample.world_unreadable
              (SamplingExample.args (-1) 1))).
Proof.
  apply (unusable_dataset_fails SamplingExample.world_unreadable
           (SamplingExample.args (-1) 1)).
  left. reflexivity.
Defined.

(** X2: a dataset without any intrinsic passes the check of the number
    of intrinsics, and the driver then reads the first element of an
    empty map: no error is reported, the behaviour is undefined. *)
Theorem no_intrinsic_is_undefined (W : World) (a : Args) (sfmData : SfMData) :
  sfmDataIO_Load W (sfmInputDataFilename a) = Some sfmData →
  getIntrinsics sfmData = [] →
  run (aliceVision_main W a) = ([], Undefined).
Proof.
  intros Hload Hnone. unfold aliceVision_main.
  rewrite Hload, bind_ret, Hnone. done.
Qed.

Lemma no_intrinsic_is_undefined_witness :
  run (aliceVision_main SamplingExample.world_without_intrinsic
         (SamplingExample.args (-1) 1)) = ([], Undefined).
Proof.
  apply (no_intrinsic_is_undefined SamplingExample.world_without_intrinsic
           (SamplingExample.args (-1) 1)
           {| getIntrinsics := [];
              getViews := [SamplingExample.a0; SamplingExample.a1;
                           SamplingExample.b0; SamplingExample.b1] |});
    reflexivity.
Defined.



(** X4: no two files written in a run have the same path: every group
    has a samples file of its own, and none is written twice. *)
Theorem samples_files_distinct (W : World) (a : Args) :
  NoDup (files_written (trace (run (aliceVision_main W a)))).
Proof.
  destruct (main_shape W a) as (first & k & -> & _).
  apply NoDup_fmap_2_strong; [|apply NoDup_seq].
  intros i j _ _. apply samplesFilepath_inj.
Qed.

(** X5: in every run, the files written are those of the groups
    processed, in order; the only group that can lack its file is the
    last one processed, when its file did not open, and then the run has
    returned [EXIT_FAILURE].  A run that returns [EXIT_SUCCESS] has
    written one file for each group it processed. *)
Theorem file_for_every_processed_group (W : World) (a : Args) :
  let r := run (aliceVision_main W a) in
  ∃ l,
    files_written (trace r) = samplesFilepath (outputFolder a) <$> l
    ∧ (groups_processed (trace r) = l
       ∨ ∃ last, groups_processed (trace r) = l ++ [last]
                 ∧ outcome r = Exit EXIT_FAILURE
                 ∧ ofstream_is_open W (samplesFilepath (outputFolder a) last) = false)
    ∧ (outcome r = Exit EXIT_SUCCESS → groups_processed (trace r) = l).
Proof.
  intros r. destruct (main_shape W a) as (first & k & Hfiles & Hproc).
  exists (seq first k). split; [done|]. split.
  - destruct Hproc as [Hp|(Hp & Hout & Hclosed)]; [by left|].
    right. by exists (first + k)%nat.
  - intros Hsuccess. destruct Hproc as [Hp|(Hp & Hout & Hclosed)]; [done|].
    subst r. rewrite Hout in Hsuccess. discriminate.
Qed.

End SamplingExtra.

(** * More on the dense point cloud *)

Section QuietFacts.
Import Meshing.

Lemma quiet_ret {E A} (x : A) : quiet (mret x : M E A).
Proof. by split. Qed.

Lemma quiet_stop {E A} (o : Outcome) : (∀ status, o ≠ Exit status) → quiet (stop o : M E A).
Proof. intros Ho. split; [done|]. intros status [= ->]. by apply (Ho status). Qed.

Lemma quiet_bind {E A B} (m : M E A) (f : A → M E B) :
  quiet m → (∀ x, quiet (f x)) → quiet (m ≫= f).
Proof.
  destruct m as [T [o|x]]; intros [HT Hm] Hf; cbn in HT; subst T.
  - split; [done|]. intros status [= ->]. by apply (Hm status).
  - rewrite bind_pure. apply Hf.
Qed.

(** A quiet computation is just its result. *)
Lemma quiet_cases {E A} (m : M E A) :
  quiet m →
  (∃ x, m = ([], inr x)) ∨ (∃ o, m = ([], inl o) ∧ ∀ status, o ≠ Exit status).
Proof.
  destruct m as [T [o|x]]; intros [HT Hm]; cbn in HT; subst T; [right | left; eauto].
  exists o. split; [done|]. intros status ->. by apply (Hm status).
Qed.

Lemma bind_returns {E A B} (m : M E A) (f : A → M E B) (y : B) :
  (m ≫= f).2 = inr y → ∃ x, m.2 = inr x ∧ (f x).2 = inr y.
Proof. destruct m as [T [o|x]]; cbn; [done|]. eauto. Qed.

End QuietFacts.

Section DensePointCloudExtra.
Import Meshing.

Variable W : World.
Variable sfmData : SfMData.
Variable mp : MultiViewParams.
Context {E : Type}.

Lemma make_observation_quiet (pt3D : Vec3) (cam : nat) :
  quiet (make_observation (E:=E) W sfmData mp pt3D cam).
Proof.
  unfold make_observation, throw.
  repeat (apply quiet_bind; [|intros ?]);
    repeat match goal with
           | |- quiet (match ?x with _ => _ end) => destruct x
           end;
    first [apply quiet_ret | by apply quiet_stop].
Qed.

Lemma add_observations_quiet (pt3D : Vec3) (cams : list nat) (landmark : Landmark) :
  quiet (add_observations (E:=E) W sfmData mp pt3D cams landmark).
Proof.
  revert landmark. induction cams as [|cam cams IH]; intros landmark;
    cbn [add_observations]; [apply quiet_ret|].
  apply quiet_bind; [apply make_observation_quiet|]. intros [viewId observation]. apply IH.
Qed.

Lemma add_landmarks_quiet (ptsCams : list (list nat)) (vertices : list Point3d)
    (i : nat) (out0 : SfMData) :
  quiet (add_landmarks (E:=E) W sfmData mp ptsCams i vertices out0).
Proof.
  revert i out0. induction vertices as [|point vertices IH]; intros i out0;
    cbn [add_landmarks]; [apply quiet_ret|].
  apply quiet_bind; [destruct (ptsCams !! i); [apply quiet_ret | by apply quiet_stop]|].
  intros cams. apply quiet_bind; [apply add_observations_quiet|]. intros landmark. apply IH.
Qed.

(** [createDenseSfMData] emits no event, and when it fails it is by an
    exception or by undefined behaviour. *)
Lemma createDenseSfMData_quiet (vertices : list Point3d) (ptsCams : list (list nat)) :
  quiet (createDenseSfMData (E:=E) W sfmData mp vertices ptsCams).
Proof. apply add_landmarks_quiet. Qed.

Lemma make_observation_returns (pt3D : Vec3) (cam : nat) (v : IndexT * Observation) :
  (make_observation (E:=E) W sfmData mp pt3D cam).2 = inr v →
  is_Some (camera_view sfmData mp cam).
Proof.
  unfold make_observation, camera_view.
  destruct (viewIds mp !! cam) as [viewId|]; [|done]. rewrite bind_ret. cbn [mbind option_bind].
  destruct (views sfmData !! viewId) as [view|]; [|done]. rewrite bind_ret. cbn [mbind option_bind].
  destruct (intrinsics sfmData !! getIntrinsicId view) as [intrinsic|]; [|done].
  rewrite bind_ret. cbn [mbind option_bind].
  destruct (poses sfmData !! getPoseId view) as [pose|]; [|done]. eauto.
Qed.

Lemma add_observations_returns (pt3D : Vec3) (cams : list nat) (landmark landmark' : Landmark) :
  (add_observations (E:=E) W sfmData mp pt3D cams landmark).2 = inr landmark' →
  Forall (λ cam, is_Some (camera_view sfmData mp cam)) cams.
Proof.
  revert landmark. induction cams as [|cam cams IH]; intros landmark Hrun; [constructor|].
  cbn [add_observations] in Hrun.
  apply bind_returns in Hrun as ([viewId observation] & Hobs & Hrest).
  constructor; [by eapply make_observation_returns | by eapply IH].
Qed.

(** When the loop over the vertices returns, there were visibilities for
    every vertex and their cameras are cameras of the dataset; the
    cameras of the dataset are untouched; and the keys of the landmarks
    are those there were and the indices of the vertices. *)
Lemma add_landmarks_returns (ptsCams : list (list nat)) (vertices : list Point3d)
    (i : nat) (out0 out : SfMData) :
  (add_landmarks (E:=E) W sfmData mp ptsCams i vertices out0).2 = inr out →
  (∀ j, (j < length vertices)%nat →
     ∃ cams, ptsCams !! (i + j)%nat = Some cams
             ∧ Forall (λ cam, is_Some (camera_view sfmData mp cam)) cams)
  ∧ views out = views out0 ∧ intrinsics out = intrinsics out0 ∧ poses out = poses out0
  ∧ (∀ k, is_Some (landmarks out !! k)
          ↔ is_Some (landmarks out0 !! k)
            ∨ ∃ j, (j < length vertices)%nat ∧ k = to_IndexT (i + j)).
Proof.
  revert i out0. induction vertices as [|point vertices IH]; intros i out0 Hrun.
  - cbn in Hrun. injection Hrun as <-. split; [intros j Hj; cbn in Hj; lia|].
    split; [done|]. split; [done|]. split; [done|].
    intros k. split; [by left|]. intros [?|(j & Hj & _)]; [done | cbn in Hj; lia].
  - cbn [add_landmarks] in Hrun.
    apply bind_returns in Hrun as (cams & Hcams & Hrun).
    destruct (ptsCams !! i) as [cams'|] eqn:Hlookup; [|done]. injection Hcams as ->.
    apply bind_returns in Hrun as (landmark & Hobs & Hrun).
    apply add_observations_returns in Hobs.
    destruct (IH _ _ Hrun) as (Hvis & Hviews & Hintr & Hposes & Hkeys).
    split; [|split; [done|]; split; [done|]; split; [done|]].
    + intros [|j] Hj.
      * rewrite Nat.add_0_r. eauto.
      * rewrite <- Nat.add_succ_comm. apply Hvis. cbn in Hj. lia.
    + intros k. rewrite Hkeys. cbn [landmarks set_landmarks]. split.
      * intros [Hk|(j & Hj & ->)].
        -- destruct (decide (to_IndexT i = k)) as [<-|Hne].
           ++ right. exists 0%nat. split; [cbn; lia|]. by rewrite Nat.add_0_r.
           ++ left. by rewrite lookup_insert_ne in Hk.
        -- right. exists (S j). split; [cbn; lia|]. by rewrite <- Nat.add_succ_comm.
      * intros [Hk|([|j] & Hj & ->)].
        -- left. destruct (decide (to_IndexT i = k)) as [<-|Hne].
           ++ rewrite lookup_insert_eq. eauto.
           ++ by rewrite lookup_insert_ne.
        -- left. rewrite Nat.add_0_r, lookup_insert_eq. eauto.
        -- right. exists j. split; [cbn in Hj; lia|]. by rewrite Nat.add_succ_comm.
Qed.

(** The loop over the vertices returns when there are visibilities for
    every vertex and their cameras are cameras of the dataset. *)
Lemma add_landmarks_succeeds (ptsCams : list (list nat)) (vertices : list Point3d)
    (i : nat) (out0 : SfMData) :
  (∀ j, (j < length vertices)%nat →
     ∃ cams, ptsCams !! (i + j)%nat = Some cams
             ∧ Forall (λ cam, is_Some (camera_view sfmData mp cam)) cams) →
  ∃ out, add_landmarks (E:=E) W sfmData mp ptsCams i vertices out0 = ([], inr out).
Proof.
  revert i out0. induction vertices as [|point vertices IH]; intros i out0 Hvis;
    [by eexists|].
  destruct (Hvis 0%nat) as (cams & Hcams & Hfound); [cbn; lia|].
  rewrite Nat.add_0_r in Hcams. cbn [add_landmarks]. rewrite Hcams, bind_ret.
  rewrite Forall_forall in Hfound.
  destruct (add_observations_found W sfmData mp (E:=E) (x point, y point, z point) cams
              {| X := (x point, y point, z point); descType := UNKNOWN;
                 observations := ∅;
                 landmark_rgb := {| r := 255%N; g := 255%N; b := 255%N |} |} Hfound)
    as (obs & -> & _).
  rewrite bind_pure. apply IH.
  intros j Hj. rewrite Nat.add_succ_comm. apply Hvis. cbn. lia.
Qed.

End DensePointCloudExtra.

Section DenseSfMDataProperties.
Import Meshing.

Lemma createDenseSfMData_succeeds (W : World) (sfmData : SfMData)
    (mp : MultiViewParams) (vertices : list Point3d) (ptsCams : list (list nat)) :
  (length vertices ≤ length ptsCams)%nat →
  cameras_resolve sfmData mp (take (length vertices) ptsCams) →
  ∃ out, createDenseSfMData (E:=Event) W sfmData mp vertices ptsCams = ([], inr out).
Proof.
  intros Hlen Hall. unfold createDenseSfMData, cameras_resolve in *.
  apply (add_landmarks_succeeds W sfmData mp ptsCams vertices 0%nat).
  intros j Hj. cbn.
  destruct (lookup_lt_is_Some_2 ptsCams j) as [cams Hcams]; [lia|].
  exists cams. split; [done|].
  apply (Forall_lookup_1 _ _ j cams Hall). by rewrite lookup_take_lt.
Qed.

(** X6: [createDenseSfMData] returns a dataset exactly when there is a
    visibility list for every vertex and every camera named for a vertex
    resolves to a view, an intrinsic and a pose of the dataset.  In every
    other case it stops, by an exception or in undefined behaviour,
    never with an exit status, and in no case does it emit anything. *)
Theorem createDenseSfMData_returns_iff (W : World) (sfmData : SfMData)
    (mp : MultiViewParams) (vertices : list Point3d) (ptsCams : list (list nat)) :
  ((∃ out, createDenseSfMData (E:=Event) W sfmData mp vertices ptsCams = ([], inr out))
   ↔ (length vertices ≤ length ptsCams)%nat
     ∧ cameras_resolve sfmData mp (take (length vertices) ptsCams))
  ∧ ((∃ out, createDenseSfMData (E:=Event) W sfmData mp vertices ptsCams = ([], inr out))
     ∨ (∃ o, createDenseSfMData (E:=Event) W sfmData mp vertices ptsCams = ([], inl o)
            ∧ ∀ status, o ≠ Exit status)).
Proof.
  split; [|apply quiet_cases, createDenseSfMData_quiet].
  unfold createDenseSfMData, cameras_resolve. split.
  - intros [out Hrun].
    assert (Hrun' : (add_landmarks (E:=Event) W sfmData mp ptsCams 0 vertices
                       (set_landmarks sfmData ∅)).2 = inr out) by (by rewrite Hrun).
    apply add_landmarks_returns in Hrun' as (Hvis & _).
    assert (Hlen : (length vertices ≤ length ptsCams)%nat).
    { destruct (decide (length vertices = 0%nat)) as [->|Hne]; [lia|].
      destruct (Hvis (length vertices - 1)%nat) as (cams & Hcams & _); [lia|].
      apply lookup_lt_Some in Hcams. lia. }
    split; [done|]. apply Forall_lookup. intros j cams Hcams.
    apply lookup_take_Some in Hcams as [Hcams Hj].
    destruct (Hvis j Hj) as (cams' & Hcams' & Hfound). cbn in Hcams'. congruence.
  - intros [Hlen Hall]. by apply createDenseSfMData_succeeds.
Qed.

(** X7: the dataset [createDenseSfMData] returns has the views,
    intrinsics and poses of the reference dataset and exactly one landmark
    for each vertex, under the index of the vertex; none of the landmarks
    of the reference dataset is kept. *)
Theorem createDenseSfMData_replaces_landmarks (W : World) (sfmData : SfMData)
    (mp : MultiViewParams) (vertices : list Point3d) (ptsCams : list (list nat)) :
  (length vertices ≤ length ptsCams)%nat →
  cameras_resolve sfmData mp (take (length vertices) ptsCams) →
  (N.of_nat (length vertices) <= 2 ^ 32)%N →
  ∃ out,
    createDenseSfMData (E:=Event) W sfmData mp vertices ptsCams = ([], inr out)
    ∧ views out = views sfmData ∧ intrinsics out = intrinsics sfmData
    ∧ poses out = poses sfmData
    ∧ dom (landmarks out) = list_to_set (to_IndexT <$> seq 0 (length vertices))
    ∧ size (landmarks out) = length vertices.
Proof.
  intros Hlen Hall Hbound.
  destruct (createDenseSfMData_succeeds W sfmData mp vertices ptsCams Hlen Hall)
    as [out Hrun].
  exists out. split; [done|]. unfold createDenseSfMData in Hrun.
  assert (Hrun' : (add_landmarks (E:=Event) W sfmData mp ptsCams 0 vertices
                     (set_landmarks sfmData ∅)).2 = inr out) by (by rewrite Hrun).
  apply add_landmarks_returns in Hrun' as (_ & Hviews & Hintr & Hposes & Hkeys).
  split; [done|]. split; [done|]. split; [done|].
  assert (Hdom : dom (landmarks out)
                 = list_to_set (to_IndexT <$> seq 0 (length vertices))).
  { apply set_eq. intros k.
    rewrite elem_of_dom, Hkeys, elem_of_list_to_set, list_elem_of_fmap.
    cbn [landmarks set_landmarks]. rewrite lookup_empty. split.
    - intros [[? [=]]|(j & Hj & ->)]. exists j. split; [done|].
      apply elem_of_seq. lia.
    - intros (j & -> & Hj%elem_of_seq). right. exists j. split; [lia | done]. }
  split; [done|].
  rewrite <- size_dom, Hdom, size_list_to_set.
  - by rewrite length_fmap, length_seq.
  - apply NoDup_fmap_2_strong; [|apply NoDup_seq].
    intros i j Hi%elem_of_seq Hj%elem_of_seq. apply to_IndexT_inj; lia.
Qed.

Lemma createDenseSfMData_replaces_landmarks_witness :
  let W := MeshingExample.world [0; 1]%nat (Some MeshingExample.triangle) in
  let sfmData := MeshingExample.sparse_scene in
  let vertices := [MeshingExample.p0; MeshingExample.p1; MeshingExample.p2] in
  ∃ out,
    createDenseSfMData (E:=Event) W sfmData MeshingExample.cameras vertices
      MeshingExample.visibilities = ([], inr out)
    ∧ views out = views sfmData ∧ intrinsics out = intrinsics sfmData
    ∧ poses out = poses sfmData
    ∧ dom (landmarks out) = list_to_set (to_IndexT <$> seq 0 (length vertices))
    ∧ size (landmarks out) = length vertices.
Proof.
  apply (createDenseSfMData_replaces_landmarks
           (MeshingExample.world [0; 1]%nat (Some MeshingExample.triangle))
           MeshingExample.sparse_scene MeshingExample.cameras
           [MeshingExample.p0; MeshingExample.p1; MeshingExample.p2]
           MeshingExample.visibilities).
  - cbn. lia.
  - apply (bool_decide_unpack _). by vm_compute.
  - cbn. lia.
Defined.

End DenseSfMDataProperties.
(** * More on the meshing driver *)

Section MeshingStages.
Import Meshing.

Variable W : World.
Variable a : Args.

Lemma vertex_colors_quiet (landmarks : gmap IndexT Landmark) (i n : nat) :
  quiet (vertex_colors landmarks i n).
Proof.
  revert i. induction n as [|n IH]; intros i; cbn [vertex_colors]; [apply quiet_ret|].
  apply quiet_bind; [destruct (_ !! _); [apply quiet_ret | by apply quiet_stop]|].
  intros c. apply quiet_bind; [apply IH|]. intros cs. apply quiet_ret.
Qed.

(** The output stage: it fails without a trace, by an exception or in
    undefined behaviour, or it saves the dense point cloud and then the
    mesh and gives [EXIT_SUCCESS]. *)
Lemma generate_output_cases (sfmData : SfMData) (mp : MultiViewParams)
    (mesh : option Mesh) (ptsCams : list (list nat)) :
  (∃ o, generate_output W a sfmData mp mesh ptsCams = ([], inl o)
        ∧ ∀ status, o ≠ Exit status)
  ∨ (∃ out mesh',
       generate_output W a sfmData mp mesh ptsCams
       = ([LOG_INFO "Save dense point cloud.";
           SaveSfMData (outputDensePointCloud a) out;
           LOG_INFO "Save obj mesh file.";
           SaveToObj (outputMesh a) mesh';
           LOG_INFO "Task done"], inr EXIT_SUCCESS)).
Proof.
  unfold generate_output.
  assert (Hfail : ∀ e : Exception, ∀ status, Throw e ≠ Exit status) by done.
  destruct mesh as [mesh|]; [|left; eexists; split; [reflexivity | apply Hfail]].
  destruct (empty (pts mesh) || empty (tris mesh));
    [left; eexists; split; [reflexivity | apply Hfail]|].
  rewrite bind_ret.
  destruct (empty ptsCams); [left; eexists; split; [reflexivity | apply Hfail]|].
  rewrite bind_ret.
  destruct (quiet_cases _ (createDenseSfMData_quiet W sfmData mp (E:=Event)
                             (pts mesh) ptsCams)) as [[out ->]|(o & -> & Ho)];
    [|left; exists o; by rewrite bind_stop].
  rewrite bind_pure. destruct (colorizeOutput a).
  - destruct (quiet_cases _ (vertex_colors_quiet
                (landmarks (colorizeTracks W out)) 0 (length (pts mesh))))
      as [[colors ->]|(o & -> & Ho)]; [|left; exists o; by rewrite !bind_stop].
    rewrite bind_pure, bind_ret. right. by eexists _, _.
  - rewrite bind_ret. right. by eexists _, _.
Qed.

(** Saving the raw dense point cloud: one file, or none when the dense
    dataset cannot be made. *)
Lemma save_raw_dense_point_cloud_cases (sfmData : SfMData) (mp : MultiViewParams)
    (verticesCoords : list Point3d) (ptsCams : list (list nat)) :
  (∃ o, save_raw_dense_point_cloud W a sfmData mp (parent_path (outputMesh a))
          verticesCoords ptsCams
        = ([LOG_INFO "Save dense point cloud before cut and filtering."], inl o)
        ∧ ∀ status, o ≠ Exit status)
  ∨ (∃ densePointCloud,
       save_raw_dense_point_cloud W a sfmData mp (parent_path (outputMesh a))
         verticesCoords ptsCams
       = ([LOG_INFO "Save dense point cloud before cut and filtering.";
           SaveSfMData (raw_path a) densePointCloud], inr tt)).
Proof.
  unfold save_raw_dense_point_cloud. rewrite bind_emit_prepend.
  destruct (quiet_cases _ (createDenseSfMData_quiet W sfmData mp (E:=Event)
                             verticesCoords ptsCams)) as [[out ->]|(o & -> & Ho)].
  - rewrite bind_pure. right. by eexists.
  - rewrite bind_stop. left. by exists o.
Qed.



End MeshingStages.

Section MeshingRuns.
Import Meshing.

Variable W : World.
Variable a : Args.

(** The check of the options: rejected, or passed with the value of
    [meshingFromDepthMaps]; without a depth-maps folder it passes only
    for the accepted modes. *)
Lemma check_input_options_cases :
  (check_input_options a = ([LOG_ERROR "Invalid input options"], inl (Exit EXIT_FAILURE))
   ∧ depthMapsFolder a = EmptyString ∧ ¬ modes_accepted a)
  ∨ (∃ addLandmarks,
       check_input_options a = ([], inr (from_depth_maps a, addLandmarks))
       ∧ (depthMapsFolder a = EmptyString → modes_accepted a)).
Proof.
  unfold check_input_options, from_depth_maps, modes_accepted.
  case_bool_decide as Hdepth; [|right; by eexists].
  destruct (decide (repartitionMode a = eRepartitionMultiResolution)) as [Hr|Hr];
    destruct (decide (partitioningMode a = ePartitioningSingleBlock)) as [Hp|Hp];
    rewrite ?(bool_decide_true _ Hr), ?(bool_decide_false _ Hr),
      ?(bool_decide_true _ Hp), ?(bool_decide_false _ Hp); cbn [andb negb];
    first [ right; by eexists | left; split; [done|]; split; [done|]; tauto ].
Qed.

(** A run is stopped by the check of the options, or by the dataset that
    cannot be read, or it gets to the switches on the modes. *)
Lemma main_cases :
  aliceVision_main W a
  = ([LOG_ERROR "Invalid input options"], inl (Exit EXIT_FAILURE))
  ∨ (sfmDataIO_Load W (sfmDataFilename a) = None
     ∧ aliceVision_main W a
       = ([LoadSfMData (sfmDataFilename a);
           LOG_ERROR ("The input SfMData file '" ++ sfmDataFilename a
                        ++ "' cannot be read.")], inl (Exit EXIT_FAILURE)))
  ∨ (∃ sfmData addLandmarks,
       sfmDataIO_Load W (sfmDataFilename a) = Some sfmData
       ∧ (depthMapsFolder a = EmptyString → modes_accepted a)
       ∧ aliceVision_main W a
         = prepend
             (LoadSfMData (sfmDataFilename a)
                :: (if is_directory W (parent_path (outputMesh a)) then []
                    else [CreateDirectory (parent_path (outputMesh a))])
                ++ [LOG_WARNING "repartitionMode"; LOG_WARNING "partitioningMode"])
             (make_mesh W a sfmData (make_mp W a sfmData (from_depth_maps a))
                (parent_path (outputMesh a)) (from_depth_maps a) addLandmarks
              ≫= λ '(mesh, ptsCams),
                generate_output W a sfmData (make_mp W a sfmData (from_depth_maps a))
                  mesh ptsCams)).
Proof.
  destruct check_input_options_cases as [(Hcheck & _)|(addLandmarks & Hcheck & Hmodes)].
  - left. unfold aliceVision_main. by rewrite Hcheck.
  - right. destruct (sfmDataIO_Load W (sfmDataFilename a)) as [sfmData|] eqn:Hload.
    + right. exists sfmData, addLandmarks. split; [done|]. split; [done|].
      by apply main_loaded.
    + left. split; [done|]. unfold aliceVision_main. rewrite Hcheck, Hload. done.
Qed.

(** ** Every event is one the options allow *)

Lemma single_block_allowed (sfmData : SfMData) (mp : MultiViewParams)
    (addLandmarks : bool) :
  modes_accepted a →
  Forall (event_allowed W a)
    (single_block W a sfmData mp (parent_path (outputMesh a)) (from_depth_maps a)
       addLandmarks).1.
Proof.
  intros Hmodes. unfold single_block. rewrite bind_emit_prepend.
  assert (Hdepth : from_depth_maps a = true → depthMapsFolder a ≠ EmptyString).
  { unfold from_depth_maps. case_bool_decide; [discriminate | done]. }
  assert (Hnodepth : from_depth_maps a = false → depthMapsFolder a = EmptyString).
  { unfold from_depth_maps. case_bool_decide; [done | discriminate]. }
  assert (Hcams : ∀ cams : list nat, empty cams = false → cams ≠ []).
  { by intros [|cam cams]. }
  destruct (from_depth_maps a) eqn:Hfrom; destruct (estimateSpaceFromSfM a) eqn:Hest;
    cbn [andb negb]; mnorm;
    try specialize (Hdepth eq_refl); try specialize (Hnodepth eq_refl);
    (destruct (empty _) eqn:Hempty;
     [ unfold throw, stop; mnorm; mgather; cbn [fst];
       repeat (apply Forall_cons; split); try apply Forall_nil;
       cbn [event_allowed]; by intuition
     | apply Hcams in Hempty ]);
    mnorm;
    destruct (createDensePointCloud W mp _ _ _ _) as [verticesCoords rawPtsCams];
    (destruct (saveRawDensePointCloud a) eqn:Hsave;
     [ destruct (save_raw_dense_point_cloud_cases W a sfmData mp verticesCoords rawPtsCams)
         as [(o & -> & Ho)|(densePointCloud & ->)]
     | ]);
    mnorm; mgather; cbn [fst];
    repeat (apply Forall_cons; split); try apply Forall_nil;
    cbn [event_allowed]; by intuition.
Qed.

Lemma make_mesh_allowed (sfmData : SfMData) (mp : MultiViewParams)
    (addLandmarks : bool) :
  Forall (event_allowed W a)
    (make_mesh W a sfmData mp (parent_path (outputMesh a)) (from_depth_maps a)
       addLandmarks).1.
Proof.
  unfold make_mesh.
  destruct (repartitionMode a) eqn:Hr, (partitioningMode a) eqn:Hp;
    first [by apply single_block_allowed | constructor].
Qed.

Lemma generate_output_allowed (sfmData : SfMData) (mp : MultiViewParams)
    (mesh : option Mesh) (ptsCams : list (list nat)) :
  Forall (event_allowed W a) (generate_output W a sfmData mp mesh ptsCams).1.
Proof.
  destruct (generate_output_cases W a sfmData mp mesh ptsCams)
    as [(o & -> & _)|(out & mesh' & ->)]; cbn [fst];
    repeat (apply Forall_cons; split); try apply Forall_nil; cbn [event_allowed]; auto.
Qed.

Lemma main_allowed : Forall (event_allowed W a) (aliceVision_main W a).1.
Proof.
  destruct main_cases as [->|[(_ & ->)|(sfmData & addLandmarks & _ & _ & ->)]];
    [by repeat constructor..|].
  unfold prepend. cbn [fst]. apply Forall_app. split.
  - constructor; [done|]. apply Forall_app. split; [|by repeat constructor].
    destruct (is_directory W (parent_path (outputMesh a))) eqn:Hdir; by repeat constructor.
  - apply bind_trace_Forall; [apply make_mesh_allowed|].
    intros [mesh ptsCams]. apply generate_output_allowed.
Qed.

End MeshingRuns.
(** * More properties of the meshing driver *)

Section MeshingExtraFacts.
Import Meshing.

Variable W : World.
Variable a : Args.


(** The events before the switches on the modes write no file. *)
Lemma files_written_run (T : list Event) (o : Outcome + Z) :
  files_written
    (trace (run (prepend
       (LoadSfMData (sfmDataFilename a)
          :: (if is_directory W (parent_path (outputMesh a)) then []
              else [CreateDirectory (parent_path (outputMesh a))])
          ++ [LOG_WARNING "repartitionMode"; LOG_WARNING "partitioningMode"])
       ((T, o) : M Event Z))))
  = files_written T.
Proof. unfold run, trace, prepend. cbn [fst snd]. apply files_written_prefix. Qed.

Lemma outcome_run (T T' : list Event) (o : Outcome + Z) :
  outcome (run (prepend T ((T', o) : M Event Z)))
  = match o with inl o => o | inr status => Exit status end.
Proof. done. Qed.

(** A run that gets to the reconstruction and whose mesh is valid, up to
    the check of the visibilities. *)
Lemma main_reconstructed (sfmData : SfMData) (mesh : Mesh) (ptsCams : list (list nat)) :
  reconstructs W a sfmData →
  final_mesh W a sfmData = (Some mesh, ptsCams) →
  pts mesh ≠ [] → tris mesh ≠ [] →
  ∃ T,
    files_written T = (if saveRawDensePointCloud a then [raw_path a] else [])
    ∧ aliceVision_main W a
      = prepend
          (LoadSfMData (sfmDataFilename a)
             :: (if is_directory W (parent_path (outputMesh a)) then []
                 else [CreateDirectory (parent_path (outputMesh a))])
             ++ [LOG_WARNING "repartitionMode"; LOG_WARNING "partitioningMode"])
          (prepend T
             ((if empty ptsCams then
                 throw (runtime_error
                          "Points visibilities data has not been initialized.")
               else mret tt);;
              densePointCloud ← createDenseSfMData W sfmData
                                  (make_mp W a sfmData (from_depth_maps a)) (pts mesh)
                                  ptsCams;
              '(densePointCloud, mesh) ←
                (if colorizeOutput a then
                   let densePointCloud := colorizeTracks W densePointCloud in
                   colors ← vertex_colors (landmarks densePointCloud) 0
                              (length (pts mesh));
                   mret (densePointCloud, set_colors mesh colors)
                 else mret (densePointCloud, mesh));
              let densePointCloud := removeLandmarksWithoutObservations densePointCloud in
              emit (LOG_INFO "Save dense point cloud.");;
              emit (SaveSfMData (outputDensePointCloud a) densePointCloud);;
              emit (LOG_INFO "Save obj mesh file.");;
              emit (SaveToObj (outputMesh a) mesh);;
              emit (LOG_INFO "Task done");;
              mret EXIT_SUCCESS)).
Proof.
  intros Hrec Hfinal Hpts Htris.
  pose proof Hrec as (Hr & Hp & Hload & _).
  destruct (single_block_reconstructs W a sfmData Hrec) as (T & Hrun & Hfiles & _).
  exists T. split; [done|].
  rewrite (main_accepted W a sfmData (conj Hr Hp) Hload), Hrun, Hfinal.
  rewrite bind_value_prepend. cbv beta iota. unfold generate_output.
  assert (Hvalid : empty (pts mesh) || empty (tris mesh) = false).
  { by destruct (pts mesh), (tris mesh). }
  by rewrite Hvalid, bind_ret.
Qed.

(** The colours read for the vertices [i], [i+1], ... of a colorized
    dataset are the track colours of their landmarks. *)
Lemma vertex_colors_colorized (out : SfMData) (i n : nat) :
  (∀ j, (j < n)%nat → is_Some (landmarks out !! to_IndexT (i + j))) →
  vertex_colors (landmarks (colorizeTracks W out)) i n
  = ([], inr ((λ k, track_color W out (to_IndexT k)) <$> seq i n)).
Proof.
  revert i. induction n as [|n IH]; intros i Hsome; [done|].
  cbn [vertex_colors]. rewrite colorizeTracks_lookup.
  destruct (Hsome 0%nat) as [landmark Hlandmark]; [lia|].
  rewrite Nat.add_0_r in Hlandmark. rewrite Hlandmark. cbn [fmap option_fmap option_map].
  rewrite bind_ret, IH, bind_pure; [done|].
  intros j Hj. rewrite Nat.add_succ_comm. apply Hsome. lia.
Qed.

End MeshingExtraFacts.

Section MeshingExtra.
Import Meshing.

(** X8: removing the landmarks without observations a second time
    changes nothing, and a dataset is left as it is exactly when each of
    its landmarks has an observation. *)
Theorem removeLandmarksWithoutObservations_idempotent (sfmData : SfMData) :
  removeLandmarksWithoutObservations (removeLandmarksWithoutObservations sfmData)
  = removeLandmarksWithoutObservations sfmData
  ∧ (removeLandmarksWithoutObservations sfmData = sfmData
     ↔ map_Forall (λ _ landmark, observations landmark ≠ ∅) (landmarks sfmData)).
Proof.
  assert (Heq : ∀ d, removeLandmarksWithoutObservations d = d
                     ↔ map_Forall (λ _ landmark, observations landmark ≠ ∅) (landmarks d)).
  { intros d. split.
    - intros Hfix k landmark Hk. rewrite <- Hfix in Hk.
      by apply removeLandmarksWithoutObservations_lookup in Hk as [_ Hobs].
    - intros Hall. destruct d as [d_views d_intrinsics d_poses d_landmarks].
      unfold removeLandmarksWithoutObservations, set_landmarks.
      cbn [views intrinsics poses landmarks] in *. f_equal.
      apply map_eq. intros k. apply option_eq. intros landmark.
      rewrite map_lookup_filter_Some. split; [by intros [? _]|].
      intros Hk. split; [done|]. exact (Hall k landmark Hk). }
  split; [|apply Heq]. apply Heq.
  intros k landmark Hk.
  by apply removeLandmarksWithoutObservations_lookup in Hk as [_ Hobs].
Qed.

(** X9: when the dataset cannot be read the run returns [EXIT_FAILURE],
    whatever the options are; it has not created the output directory,
    estimated the bounding volume or written any file. *)
Theorem meshing_unreadable_dataset_fails (W : World) (a : Args) :
  sfmDataIO_Load W (sfmDataFilename a) = None →
  let r := run (aliceVision_main W a) in
  outcome r = Exit EXIT_FAILURE
  ∧ files_written (trace r) = []
  ∧ (∀ path, ¬ In (CreateDirectory path) (trace r))
  ∧ ¬ estimates_space (trace r).
Proof.
  intros Hload r. subst r.
  destruct (main_cases W a) as [->|[(_ & ->)|(sfmData & _ & Hsome & _)]];
    [| |congruence];
    (split; [done|]); (split; [done|]);
    (split; [intros path Hin; cbn in Hin; intuition discriminate|]);
    unfold estimates_space; cbn; intuition discriminate.
Qed.

Lemma meshing_unreadable_dataset_fails_witness :
  let r := run (aliceVision_main MeshingExample.world_unreadable
                  (MeshingExample.args "depthMaps" ePartitioningSingleBlock true false)) in
  outcome r = Exit EXIT_FAILURE
  ∧ files_written (trace r) = []
  ∧ (∀ path, ¬ In (CreateDirectory path) (trace r))
  ∧ ¬ estimates_space (trace r).
Proof.
  apply (meshing_unreadable_dataset_fails MeshingExample.world_unreadable
           (MeshingExample.args "depthMaps" ePartitioningSingleBlock true false)).
  reflexivity.
Defined.

(** X10: a valid mesh that comes without any visibility list makes the
    run fail with the runtime error "Points visibilities data has not
    been initialized."; neither the dense point cloud nor the mesh is
    written. *)
Theorem missing_visibilities_fail (W : World) (a : Args) (sfmData : SfMData)
    (mesh : Mesh) :
  reconstructs W a sfmData →
  final_mesh W a sfmData = (Some mesh, []) →
  pts mesh ≠ [] → tris mesh ≠ [] →
  let r := run (aliceVision_main W a) in
  outcome r
  = Throw (runtime_error "Points visibilities data has not been initialized.")
  ∧ files_written (trace r) = (if saveRawDensePointCloud a then [raw_path a] else []).
Proof.
  intros Hrec Hfinal Hpts Htris r. subst r.
  destruct (main_reconstructed W a sfmData mesh [] Hrec Hfinal Hpts Htris)
    as (T & Hfiles & ->).
  cbn [empty]. unfold throw, stop. rewrite bind_stop, prepend_pair.
  rewrite files_written_run, outcome_run, app_nil_r. done.
Qed.

Lemma missing_visibilities_fail_witness :
  let W := MeshingExample.world_with (Some MeshingExample.triangle) [] in
  let a := MeshingExample.args "depthMaps" ePartitioningSingleBlock true false in
  let r := run (aliceVision_main W a) in
  outcome r
  = Throw (runtime_error "Points visibilities data has not been initialized.")
  ∧ files_written (trace r) = (if saveRawDensePointCloud a then [raw_path a] else []).
Proof.
  apply (missing_visibilities_fail
           (MeshingExample.world_with (Some MeshingExample.triangle) [])
           (MeshingExample.args "depthMaps" ePartitioningSingleBlock true false)
           MeshingExample.scene MeshingExample.triangle).
  - split; [reflexivity|]. split; [reflexivity|]. split; [reflexivity|].
    split; [by vm_compute|]. intros _.
    apply (bool_decide_unpack _). by vm_compute.
  - reflexivity.
  - by vm_compute.
  - by vm_compute.
Defined.


(** X12: a run does nothing but what its options say.  It reads the
    input dataset and no other; it creates the directory of the output
    mesh, when that is missing, and no other; it estimates the bounding
    volume, makes the dense point cloud and reconstructs only under the
    accepted modes, from the depth maps only when a depth-maps folder is
    given and the estimation from the SfM data is off; and it writes
    only to the two output paths and, when asked to, the raw dense point
    cloud beside the mesh. *)
Theorem events_within_options (W : World) (a : Args) :
  Forall (event_allowed W a) (trace (run (aliceVision_main W a))).
Proof. apply main_allowed. Qed.



(** X14: only the exact names select the modes the driver accepts.  When
    the partitioning and repartition modes are read from the strings
    [partitioning] and [repartition], the modes are accepted exactly when
    these are "singleBlock" and "multiResolution"; with any other
    spelling the run reconstructs no mesh and does not succeed. *)
Theorem only_exact_mode_names_reconstruct (W : World) (a : Args)
    (partitioning repartition : string) :
  partitioningMode a = EPartitioning_stringToEnum partitioning →
  repartitionMode a = ERepartitionMode_stringToEnum repartition →
  let r := run (aliceVision_main W a) in
  (modes_accepted a ↔ partitioning = "singleBlock" ∧ repartition = "multiResolution")
  ∧ (In ReconstructMesh (trace r) →
     partitioning = "singleBlock" ∧ repartition = "multiResolution")
  ∧ (outcome r = Exit EXIT_SUCCESS →
     partitioning = "singleBlock" ∧ repartition = "multiResolution").
Proof.
  intros Hp Hr r.
  assert (Hnames : modes_accepted a
                   ↔ partitioning = "singleBlock" ∧ repartition = "multiResolution").
  { unfold modes_accepted. rewrite Hp, Hr.
    unfold EPartitioning_stringToEnum, ERepartitionMode_stringToEnum.
    repeat case_bool_decide; subst; intuition (done || discriminate). }
  split; [done|]. rewrite <- Hnames. split.
  - intros Hin. pose proof (main_allowed W a) as Hall. rewrite Forall_forall in Hall.
    apply list_elem_of_In in Hin. exact (Hall _ Hin).
  - intros Hsuccess. subst r.
    destruct (decide (repartitionMode a = eRepartitionMultiResolution)) as [Hrm|Hrm];
      [destruct (decide (partitioningMode a = ePartitioningSingleBlock)) as [Hpm|Hpm]|];
      [done|exfalso..];
      (assert (Hrej : ¬ modes_accepted a) by (by intros [? ?]));
      (destruct (main_cases W a) as [Hrun|[(_ & Hrun)|(sfmData & al & _ & _ & Hrun)]];
       [by rewrite Hrun in Hsuccess..|]);
      destruct (make_mesh_rejected W a sfmData (make_mp W a sfmData (from_depth_maps a))
                  (parent_path (outputMesh a)) (from_depth_maps a) al Hrej)
        as [what Hmesh];
      by rewrite Hrun, Hmesh in Hsuccess.
Qed.

Lemma only_exact_mode_names_reconstruct_witness :
  let W := MeshingExample.world [0; 1]%nat (Some MeshingExample.triangle) in
  let a := MeshingExample.args "depthMaps" (EPartitioning_stringToEnum "SingleBlock")
             false false in
  let r := run (aliceVision_main W a) in
  (modes_accepted a
   ↔ "SingleBlock" = "singleBlock" ∧ "multiResolution" = "multiResolution")
  ∧ (In ReconstructMesh (trace r) →
     "SingleBlock" = "singleBlock" ∧ "multiResolution" = "multiResolution")
  ∧ (outcome r = Exit EXIT_SUCCESS →
     "SingleBlock" = "singleBlock" ∧ "multiResolution" = "multiResolution").
Proof.
  apply (only_exact_mode_names_reconstruct
           (MeshingExample.world [0; 1]%nat (Some MeshingExample.triangle))
           (MeshingExample.args "depthMaps" (EPartitioning_stringToEnum "SingleBlock")
              false false)
           "SingleBlock" "multiResolution"); reflexivity.
Defined.

(** X15: the saved mesh keeps the points and triangles of the
    reconstruction.  With [colorizeOutput] it has one colour for every
    vertex, the track colour of the landmark of that vertex in the dense
    dataset before the landmarks without observations are removed: a
    vertex that no camera sees has its colour too.  Without
    [colorizeOutput] the mesh is saved as it was reconstructed. *)
Theorem saved_mesh_vertex_colors (W : World) (a : Args) (sfmData : SfMData)
    (mesh : Mesh) (ptsCams : list (list nat)) :
  reconstructs W a sfmData →
  final_mesh W a sfmData = (Some mesh, ptsCams) →
  pts mesh ≠ [] → tris mesh ≠ [] →
  (length (pts mesh) ≤ length ptsCams)%nat →
  cameras_resolve sfmData (make_mp W a sfmData (from_depth_maps a))
    (take (length (pts mesh)) ptsCams) →
  let r := run (aliceVision_main W a) in
  ∃ out mesh',
    createDenseSfMData (E:=Event) W sfmData (make_mp W a sfmData (from_depth_maps a))
      (pts mesh) ptsCams = ([], inr out)
    ∧ outcome r = Exit EXIT_SUCCESS
    ∧ In (SaveToObj (outputMesh a) mesh') (trace r)
    ∧ pts mesh' = pts mesh ∧ tris mesh' = tris mesh
    ∧ (colorizeOutput a = false → mesh' = mesh)
    ∧ (colorizeOutput a = true →
       colors mesh'
       = (λ i, track_color W out (to_IndexT i)) <$> seq 0 (length (pts mesh))).
Proof.
  intros Hrec Hfinal Hpts Htris Hlen Hall r. subst r.
  destruct (main_reconstructed W a sfmData mesh ptsCams Hrec Hfinal Hpts Htris)
    as (T & Hfiles & ->).
  destruct (createDenseSfMData_succeeds W sfmData _ (pts mesh) ptsCams Hlen Hall)
    as [out Hout].
  assert (Hsome : ∀ j, (j < length (pts mesh))%nat →
            is_Some (landmarks out !! to_IndexT (0 + j))).
  { pose proof Hout as Hkeys. unfold createDenseSfMData in Hkeys.
    apply (f_equal snd) in Hkeys. cbn [snd] in Hkeys.
    apply add_landmarks_returns in Hkeys as (_ & _ & _ & _ & Hkeys).
    intros j Hj. apply Hkeys. right. by exists j. }
  assert (Hempty : empty ptsCams = false).
  { destruct ptsCams; [|done]. destruct (pts mesh); [done | cbn in Hlen; lia]. }
  assert (Hin : ∀ (T0 T1 : list Event) mesh',
            In (SaveToObj (outputMesh a) mesh')
              (T0 ++ T1 ++ [LOG_INFO "Save dense point cloud.";
                            SaveSfMData (outputDensePointCloud a)
                              (removeLandmarksWithoutObservations
                                 (if colorizeOutput a then colorizeTracks W out else out));
                            LOG_INFO "Save obj mesh file.";
                            SaveToObj (outputMesh a) mesh';
                            LOG_INFO "Task done"])).
  { intros T0 T1 mesh'. rewrite !in_app_iff. right. right. cbn. auto. }
  rewrite Hempty, bind_ret, Hout, bind_pure.
  destruct (colorizeOutput a) eqn:Hcolor.
  - cbv zeta. rewrite (vertex_colors_colorized W out 0 _ Hsome), bind_pure, bind_ret.
    exists out, (set_colors mesh ((λ i, track_color W out (to_IndexT i))
                                     <$> seq 0 (length (pts mesh)))).
    split; [done|]. split; [done|]. split; [apply Hin|]. by repeat split.
  - rewrite bind_ret. exists out, mesh.
    split; [done|]. split; [done|]. split; [apply Hin|]. by repeat split.
Qed.

Lemma saved_mesh_vertex_colors_witness :
  let W := MeshingExample.world [0; 1]%nat (Some MeshingExample.triangle) in
  let a := MeshingExample.args "depthMaps" ePartitioningSingleBlock false true in
  let sfmData := MeshingExample.scene in
  let mesh := MeshingExample.triangle in
  let r := run (aliceVision_main W a) in
  ∃ out mesh',
    createDenseSfMData (E:=Event) W sfmData (make_mp W a sfmData (from_depth_maps a))
      (pts mesh) MeshingExample.visibilities = ([], inr out)
    ∧ outcome r = Exit EXIT_SUCCESS
    ∧ In (SaveToObj (outputMesh a) mesh') (trace r)
    ∧ pts mesh' = pts mesh ∧ tris mesh' = tris mesh
    ∧ (colorizeOutput a = false → mesh' = mesh)
    ∧ (colorizeOutput a = true →
       colors mesh'
       = (λ i, track_color W out (to_IndexT i)) <$> seq 0 (length (pts mesh))).
Proof.
  apply (saved_mesh_vertex_colors
           (MeshingExample.world [0; 1]%nat (Some MeshingExample.triangle))
           (MeshingExample.args "depthMaps" ePartitioningSingleBlock false true)
           MeshingExample.scene MeshingExample.triangle MeshingExample.visibilities).
  - split; [reflexivity|]. split; [reflexivity|]. split; [reflexivity|].
    split; [by vm_compute|]. intros [=].
  - reflexivity.
  - by vm_compute.
  - by vm_compute.
  - cbn. lia.
  - apply (bool_decide_unpack _). by vm_compute.
Defined.

End MeshingExtra.
